(** * Atomicals utility functions (electrumx/lib/util_atomicals.py)

    A shallow embedding of the parser and validator functions of
    [util_atomicals.py], and the properties established about them.

    Conventions of the embedding:
    - a Python [str] is a [string]; each [ascii] stands for one code point
      below 256;
    - a Python [bytes] is a [list byte]; indexing a byte yields its value as
      an [N];
    - a Python [int] is a [Z];
    - a function that can raise returns a [result]; the exception classes of
      the source are the constructors of [pyexc];
    - a decoded payload is a [pyval]; maps keep their insertion order, and
      their keys are text. *)

From Stdlib Require Import ZArith NArith Lia Bool Ascii String List.
From Stdlib Require Strings.Byte DecimalString DecimalZ DecimalPos DecimalN.
From stdpp Require Import base option list gmap strings.

Import ListNotations.
Local Open Scope stdpp_scope.

Set Warnings "-register-all".

(** ** Exceptions *)

Inductive pyexc : Type :=
  | ValueError
  | TypeError
  | IndexError
  | KeyError
  | StructError
  | ScriptError
  | AttributeError
  | AssertionError
  | UnboundLocalError.

Inductive result (A : Type) : Type :=
  | Ok (a : A)
  | Raise (e : pyexc).

Arguments Ok {A} a.
Arguments Raise {A} e.

Definition rbind {A B : Type} (r : result A) (k : A -> result B) : result B :=
  match r with
  | Ok a => k a
  | Raise e => Raise e
  end.

Notation "'let*' x ':=' r 'in' k" := (rbind r (fun x => k))
  (at level 10, x pattern, r at level 200, k at level 200,
   format "'[v' 'let*'  x  ':='  r  'in' '/' k ']'").

Definition is_ok {A : Type} (r : result A) : bool :=
  match r with Ok _ => true | Raise _ => false end.

(** ** Bytes *)

Abbreviation byte := Corelib.Init.Byte.byte.

Definition byte_val (b : byte) : N := Strings.Byte.to_N b.

Definition byte_of (n : N) : byte :=
  match Strings.Byte.of_N (n mod 256) with
  | Some b => b
  | None => Corelib.Init.Byte.x00
  end.

#[global] Instance byte_eq_dec : EqDecision byte := Strings.Byte.byte_eq_dec.

#[global] Instance byte_countable : Countable byte :=
  inj_countable Strings.Byte.to_N Strings.Byte.of_N Strings.Byte.of_to_N.

(** [script[n]] on a bytes object. *)
Definition byte_at (script : list byte) (n : nat) : result N :=
  match script !! n with
  | Some b => Ok (byte_val b)
  | None => Raise IndexError
  end.

(** [script[a : b]]: slicing never raises, it clips. *)
Definition slice {A : Type} (l : list A) (a b : nat) : list A :=
  take (b - a) (drop a l).

(** ** Strings *)

Module Str.

Fixpoint to_list (s : string) : list ascii :=
  match s with
  | EmptyString => []
  | String c s' => c :: to_list s'
  end.

Fixpoint of_list (l : list ascii) : string :=
  match l with
  | [] => EmptyString
  | c :: l' => String c (of_list l')
  end.

Definition len (s : string) : nat := String.length s.

(** [s[:n]] *)
Fixpoint take (n : nat) (s : string) : string :=
  match n, s with
  | S n', String c s' => String c (take n' s')
  | _, _ => EmptyString
  end.

(** [s[n:]] *)
Fixpoint drop (n : nat) (s : string) : string :=
  match n, s with
  | S n', String _ s' => drop n' s'
  | _, _ => s
  end.

(** [s.find(c)] for a one-character needle: the first position, if any. *)
Fixpoint find (c : ascii) (s : string) : option nat :=
  match s with
  | EmptyString => None
  | String c' s' =>
      if Ascii.eqb c' c then Some 0%nat
      else match find c s' with
           | Some i => Some (S i)
           | None => None
           end
  end.

(** [s.count(c)] for a one-character needle. *)
Fixpoint count (c : ascii) (s : string) : nat :=
  match s with
  | EmptyString => 0
  | String c' s' => (if Ascii.eqb c' c then 1 else 0) + count c s'
  end.

(** [s.split(c)] for a one-character separator. *)
Fixpoint split (c : ascii) (s : string) : list string :=
  match s with
  | EmptyString => [EmptyString]
  | String c' s' =>
      if Ascii.eqb c' c then EmptyString :: split c s'
      else match split c s' with
           | w :: ws => String c' w :: ws
           | [] => [String c' EmptyString]
           end
  end.

(** [s.startswith(p)] *)
Fixpoint startswith (s p : string) : bool :=
  match p, s with
  | EmptyString, _ => true
  | String a p', String b s' => Ascii.eqb a b && startswith s' p'
  | String _ _, EmptyString => false
  end.

(** [s[-1]] of a non-empty string. *)
Fixpoint last (s : string) : option ascii :=
  match s with
  | EmptyString => None
  | String c EmptyString => Some c
  | String _ s' => last s'
  end.

Definition head (s : string) : option ascii :=
  match s with
  | EmptyString => None
  | String c _ => Some c
  end.

Definition code (c : ascii) : N := N_of_ascii c.

Definition in_range (lo hi c : ascii) : bool :=
  (code lo <=? code c)%N && (code c <=? code hi)%N.

End Str.

(** ** Decoded payload values *)

(** The values [cbor2.loads] can produce.  [VFloat] carries the IEEE bit
    pattern; [VOther] stands for the remaining CBOR results (tags, simple
    values, dates and so on), none of which is an [int], [float], [str],
    [bytes], [list] or [dict]. *)
Inductive pyval : Type :=
  | VNone
  | VBool (b : bool)
  | VInt (z : Z)
  | VFloat (bits : N)
  | VStr (s : string)
  | VBytes (b : list byte)
  | VList (l : list pyval)
  | VDict (d : list (string * pyval))
  | VOther (tag : N).

(** [d.get(k)] on the insertion-ordered items of a dict. *)
Fixpoint dict_get {V : Type} (d : list (string * V)) (k : string) : option V :=
  match d with
  | [] => None
  | (k', v) :: rest => if String.eqb k' k then Some v else dict_get rest k
  end.

(** [d.get(k, {})] *)
Definition dict_get_or_empty (d : list (string * pyval)) (k : string) : pyval :=
  match dict_get d k with
  | Some v => v
  | None => VDict []
  end.

(** Python truthiness. *)
Definition truthy (v : pyval) : bool :=
  match v with
  | VNone => false
  | VBool b => b
  | VInt z => negb (z =? 0)%Z
  | VFloat bits => negb ((bits =? 0)%N || (bits =? 2 ^ 63)%N)
  | VStr s => negb (String.eqb s EmptyString)
  | VBytes b => match b with [] => false | _ => true end
  | VList l => match l with [] => false | _ => true end
  | VDict d => match d with [] => false | _ => true end
  | VOther _ => true
  end.

Definition truthy_opt (o : option pyval) : bool :=
  match o with
  | Some v => truthy v
  | None => false
  end.

(** [isinstance(v, int)], which holds for [bool] too, with the integer value. *)
Definition as_int (v : pyval) : option Z :=
  match v with
  | VInt z => Some z
  | VBool b => Some (if b then 1 else 0)%Z
  | _ => None
  end.

Definition is_dict (v : pyval) : bool :=
  match v with VDict _ => true | _ => false end.

(** ** Dict sanitizer *)

(** [is_sanitized_dict_whitelist_only(d, allow_bytes)]: the loop over
    [d.items()] returns the verdict of the first dict-valued entry it meets. *)
Fixpoint is_sanitized_dict_whitelist_only (d : pyval) (allow_bytes : bool) : bool :=
  match d with
  | VDict items =>
      (fix items_loop (items : list (string * pyval)) : bool :=
         match items with
         | [] => true
         | (_, v) :: rest =>
             match v with
             | VDict _ => is_sanitized_dict_whitelist_only v allow_bytes
             | VBytes _ => if negb allow_bytes then false else items_loop rest
             | VBool _ | VInt _ | VFloat _ | VList _ | VStr _ => items_loop rest
             | VNone | VOther _ => false
             end
         end) items
  | _ => false
  end.

(** ** Hexadecimal text *)

Definition hex_digit (n : N) : ascii :=
  ascii_of_N (if (n <? 10)%N then 48 + n else 87 + n).

(** [b.hex()] *)
Fixpoint bytes_hex (b : list byte) : string :=
  match b with
  | [] => EmptyString
  | x :: rest =>
      String (hex_digit (byte_val x / 16))
        (String (hex_digit (byte_val x mod 16)) (bytes_hex rest))
  end.

(** The value of a hexadecimal digit, in either case. *)
Definition hex_val (c : ascii) : option N :=
  let n := Str.code c in
  if (48 <=? n)%N && (n <=? 57)%N then Some (n - 48)%N
  else if (97 <=? n)%N && (n <=? 102)%N then Some (n - 87)%N
  else if (65 <=? n)%N && (n <=? 70)%N then Some (n - 55)%N
  else None.

(** ASCII white space, which [bytes.fromhex] skips between bytes. *)
Definition is_ascii_space (c : ascii) : bool :=
  let n := Str.code c in
  ((9 <=? n)%N && (n <=? 13)%N) || (n =? 32)%N.

(** [bytes.fromhex(s)] *)
Fixpoint bytes_fromhex (s : string) : result (list byte) :=
  match s with
  | EmptyString => Ok []
  | String c s1 =>
      if is_ascii_space c then bytes_fromhex s1
      else
        match hex_val c, s1 with
        | Some hi, String d s2 =>
            match hex_val d with
            | Some lo =>
                let* rest := bytes_fromhex s2 in
                Ok (byte_of (16 * hi + lo) :: rest)
            | None => Raise ValueError
            end
        | _, _ => Raise ValueError
        end
  end.

(** Modelled from the spec: [electrumx.lib.hash] is not among the sources.
    The codec hex-decodes the 64-character prefix of a compact id into the
    32-byte hash, and the inverse direction hex-encodes it; the spec does not
    fix a byte order, and the digits are taken in the order of the bytes. *)
Definition hex_str_to_hash (x : string) : result (list byte) :=
  bytes_fromhex x.

Definition hash_to_hex_str (x : list byte) : string :=
  bytes_hex x.

(** ** Decimal text *)

Definition is_digit (c : ascii) : bool :=
  (48 <=? Str.code c)%N && (Str.code c <=? 57)%N.

Definition digit_val (c : ascii) : Z := Z.of_N (Str.code c - 48).

(** White space as [int] sees it around a number, for code points below 256. *)
Definition is_space (c : ascii) : bool :=
  let n := Str.code c in
  ((9 <=? n)%N && (n <=? 13)%N) || (n =? 32)%N || (n =? 133)%N || (n =? 160)%N.

Fixpoint lstrip (s : string) : string :=
  match s with
  | String c s' => if is_space c then lstrip s' else s
  | EmptyString => EmptyString
  end.

Fixpoint rstrip (s : string) : string :=
  match s with
  | EmptyString => EmptyString
  | String c s' =>
      match rstrip s' with
      | EmptyString => if is_space c then EmptyString else String c EmptyString
      | r => String c r
      end
  end.

(** The digits after a first digit: more digits, each optionally preceded by
    one underscore. *)
Fixpoint int_digits (s : string) (acc : Z) : option Z :=
  match s with
  | EmptyString => Some acc
  | String c s' =>
      if is_digit c then int_digits s' (10 * acc + digit_val c)
      else if Ascii.eqb c "_" then
        match s' with
        | String d s'' =>
            if is_digit d then int_digits s'' (10 * acc + digit_val d) else None
        | EmptyString => None
        end
      else None
  end.

Definition unsigned_int (s : string) : option Z :=
  match s with
  | String c s' => if is_digit c then int_digits s' (digit_val c) else None
  | EmptyString => None
  end.

(** [int(s)] in base ten: surrounding white space, an optional sign, digits. *)
Definition py_int (s : string) : result Z :=
  let t := rstrip (lstrip s) in
  let '(sign, body) :=
    match t with
    | String "-" r => ((-1)%Z, r)
    | String "+" r => (1%Z, r)
    | _ => (1%Z, t)
    end in
  match unsigned_int body with
  | Some v => Ok (sign * v)%Z
  | None => Raise ValueError
  end.

(** [str(n)] *)
Definition py_str (z : Z) : string :=
  DecimalString.NilZero.string_of_int (Z.to_int z).

(** ** Little-endian integers *)

Fixpoint le_bytes (width : nat) (n : N) : list byte :=
  match width with
  | O => []
  | S w => byte_of n :: le_bytes w (n / 256)
  end.

Fixpoint le_value (b : list byte) : N :=
  match b with
  | [] => 0
  | x :: rest => byte_val x + 256 * le_value rest
  end.

(** Modelled from the spec: [electrumx.lib.util] is not among the sources.
    The packers are the little-endian fixed-width encodings the spec names
    (4-byte output index, 64-bit value); as with [struct], packing a number
    that does not fit and unpacking from too few bytes raise. *)
Definition pack_le_uint32 (z : Z) : result (list byte) :=
  if (0 <=? z)%Z && (z <? 2 ^ 32)%Z then Ok (le_bytes 4 (Z.to_N z))
  else Raise StructError.

Definition pack_le_uint64 (z : Z) : result (list byte) :=
  if (0 <=? z)%Z && (z <? 2 ^ 64)%Z then Ok (le_bytes 8 (Z.to_N z))
  else Raise StructError.

Definition unpack_le_uint_from (width : nat) (b : list byte) : result Z :=
  if (width <=? length b)%nat then Ok (Z.of_N (le_value (take width b)))
  else Raise StructError.

Definition unpack_le_uint16_from := unpack_le_uint_from 2.
Definition unpack_le_uint32_from := unpack_le_uint_from 4.

Definition unpack_le_uint64 (b : list byte) : result Z :=
  if (length b =? 8)%nat then Ok (Z.of_N (le_value b))
  else Raise StructError.

(** ** Atomical id codec *)

(** [is_compact_atomical_id(value)] *)
Definition is_compact_atomical_id (value : pyval) : result bool :=
  match value with
  | VInt _ | VBool _ => Ok false
  | VNone => Ok false
  | VStr s =>
      if String.eqb s EmptyString then Ok false
      else
        match Str.find "i" s with
        | Some 64%nat =>
            let* raw_hash := hex_str_to_hash (Str.take 64 s) in
            Ok (length raw_hash =? 32)%nat
        | _ => Ok false
        end
  | VBytes _ => Raise TypeError
  | VFloat _ | VList _ | VDict _ | VOther _ => Raise AttributeError
  end.

(** [compact_to_location_id_bytes(value)] *)
Definition compact_to_location_id_bytes (value : string) : result (list byte) :=
  match Str.find "i" value with
  | None => Raise ValueError
  | Some index_of_i =>
      if negb (index_of_i =? 64)%nat then Raise TypeError
      else
        let* raw_hash := hex_str_to_hash (Str.take 64 value) in
        if negb (length raw_hash =? 32)%nat then Raise TypeError
        else
          let* num := py_int (Str.drop 65 value) in
          if (num <? 0)%Z || (num >? 100000)%Z then Raise TypeError
          else
            let* idx := pack_le_uint32 num in
            Ok (raw_hash ++ idx)
  end.

(** [location_id_bytes_to_compact(location_id)] *)
Definition location_id_bytes_to_compact (location_id : list byte) : result string :=
  let* digit := unpack_le_uint32_from (drop 32 location_id) in
  Ok (hash_to_hex_str (take 32 location_id) +:+ "i" +:+ py_str digit).

(** ** Regular expressions *)

(** The fragment of [re] the validators use: character classes, sequencing,
    bounded repetition of a class.  Matching is by derivatives, for which
    alternation is needed as well. *)
Inductive regex : Type :=
  | RFail
  | REps
  | RClass (p : ascii -> bool)
  | RCat (r1 r2 : regex)
  | RAlt (r1 r2 : regex)
  | RRep (p : ascii -> bool) (lo hi : nat).

Fixpoint nullable (r : regex) : bool :=
  match r with
  | RFail => false
  | REps => true
  | RClass _ => false
  | RCat r1 r2 => nullable r1 && nullable r2
  | RAlt r1 r2 => nullable r1 || nullable r2
  | RRep _ lo _ => (lo =? 0)%nat
  end.

Fixpoint deriv (c : ascii) (r : regex) : regex :=
  match r with
  | RFail | REps => RFail
  | RClass p => if p c then REps else RFail
  | RCat r1 r2 =>
      if nullable r1 then RAlt (RCat (deriv c r1) r2) (deriv c r2)
      else RCat (deriv c r1) r2
  | RAlt r1 r2 => RAlt (deriv c r1) (deriv c r2)
  | RRep p lo hi =>
      match hi with
      | O => RFail
      | S hi' => if p c then RRep p (Nat.pred lo) hi' else RFail
      end
  end.

(** [re.compile('^' + r + '$').match(s)]: the pattern must cover the string
    from its start up to its end, or up to a line feed that ends it. *)
Fixpoint re_match (r : regex) (s : string) : bool :=
  match s with
  | EmptyString => nullable r
  | String c s' =>
      (Ascii.eqb c "010" && String.eqb s' EmptyString && nullable r)
      || re_match (deriv c r) s'
  end.

Definition cls_az (c : ascii) : bool := Str.in_range "a" "z" c.
Definition cls_az09 (c : ascii) : bool :=
  Str.in_range "a" "z" c || Str.in_range "0" "9" c.
Definition cls_az09dash (c : ascii) : bool :=
  Str.in_range "a" "z" c || Str.in_range "0" "9" c || Ascii.eqb c "-".

(** [^[a-z0-9]{1,64}$] *)
Definition re_pow_prefix : regex := RRep cls_az09 1 64.
(** [^[a-z0-9]{1,21}$] *)
Definition re_ticker : regex := RRep cls_az09 1 21.
(** [^[a-z][a-z0-9\-]{0,63}$] *)
Definition re_realm : regex := RCat (RClass cls_az) (RRep cls_az09dash 0 63).
(** [^[a-z0-9][a-z0-9\-]{0,63}$] *)
Definition re_subrealm : regex := RCat (RClass cls_az09) (RRep cls_az09dash 0 63).

(** ** Bitwork strings *)

(** [is_validate_pow_prefix_string(pow_prefix, pow_prefix_ext)], for a string
    prefix and an extension that is [None] or an [int].  In the source the
    test on the extension reads [a and b or c and d], which Python groups as
    [(a and b) or (c and d)]. *)
Definition is_validate_pow_prefix_string (pow_prefix : string) (pow_prefix_ext : option Z) : bool :=
  if String.eqb pow_prefix EmptyString then false
  else
    match pow_prefix_ext with
    | Some ext =>
        if negb (ext =? 0)%Z then
          (ext >=? 0)%Z || ((ext <=? 15)%Z && re_match re_pow_prefix pow_prefix)
        else re_match re_pow_prefix pow_prefix
    | None => re_match re_pow_prefix pow_prefix
    end.

Record bitwork_parts : Type := BitworkParts {
  bw_prefix : string;
  bw_ext : option Z
}.

(** [is_valid_bitwork_string(bitwork)]; [None] is the pair [(None, None)]. *)
Definition is_valid_bitwork_string (bitwork : pyval) : option (string * bitwork_parts) :=
  if negb (truthy bitwork) then None
  else
    match bitwork with
    | VStr b =>
        if (1 <? Str.count "." b)%nat then None
        else
          let splitted := Str.split "." b in
          let prefix := match splitted with p :: _ => p | [] => EmptyString end in
          let ext :=
            match splitted with
            | _ :: e :: _ =>
                match py_int e with
                | Ok z => Some (Some z)
                | Raise _ => None
                end
            | _ => Some None
            end in
          match ext with
          | None => None
          | Some ext =>
              if is_validate_pow_prefix_string prefix ext
              then Some (b, BitworkParts prefix ext)
              else None
          end
    | _ => None
    end.

(** The value of a lower-case hexadecimal digit ([char_map] in the source). *)
Definition char_map (c : ascii) : option Z :=
  let n := Str.code c in
  if (48 <=? n)%N && (n <=? 57)%N then Some (Z.of_N (n - 48))
  else if (97 <=? n)%N && (n <=? 102)%N then Some (Z.of_N (n - 87))
  else None.

(** [is_proof_of_work_prefix_match(tx_hash, powprefix, powprefix_ext)] *)
Definition is_proof_of_work_prefix_match (tx_hash : list byte) (powprefix : string) (powprefix_ext : option Z) : result bool :=
  let txid := hash_to_hex_str tx_hash in
  match powprefix_ext with
  | Some ext =>
      if negb (ext =? 0)%Z then
        if (ext <? 0)%Z || (ext >? 15)%Z then Ok false
        else if negb (Str.startswith txid powprefix) then Ok false
        else
          match Str.head (Str.drop (Str.len powprefix) txid) with
          | None => Raise IndexError
          | Some next_char =>
              match char_map next_char with
              | Some get_numeric_value => Ok (get_numeric_value >=? ext)%Z
              | None => Raise KeyError
              end
          end
      else Ok (Str.startswith txid powprefix)
  | None => Ok (Str.startswith txid powprefix)
  end.

(** ** Names *)

(** [is_valid_ticker_string(ticker)]: [None], [True] or [False]. *)
Definition is_valid_ticker_string (ticker : pyval) : result (option bool) :=
  if negb (truthy ticker) then Ok None
  else
    match ticker with
    | VStr s => Ok (Some (re_match re_ticker s))
    | _ => Raise TypeError
    end.

(** [is_valid_namebase_string_name(realm_or_subrealm_name)] *)
Definition is_valid_namebase_string_name (name : pyval) : bool :=
  if negb (truthy name) then false
  else
    match name with
    | VStr s =>
        if (64 <? Str.len s)%nat || (Str.len s <=? 0)%nat then false
        else if bool_decide (Str.head s = Some "-"%char) then false
        else if bool_decide (Str.last s = Some "-"%char) then false
        else true
    | _ => false
    end.

Definition str_of (v : pyval) : string :=
  match v with VStr s => s | _ => EmptyString end.

(** [is_valid_realm_string_name(realm_name)] *)
Definition is_valid_realm_string_name (realm_name : pyval) : bool :=
  if negb (is_valid_namebase_string_name realm_name) then false
  else re_match re_realm (str_of realm_name).

(** [is_valid_subrealm_string_name(subrealm_name)] *)
Definition is_valid_subrealm_string_name (subrealm_name : pyval) : bool :=
  if negb (is_valid_namebase_string_name subrealm_name) then false
  else re_match re_subrealm (str_of subrealm_name).

(** [is_valid_container_string_name(container_name)] *)
Definition is_valid_container_string_name (container_name : pyval) : bool :=
  if negb (is_valid_namebase_string_name container_name) then false
  else re_match re_subrealm (str_of container_name).

(** ** Script tokenizer *)

(** Modelled from the spec: the opcode table [electrumx.lib.script.OpCodes]
    is not among the sources.  The opcodes the spec names ([OP_IF],
    [OP_ENDIF], [OP_PUSHDATA1/2/4]) carry their Bitcoin script values. *)
Module OpCodes.
Definition OP_PUSHDATA1 : N := 76.
Definition OP_PUSHDATA2 : N := 77.
Definition OP_PUSHDATA4 : N := 78.
Definition OP_IF : N := 99.
Definition OP_ENDIF : N := 104.
End OpCodes.

Definition ATOMICALS_ENVELOPE_MARKER_BYTES : string := "0461746f6d".

(** [parse_push_data(op, n, script)], returning [(data, n + dlen, dlen)]. *)
Definition parse_push_data (op : N) (n : nat) (script : list byte) : result (list byte * nat * nat) :=
  if (op <=? OpCodes.OP_PUSHDATA4)%N then
    let* (dlen, n) :=
      if (op <? OpCodes.OP_PUSHDATA1)%N then Ok (N.to_nat op, n)
      else if (op =? OpCodes.OP_PUSHDATA1)%N then
        let* d := byte_at script n in Ok (N.to_nat d, (n + 1)%nat)
      else if (op =? OpCodes.OP_PUSHDATA2)%N then
        let* d := unpack_le_uint16_from (slice script n (n + 2)) in
        Ok (Z.to_nat d, (n + 2)%nat)
      else
        let* d := unpack_le_uint32_from (slice script n (n + 4)) in
        Ok (Z.to_nat d, (n + 4)%nat) in
    if (length script <? n + dlen)%nat then Raise IndexError
    else Ok (slice script n (n + dlen), (n + dlen)%nat, dlen)
  else Raise UnboundLocalError.

(** The [while n < script_entry_len] loop of
    [parse_atomicals_data_definition_operation].  Every turn advances [n],
    so [fuel] turns suffice when [fuel] is the script length. *)
Fixpoint data_definition_loop (fuel : nat) (script : list byte) (n : nat) (acc : list byte) : result (list byte) :=
  match fuel with
  | O => Ok acc
  | S fuel' =>
      if (n <? length script)%nat then
        let* op := byte_at script n in
        let n := (n + 1)%nat in
        if (op =? OpCodes.OP_ENDIF)%N then Ok acc
        else if (op <=? OpCodes.OP_PUSHDATA4)%N then
          let* (data, n', _) := parse_push_data op n script in
          data_definition_loop fuel' script n' (acc ++ data)
        else data_definition_loop fuel' script n acc
      else Ok acc
  end.

(** [parse_atomicals_data_definition_operation(script, n)]: whatever is
    raised inside is raised again as a [ScriptError]. *)
Definition parse_atomicals_data_definition_operation (script : list byte) (n : nat) : result (list byte) :=
  match data_definition_loop (length script) script n [] with
  | Ok acc => Ok acc
  | Raise _ => Raise ScriptError
  end.

(** The opcode tables of [parse_operation_from_script]. *)
Definition three_letter_op (atom_op : string) : option string :=
  if String.eqb atom_op "036e6674" then Some "nft"
  else if String.eqb atom_op "03646674" then Some "dft"
  else if String.eqb atom_op "036d6f64" then Some "mod"
  else if String.eqb atom_op "03657674" then Some "evt"
  else if String.eqb atom_op "03646d74" then Some "dmt"
  else if String.eqb atom_op "03646174" then Some "dat"
  else None.

Definition two_letter_op (atom_op : string) : option string :=
  if String.eqb atom_op "026674" then Some "ft"
  else if String.eqb atom_op "02736c" then Some "sl"
  else None.

Definition one_letter_op (atom_op : string) : option string :=
  if String.eqb atom_op "0178" then Some "x"
  else if String.eqb atom_op "0179" then Some "y"
  else None.

(** One of the three length-specific attempts of
    [parse_operation_from_script]: [None] when it does not apply. *)
Definition try_op_len (script : list byte) (n op_len : nat) (table : string -> option string) : option (string * nat) :=
  if (n + op_len <? length script)%nat then
    match table (bytes_hex (slice script n (n + op_len))) with
    | Some atom_op_decoded => Some (atom_op_decoded, (n + op_len)%nat)
    | None => None
    end
  else None.

(** The opcode [parse_operation_from_script] decodes at [n], with the
    position where its payload starts: three letters first, then two, then
    one. *)
Definition locate_operation (script : list byte) (n : nat) : option (string * nat) :=
  let one_letter_op_len := 2%nat in
  let two_letter_op_len := 3%nat in
  let three_letter_op_len := 4%nat in
  match try_op_len script n three_letter_op_len three_letter_op with
  | Some r => Some r
  | None =>
      match try_op_len script n two_letter_op_len two_letter_op with
      | Some r => Some r
      | None => try_op_len script n one_letter_op_len one_letter_op
      end
  end.

(** [parse_operation_from_script(script, n)]; [Ok None] is [(None, None)]. *)
Definition parse_operation_from_script (script : list byte) (n : nat) : result (option (string * list byte)) :=
  match locate_operation script n with
  | Some (atom_op_decoded, start) =>
      let* payload := parse_atomicals_data_definition_operation script start in
      Ok (Some (atom_op_decoded, payload))
  | None => Ok None
  end.

(** What a scanning loop of
    [parse_protocols_operations_from_witness_for_input] leaves behind:
    the function returned, or the loop ended at position [n]. *)
Inductive scan : Type :=
  | Return (operation_type : string) (payload : list byte)
  | Continue (n : nat) (found_operation_definition : bool).

(** The inner [while n < script_entry_len - 5] loop: it looks for the next
    [OP_IF] and ends there, whether or not the envelope marker follows. *)
Fixpoint envelope_loop (fuel : nat) (script : list byte) (n : nat) : result scan :=
  match fuel with
  | O => Ok (Continue n false)
  | S fuel' =>
      if (n <? length script - 5)%nat then
        let* op := byte_at script n in
        let n := (n + 1)%nat in
        if (op =? OpCodes.OP_IF)%N then
          if String.eqb ATOMICALS_ENVELOPE_MARKER_BYTES (bytes_hex (slice script n (n + 5))) then
            let* r := parse_operation_from_script script (n + 5) in
            match r with
            | Some (operation_type, payload) => Ok (Return operation_type payload)
            | None => Ok (Continue n true)
            end
          else Ok (Continue n false)
        else envelope_loop fuel' script n
      else Ok (Continue n false)
  end.

(** The outer [while n < script_entry_len - 5] loop: a 32-byte push, then
    the inner loop. *)
Fixpoint pubkey_loop (fuel : nat) (script : list byte) (n : nat) : result (option (string * list byte)) :=
  match fuel with
  | O => Ok None
  | S fuel' =>
      if (n <? length script - 5)%nat then
        let* op := byte_at script n in
        let n := (n + 1)%nat in
        if (op =? 32)%N && (n + 32 <=? length script)%nat then
          let n := (n + 32)%nat in
          let* r := envelope_loop (length script) script n in
          match r with
          | Return operation_type payload => Ok (Some (operation_type, payload))
          | Continue n found_operation_definition =>
              if found_operation_definition then Ok None
              else pubkey_loop fuel' script n
          end
        else Ok None
      else Ok None
  end.

(** [parse_protocols_operations_from_witness_for_input(txinwitness)];
    [Ok None] is [(None, None)]. *)
Fixpoint parse_protocols_operations_from_witness_for_input (txinwitness : list (list byte)) : result (option (string * list byte)) :=
  match txinwitness with
  | [] => Ok None
  | script :: rest =>
      if (length script <? 39)%nat
         || negb (match script with b :: _ => (byte_val b =? 32)%N | [] => false end)
      then parse_protocols_operations_from_witness_for_input rest
      else
        let* r := pubkey_loop (length script) script 0 in
        match r with
        | Some found => Ok (Some found)
        | None => parse_protocols_operations_from_witness_for_input rest
        end
  end.

(** ** Transactions *)

Record TxInput : Type := {
  prev_hash : list byte;
  prev_idx : Z
}.

Record TxOutput : Type := {
  value : Z;
  pk_script : list byte
}.

(** [witness] is [None] for a transaction object without that attribute. *)
Record Tx : Type := {
  inputs : list TxInput;
  outputs : list TxOutput;
  witness : option (list (list (list byte)))
}.

(** The operation struct [parse_protocols_operations_from_witness_array]
    returns. *)
Record op_found : Type := {
  op : string;
  payload : list (string * pyval);
  payload_bytes : list byte;
  input_index : nat;
  commit_txid : list byte;
  commit_index : Z;
  commit_location : list byte;
  reveal_location_txid : list byte;
  reveal_location_index : Z
}.

(** The three results of the array parser: [{}], [None], or a struct. *)
Inductive array_result : Type :=
  | EmptyDict
  | NoOperation
  | Operation (s : op_found).

Section WitnessArray.

(** [cbor2.loads], an external library; [None] when it raises. *)
Variable loads : list byte -> option pyval.

(** The sanitizing condition on a decoded dict ([True]: skip the input). *)
Definition payload_not_permitted (decoded_object : list (string * pyval)) : bool :=
  negb (is_sanitized_dict_whitelist_only (dict_get_or_empty decoded_object "meta") false)
  || negb (is_sanitized_dict_whitelist_only (dict_get_or_empty decoded_object "args") false)
  || negb (is_sanitized_dict_whitelist_only (dict_get_or_empty decoded_object "ctx") false)
  || negb (is_sanitized_dict_whitelist_only (dict_get_or_empty decoded_object "init") true).

(** The [for txinwitness in tx.witness] loop.  [txin_idx] is advanced only
    by the last statement of the body, which a [continue] skips. *)
Fixpoint witness_array_loop (tx : Tx) (tx_hash : list byte) (ws : list (list (list byte))) (txin_idx : nat) : result array_result :=
  match ws with
  | [] => Ok NoOperation
  | txinwitness :: rest =>
      let* found := parse_protocols_operations_from_witness_for_input txinwitness in
      match found with
      | None => witness_array_loop tx tx_hash rest txin_idx
      | Some (op_name, payload) =>
          match payload with
          | [] => witness_array_loop tx tx_hash rest (txin_idx + 1)
          | _ :: _ =>
              match loads payload with
              | Some (VDict decoded_object) =>
                  if payload_not_permitted decoded_object
                  then witness_array_loop tx tx_hash rest txin_idx
                  else
                    match inputs tx !! txin_idx with
                    | None => Raise IndexError
                    | Some associated_txin =>
                        let prev_tx_hash := prev_hash associated_txin in
                        let prev_idx := prev_idx associated_txin in
                        let* packed := pack_le_uint32 prev_idx in
                        Ok (Operation {|
                          op := op_name;
                          payload := decoded_object;
                          payload_bytes := payload;
                          input_index := txin_idx;
                          commit_txid := prev_tx_hash;
                          commit_index := prev_idx;
                          commit_location := prev_tx_hash ++ packed;
                          reveal_location_txid := tx_hash;
                          reveal_location_index := 0
                        |})
                    end
              | _ => witness_array_loop tx tx_hash rest txin_idx
              end
          end
      end
  end.

(** [parse_protocols_operations_from_witness_array(tx, tx_hash)] *)
Definition parse_protocols_operations_from_witness_array (tx : Tx) (tx_hash : list byte) : result array_result :=
  match witness tx with
  | None => Ok EmptyDict
  | Some ws => witness_array_loop tx tx_hash ws 0
  end.

End WitnessArray.

(** ** Fungible-token output colouring *)

(** The stored mint record, as far as the distributor reads it. *)
Record ft_mint_info : Type := {
  mi_type : string;
  mi_value : Z
}.

(** The variables the output loop updates. *)
Record ft_state : Type := {
  expected_output_indexes : list nat;
  remaining_value : Z;
  total_skipped_so_far : Z
}.

(** The [for out_idx, txout in enumerate(tx.outputs)] loop. *)
Fixpoint ft_output_loop (total_amount_to_skip : Z) (outs : list TxOutput) (out_idx : nat) (st : ft_state) : ft_state :=
  match outs with
  | [] => st
  | txout :: rest =>
      if (total_amount_to_skip >? 0)%Z
         && (total_skipped_so_far st <? total_amount_to_skip)%Z
      then
        ft_output_loop total_amount_to_skip rest (S out_idx)
          {| expected_output_indexes := expected_output_indexes st;
             remaining_value := remaining_value st;
             total_skipped_so_far := (total_skipped_so_far st + value txout)%Z |}
      else if (value txout <=? remaining_value st)%Z then
        ft_output_loop total_amount_to_skip rest (S out_idx)
          {| expected_output_indexes := expected_output_indexes st ++ [out_idx];
             remaining_value := (remaining_value st - value txout)%Z;
             total_skipped_so_far := total_skipped_so_far st |}
      else st
  end.

(** The skip amount a [y] operation at input 0 grants to this atomical. *)
Definition ft_total_amount_to_skip (compact_atomical_id : string) (atomicals_operations_found : option op_found) : Z :=
  match atomicals_operations_found with
  | Some ops =>
      if String.eqb (op ops) "y" && (input_index ops =? 0)%nat
         && truthy (VDict (payload ops))
         && truthy_opt (dict_get (payload ops) compact_atomical_id)
      then
        match dict_get (payload ops) compact_atomical_id with
        | Some total_amount_to_skip_potential =>
            match as_int total_amount_to_skip_potential with
            | Some z => if (z >=? 0)%Z then z else 0%Z
            | None => 0%Z
            end
        | None => 0%Z
        end
      else 0%Z
  | None => 0%Z
  end.

(** The state in which the output loop of
    [get_expected_output_indexes_of_atomical_ft] ends. *)
Definition ft_final_state (mint_info : ft_mint_info) (tx : Tx) (atomical_id : list byte) (atomicals_operations_found : option op_found) : result ft_state :=
  if negb (String.eqb (mi_type mint_info) "FT") then Raise AssertionError
  else
    let* compact_atomical_id := location_id_bytes_to_compact atomical_id in
    let total_amount_to_skip :=
      ft_total_amount_to_skip compact_atomical_id atomicals_operations_found in
    Ok (ft_output_loop total_amount_to_skip (outputs tx) 0
          {| expected_output_indexes := [];
             remaining_value := mi_value mint_info;
             total_skipped_so_far := 0 |}).

(** [get_expected_output_indexes_of_atomical_ft(mint_info, tx, atomical_id,
    atomicals_operations_found)] *)
Definition get_expected_output_indexes_of_atomical_ft (mint_info : ft_mint_info) (tx : Tx) (atomical_id : list byte) (atomicals_operations_found : option op_found) : result (list nat) :=
  let* st := ft_final_state mint_info tx atomical_id atomicals_operations_found in
  Ok (expected_output_indexes st).

(** ** Subrealm rule history *)

Definition MINT_GENERAL_COMMIT_REVEAL_DELAY_BLOCKS : Z := 100.
Definition MINT_REALM_CONTAINER_TICKER_COMMIT_REVEAL_DELAY_BLOCKS : Z := 3.
Definition MINT_SUBREALM_COMMIT_PAYMENT_DELAY_BLOCKS : Z := 15.
Definition MINT_SUBREALM_RULES_BECOME_EFFECTIVE_IN_BLOCKS : Z := 3.

(** One update of the rules path: a dict with the keys [height], [tx_num],
    [txid] and [data]; such a dict is never empty, hence always truthy. *)
Record modpath_item : Type := {
  height : Z;
  tx_num : Z;
  txid : list byte;
  data : pyval
}.

(** The variables of the collapsing loop. *)
Record collapse_state : Type := {
  collapsed : gmap Z modpath_item;
  prev_height : Z;
  prev_tx_num : Z
}.

(** One turn of the loop: [m[h] = m.get(h) or item], then the two
    assertions. *)
Definition collapse_step (st : collapse_state) (item : modpath_item) : result collapse_state :=
  let m :=
    <[ height item :=
         match collapsed st !! height item with
         | Some kept => kept
         | None => item
         end ]> (collapsed st) in
  if negb (height item <=? prev_height st)%Z then Raise AssertionError
  else if negb (tx_num item <? prev_tx_num st)%Z then Raise AssertionError
  else Ok {| collapsed := m; prev_height := height item; prev_tx_num := tx_num item |}.

Fixpoint collapse_loop (history : list modpath_item) (st : collapse_state) : result collapse_state :=
  match history with
  | [] => Ok st
  | item :: rest =>
      let* st' := collapse_step st item in
      collapse_loop rest st'
  end.

(** [create_collapsed_height_to_mod_path_history_items_map(history)] *)
Definition create_collapsed_height_to_mod_path_history_items_map (subrealm_mint_modpath_history : list modpath_item) : result (gmap Z modpath_item) :=
  let* st := collapse_loop subrealm_mint_modpath_history
               {| collapsed := ∅; prev_height := 99999999999; prev_tx_num := 99999999999 |} in
  Ok (collapsed st).

(** ** Name candidate arbitration *)

(** [is_within_acceptable_blocks_for_general_reveal] *)
Definition is_within_acceptable_blocks_for_general_reveal (commit_height reveal_location_height : Z) : bool :=
  (commit_height >=? reveal_location_height - MINT_GENERAL_COMMIT_REVEAL_DELAY_BLOCKS)%Z.

(** [is_within_acceptable_blocks_for_name_reveal] *)
Definition is_within_acceptable_blocks_for_name_reveal (commit_height reveal_location_height : Z) : bool :=
  (commit_height >=? reveal_location_height - MINT_REALM_CONTAINER_TICKER_COMMIT_REVEAL_DELAY_BLOCKS)%Z.

(** [is_within_acceptable_blocks_for_subrealm_payment] *)
Definition is_within_acceptable_blocks_for_subrealm_payment (commit_height current_height : Z) : bool :=
  (current_height <=? commit_height + MINT_SUBREALM_COMMIT_PAYMENT_DELAY_BLOCKS)%Z.

Record candidate_mint_info : Type := {
  cmi_commit_height : Z;
  cmi_reveal_location_height : Z
}.

(** An entry of [$subrealm_candidates].  [None] in [cand_applicable_rule]
    and [cand_payment] stands for a missing key or the value [None]. *)
Record subrealm_candidate : Type := {
  cand_atomical_id : string;
  cand_payment_type : string;
  cand_applicable_rule : option pyval;
  cand_payment : option pyval;
  cand_payment_due_no_later_than_height : Z;
  cand_commit_height : Z
}.

Record atomical_info : Type := {
  ai_mint_info : candidate_mint_info;
  ai_atomical_id : list byte;
  ai_subrealm_candidates : list subrealm_candidate
}.

(** A returned status dict, as its items. *)
Definition status_dict : Type := list (string * pyval).

Definition status_of (d : status_dict) : option pyval := dict_get d "status".

(** [d['status'] == s] *)
Definition status_is (d : status_dict) (s : string) : bool :=
  match status_of d with
  | Some (VStr t) => String.eqb t s
  | _ => false
  end.

Definition is_none {A : Type} (o : option A) : bool :=
  match o with None => true | Some _ => false end.

Definition opt_str (o : option string) : pyval :=
  match o with
  | Some s => VStr s
  | None => VNone
  end.

(** [candidate_id_compact]: the compact form of a non-empty candidate id. *)
Definition compact_of_candidate (candidate_id : option (list byte)) : result (option string) :=
  match candidate_id with
  | Some (b :: bs) =>
      let* c := location_id_bytes_to_compact (b :: bs) in Ok (Some c)
  | _ => Ok None
  end.

Definition same_id (atomical_id : list byte) (candidate_id : option (list byte)) : bool :=
  bool_decide (Some atomical_id = candidate_id).

(** [get_name_request_candidate_status(current_height, atomical_info,
    status, candidate_id, name_type)] *)
Definition get_name_request_candidate_status (current_height : Z) (info : atomical_info) (status : string) (candidate_id : option (list byte)) (name_type : string) : result status_dict :=
  let MAX_BLOCKS_STR := py_str MINT_REALM_CONTAINER_TICKER_COMMIT_REVEAL_DELAY_BLOCKS in
  let mint_info := ai_mint_info info in
  if negb (is_within_acceptable_blocks_for_name_reveal
             (cmi_commit_height mint_info) (cmi_reveal_location_height mint_info))
  then
    Ok [("status", VStr "expired_revealed_late");
        ("note", VStr ("The maximum number of blocks between commit and reveal is "
                       +:+ MAX_BLOCKS_STR +:+ " blocks"))]
  else
    let* candidate_id_compact := compact_of_candidate candidate_id in
    if String.eqb status "verified" then
      if same_id (ai_atomical_id info) candidate_id then
        Ok [("status", VStr "verified");
            ("verified_atomical_id", opt_str candidate_id_compact);
            ("note", VStr ("Successfully verified and claimed " +:+ name_type
                           +:+ " for current Atomical"))]
      else
        Ok [("status", VStr "claimed_by_other");
            ("claimed_by_atomical_id", opt_str candidate_id_compact);
            ("note", VStr ("Failed to claim " +:+ name_type
                           +:+ " for current Atomical because it was claimed first by another Atomical"))]
    else if negb (String.eqb name_type "subrealm") && String.eqb status "pending" then
      if same_id (ai_atomical_id info) candidate_id then
        Ok [("status", VStr "pending_candidate");
            ("pending_candidate_atomical_id", opt_str candidate_id_compact);
            ("note", VStr ("The current Atomical is the leading candidate for the "
                           +:+ name_type +:+ ". Wait the " +:+ MAX_BLOCKS_STR
                           +:+ " blocks after commit to achieve confirmation"))]
      else
        Ok [("status", VStr "pending_claimed_by_other");
            ("pending_claimed_by_atomical_id", opt_str candidate_id_compact);
            ("note", VStr ("Failed to claim " +:+ name_type
                           +:+ " for current Atomical because it was claimed first by another Atomical"))]
    else
      Ok [("status", VStr status);
          ("pending_candidate_atomical_id", opt_str candidate_id_compact)].

(** The search loop of [get_subrealm_request_candidate_status]: the first
    candidate whose id is the compact id of the atomical. *)
Fixpoint find_current_candidate (own_compact : string) (candidates : list subrealm_candidate) : option subrealm_candidate :=
  match candidates with
  | [] => None
  | candidate :: rest =>
      if negb (String.eqb (cand_atomical_id candidate) own_compact)
      then find_current_candidate own_compact rest
      else Some candidate
  end.

(** [get_subrealm_request_candidate_status(current_height, atomical_info,
    status, candidate_id)] *)
Definition get_subrealm_request_candidate_status (current_height : Z) (info : atomical_info) (status : string) (candidate_id : option (list byte)) : result status_dict :=
  let MAX_BLOCKS_STR := py_str MINT_REALM_CONTAINER_TICKER_COMMIT_REVEAL_DELAY_BLOCKS in
  let* base_status := get_name_request_candidate_status current_height info status candidate_id "subrealm" in
  if status_is base_status "expired_revealed_late"
     || status_is base_status "verified"
  then Ok base_status
  else
    let* candidate_id_compact := compact_of_candidate candidate_id in
    let* current :=
      match ai_subrealm_candidates info with
      | [] => Ok None
      | _ :: _ =>
          let* own_compact := location_id_bytes_to_compact (ai_atomical_id info) in
          Ok (find_current_candidate own_compact (ai_subrealm_candidates info))
      end in
    match current with
    | None => Raise TypeError
    | Some candidate =>
        let by_rule := String.eqb (cand_payment_type candidate) "applicable_rule" in
        if by_rule && is_none (cand_applicable_rule candidate) then
          Ok [("status", VStr "invalid_request_subrealm_no_matched_applicable_rule")]
        else if String.eqb status "verified" then
          if same_id (ai_atomical_id info) candidate_id then
            Ok [("status", VStr "verified");
                ("verified_atomical_id", opt_str candidate_id_compact);
                ("note", VStr "Successfully verified and claimed subrealm for current Atomical")]
          else
            Ok [("status", VStr "claimed_by_other");
                ("claimed_by_atomical_id", opt_str candidate_id_compact);
                ("note", VStr "Failed to claim subrealm for current Atomical because it was claimed first by another Atomical")]
        else if by_rule && is_none (cand_payment candidate)
                && (current_height >? cand_payment_due_no_later_than_height candidate)%Z then
          Ok [("status", VStr "expired_payment_not_received");
              ("note", VStr "A valid payment was not received before the 'payment_due_no_later_than_height' limit")]
        else
          let fallthrough :=
            Ok [("status", VStr status);
                ("pending_candidate_atomical_id", opt_str candidate_id_compact)] in
          if (current_height <? cand_commit_height candidate
                + MINT_REALM_CONTAINER_TICKER_COMMIT_REVEAL_DELAY_BLOCKS)%Z then
            if by_rule && truthy_opt (cand_payment candidate) then
              Ok [("status", VStr "pending_awaiting_confirmations_payment_received_prematurely");
                  ("pending_candidate_atomical_id", opt_str candidate_id_compact);
                  ("note", VStr ("A payment was received, but the minimum delay of "
                                 +:+ MAX_BLOCKS_STR +:+ " blocks has not yet elapsed to declare a winner"))]
            else if by_rule then
              Ok [("status", VStr "pending_awaiting_confirmations_for_payment_window");
                  ("pending_candidate_atomical_id", opt_str candidate_id_compact);
                  ("note", VStr "Await until the 'make_payment_from_height' block height for the payment window to be open with status 'pending_awaiting_payment'")]
            else if String.eqb (cand_payment_type candidate) "parent_initiated" then
              Ok [("status", VStr "pending_awaiting_confirmations");
                  ("pending_candidate_atomical_id", opt_str candidate_id_compact);
                  ("note", VStr ("Await " +:+ MAX_BLOCKS_STR +:+ " blocks has elapsed to verify"))]
            else fallthrough
          else if String.eqb status "pending_awaiting_payment"
                  && same_id (ai_atomical_id info) candidate_id then
            Ok [("status", VStr status);
                ("pending_candidate_atomical_id", opt_str candidate_id_compact);
                ("note", VStr ("The payment must be received by block height "
                               +:+ py_str (cand_payment_due_no_later_than_height candidate)
                               +:+ " to claim successfully"))]
          else if String.eqb status "pending_awaiting_payment" then
            Ok [("status", VStr status);
                ("pending_candidate_atomical_id", opt_str candidate_id_compact);
                ("note", VStr ("Another Atomical is the leading candidate and they have until block height "
                               +:+ py_str (cand_payment_due_no_later_than_height candidate)
                               +:+ " to claim successfully."))]
          else fallthrough
    end.

(** ** Mint information *)

Definition DFT_MINT_AMOUNT_MIN : Z := 546.
Definition DFT_MINT_AMOUNT_MAX : Z := 100000000.
Definition DFT_MINT_MAX_MIN_COUNT : Z := 1.
Definition DFT_MINT_MAX_MAX_COUNT : Z := 100000.
Definition DFT_MINT_HEIGHT_MIN : Z := 0.
Definition DFT_MINT_HEIGHT_MAX : Z := 10000000.

(** [d[k] = v]: an existing key keeps its place, a new one goes last. *)
Fixpoint dict_set {V : Type} (d : list (string * V)) (k : string) (v : V) : list (string * V) :=
  match d with
  | [] => [(k, v)]
  | (k', v') :: rest =>
      if String.eqb k' k then (k, v) :: rest else (k', v') :: dict_set rest k v
  end.

(** [s.lower()], for code points below 256. *)
Definition lower_char (c : ascii) : ascii :=
  let n := Str.code c in
  if ((65 <=? n)%N && (n <=? 90)%N)
     || ((192 <=? n)%N && (n <=? 222)%N && negb (n =? 215)%N)
  then ascii_of_N (n + 32) else c.

Fixpoint py_lower (s : string) : string :=
  match s with
  | EmptyString => EmptyString
  | String c s' => String (lower_char c) (py_lower s')
  end.

(** A record of [atomicals_spent_at_inputs]: the id and the stored value
    bytes. *)
Record spent_entry : Type := {
  se_atomical_id : list byte;
  se_value : list byte
}.

(** The result of [has_requested_proof_of_work]. *)
Record pow_result : Type := {
  request_pow_commit : option pyval;
  request_pow_reveal : option pyval;
  pow_commit : option pyval;
  pow_reveal : option pyval
}.

(** One of the two bitwork checks of [has_requested_proof_of_work]:
    [Ok true] when the requested work is valid and matched. *)
Definition bitwork_matches (request : pyval) (tx_id : list byte) : result bool :=
  match is_valid_bitwork_string request with
  | Some (_, bitwork_parts) =>
      is_proof_of_work_prefix_match tx_id (bw_prefix bitwork_parts) (bw_ext bitwork_parts)
  | None => Ok false
  end.

(** [has_requested_proof_of_work(operations_found_at_inputs)] *)
Definition has_requested_proof_of_work (ops : option op_found) : result (bool * option pow_result) :=
  match ops with
  | None => Ok (false, None)
  | Some ops =>
      match dict_get (payload ops) "args" with
      | Some (VDict args) =>
          let request_pow_commit := dict_get args "bitworkc" in
          let request_pow_reveal := dict_get args "bitworkr" in
          let* commit_ok :=
            match request_pow_commit with
            | Some r => if truthy r then bitwork_matches r (commit_txid ops) else Ok true
            | None => Ok true
            end in
          if negb commit_ok then Ok (true, None)
          else
            let* reveal_ok :=
              match request_pow_reveal with
              | Some r => if truthy r then bitwork_matches r (reveal_location_txid ops) else Ok true
              | None => Ok true
              end in
            if negb reveal_ok then Ok (true, None)
            else
              Ok (true, Some {|
                request_pow_commit := request_pow_commit;
                request_pow_reveal := request_pow_reveal;
                pow_commit := if truthy_opt request_pow_commit then request_pow_commit else None;
                pow_reveal := if truthy_opt request_pow_reveal then request_pow_reveal else None
              |})
      | _ => Ok (false, None)
      end
  end.

Section MintInfo.

(** [coin.hashX_from_script], [double_sha256] and the [krock32] encoder
    come from outside the module. *)
Variable hashX_from_script : list byte -> list byte.
Variable double_sha256 : list byte -> list byte.
Variable krock32_encode : list byte -> string.

(** The lengths of the two hash fields that precede the value in a stored
    record; the module uses the names without defining them. *)
Variable HASHX_LEN : nat.
Variable SCRIPTHASH_LEN : nat.

(** The body of the inner loop of [get_if_parent_spent_in_same_tx]. *)
Definition parent_spent_step (parent_atomical_id : list byte) (id_to_total_value_map : gmap (list byte) Z) (atomical_entry : spent_entry) : result (gmap (list byte) Z) :=
  let atomical_id := se_atomical_id atomical_entry in
  if negb (bool_decide (atomical_id = parent_atomical_id)) then Ok id_to_total_value_map
  else
    let so_far :=
      match id_to_total_value_map !! atomical_id with
      | Some total => total
      | None => 0%Z
      end in
    let* input_value :=
      unpack_le_uint64
        (slice (se_value atomical_entry)
           (HASHX_LEN + SCRIPTHASH_LEN) (HASHX_LEN + SCRIPTHASH_LEN + 8)) in
    Ok (<[ atomical_id := (so_far + input_value)%Z ]> id_to_total_value_map).

Fixpoint parent_spent_entries (parent_atomical_id : list byte) (m : gmap (list byte) Z) (atomical_entry_list : list spent_entry) : result (gmap (list byte) Z) :=
  match atomical_entry_list with
  | [] => Ok m
  | atomical_entry :: rest =>
      let* m' := parent_spent_step parent_atomical_id m atomical_entry in
      parent_spent_entries parent_atomical_id m' rest
  end.

Fixpoint parent_spent_inputs (parent_atomical_id : list byte) (m : gmap (list byte) Z) (spent : list (nat * list spent_entry)) : result (gmap (list byte) Z) :=
  match spent with
  | [] => Ok m
  | (_, atomical_entry_list) :: rest =>
      let* m' := parent_spent_entries parent_atomical_id m atomical_entry_list in
      parent_spent_inputs parent_atomical_id m' rest
  end.

(** [get_if_parent_spent_in_same_tx(parent_atomical_id_compact,
    expected_minimum_total_value, atomicals_spent_at_inputs)] *)
Definition get_if_parent_spent_in_same_tx (parent_atomical_id_compact : string) (expected_minimum_total_value : Z) (atomicals_spent_at_inputs : list (nat * list spent_entry)) : result bool :=
  let* parent_atomical_id := compact_to_location_id_bytes parent_atomical_id_compact in
  let* id_to_total_value_map := parent_spent_inputs parent_atomical_id ∅ atomicals_spent_at_inputs in
  match id_to_total_value_map !! parent_atomical_id with
  | None => Ok false
  | Some total_sum => Ok (total_sum >=? expected_minimum_total_value)%Z
  end.

(** [build_base_mint_info], with the fields of the returned dict. *)
Definition build_base_mint_info (tx : Tx) (commit_txid : list byte) (commit_index : Z) (reveal_location_txid : list byte) (reveal_location_index : Z) : result (list (string * pyval)) :=
  match outputs tx !! 0%nat with
  | None => Raise IndexError
  | Some txout =>
      let scripthash := double_sha256 (pk_script txout) in
      let hashX := hashX_from_script (pk_script txout) in
      let* output_idx_le := pack_le_uint32 0 in
      let* commit_index_le := pack_le_uint32 commit_index in
      let atomical_id := commit_txid ++ commit_index_le in
      let* reveal_index_le := pack_le_uint32 reveal_location_index in
      let location := reveal_location_txid ++ reveal_index_le in
      let* value_sats := pack_le_uint64 (value txout) in
      let atomical_ref :=
        py_lower (krock32_encode (rev commit_txid) +:+ "i" +:+ py_str 0) in
      Ok [("id", VBytes atomical_id);
          ("ref", VStr atomical_ref);
          ("atomical_id", VBytes atomical_id);
          ("commit_txid", VBytes commit_txid);
          ("commit_index", VInt commit_index);
          ("commit_location", VBytes (commit_txid ++ commit_index_le));
          ("reveal_location_txid", VBytes reveal_location_txid);
          ("reveal_location_index", VInt reveal_location_index);
          ("reveal_location", VBytes location);
          ("reveal_location_scripthash", VBytes scripthash);
          ("reveal_location_hashX", VBytes hashX);
          ("reveal_location_value", VInt (value txout));
          ("reveal_location_script", VBytes (pk_script txout))]
  end.

(** [populate_args_meta_ctx_init]: [None] where the source returns
    [False], otherwise the updated [mint_info]. *)
Definition populate_args_meta_ctx_init (mint_info : list (string * pyval)) (op_found_payload : list (string * pyval)) : option (list (string * pyval)) :=
  let meta := dict_get_or_empty op_found_payload "meta" in
  if negb (is_dict meta) then None
  else
    let args := dict_get_or_empty op_found_payload "args" in
    if negb (is_dict args) then None
    else
      let ctx := dict_get_or_empty op_found_payload "ctx" in
      if negb (is_dict ctx) then None
      else
        let init := dict_get_or_empty op_found_payload "init" in
        if negb (is_dict init) then None
        else
          Some (dict_set (dict_set (dict_set (dict_set mint_info
                  "args" args) "ctx" ctx) "meta" meta) "init" init).

(** The dict stored under ['args'] of [mint_info]. *)
Definition args_of (mint_info : list (string * pyval)) : list (string * pyval) :=
  match dict_get mint_info "args" with
  | Some (VDict args) => args
  | _ => []
  end.

(** The counting of the requested name types: the counter and
    [is_name_type_require_bitwork]. *)
Definition requested_names (args : list (string * pyval)) : nat * bool :=
  let realm := truthy_opt (dict_get args "request_realm") in
  let subrealm := truthy_opt (dict_get args "request_subrealm") in
  let container := truthy_opt (dict_get args "request_container") in
  let ticker := truthy_opt (dict_get args "request_ticker") in
  ((if realm then 1 else 0) + (if subrealm then 1 else 0)
   + (if container then 1 else 0) + (if ticker then 1 else 0),
   realm || container || ticker).

(** The [for parent_atomical_id, value in parents_enforced.items()] loop:
    [Ok false] where the source returns [None, None]. *)
Fixpoint parents_loop (entries : list (string * pyval)) (atomicals_spent_at_inputs : list (nat * list spent_entry)) : result bool :=
  match entries with
  | [] => Ok true
  | (parent_atomical_id, value) :: rest =>
      let* is_compact := is_compact_atomical_id (VStr parent_atomical_id) in
      if negb is_compact then Ok false
      else
        match as_int value with
        | None => Ok false
        | Some v =>
            if (v <? 0)%Z then Ok false
            else
              let* found_parent :=
                get_if_parent_spent_in_same_tx parent_atomical_id v atomicals_spent_at_inputs in
              if negb found_parent then Ok false
              else parents_loop rest atomicals_spent_at_inputs
        end
  end.

(** The block "Enforce that parents must be included": [Ok None] where the
    source returns [None, None], otherwise the updated [mint_info]. *)
Definition parents_gate (mint_info : list (string * pyval)) (atomicals_spent_at_inputs : option (list (nat * list spent_entry))) : result (option (list (string * pyval))) :=
  let parents_enforced := dict_get (args_of mint_info) "parents" in
  if truthy_opt parents_enforced then
    match parents_enforced with
    | Some (VDict entries) =>
        if (length entries <? 1)%nat then Ok None
        else
          match atomicals_spent_at_inputs with
          | None | Some [] => Ok None
          | Some spent =>
              let* all_found := parents_loop entries spent in
              if all_found
              then Ok (Some (dict_set mint_info "$parents" (VDict entries)))
              else Ok None
          end
    | _ => Ok None
    end
  else Ok (Some mint_info).

(** The NFT branch of the type dispatch. *)
Definition nft_gate (mint_info : list (string * pyval)) : result (option (list (string * pyval))) :=
  let mint_info := dict_set mint_info "type" (VStr "NFT") in
  let args := args_of mint_info in
  match dict_get args "request_realm", dict_get args "request_subrealm",
        dict_get args "request_container" with
  | Some (VStr realm), _, _ =>
      if is_valid_realm_string_name (VStr realm)
      then Ok (Some (dict_set mint_info "$request_realm" (VStr realm)))
      else Ok None
  | _, Some (VStr subrealm), _ =>
      if is_valid_subrealm_string_name (VStr subrealm) then
        match dict_get args "claim_type" with
        | Some (VStr claim_type) =>
            if negb (String.eqb claim_type "direct") && negb (String.eqb claim_type "rule")
            then Ok None
            else
              match dict_get args "parent_realm" with
              | Some (VStr parent_realm_id_compact) =>
                  let* is_compact := is_compact_atomical_id (VStr parent_realm_id_compact) in
                  if negb is_compact then Ok None
                  else
                    Ok (Some (dict_set (dict_set mint_info
                                "$request_subrealm" (VStr subrealm))
                                "$parent_realm" (VStr parent_realm_id_compact)))
              | _ => Ok None
              end
        | _ => Ok None
        end
      else Ok None
  | _, _, Some (VStr container) =>
      if is_valid_container_string_name (VStr container)
      then Ok (Some (dict_set mint_info "$request_container" (VStr container)))
      else Ok None
  | _, _, _ => Ok (Some mint_info)
  end.

(** The ticker test shared by the two FT branches: the ticker when it is a
    string that [is_valid_ticker_string] accepts. *)
Definition requested_ticker (args : list (string * pyval)) : result (option string) :=
  match dict_get args "request_ticker" with
  | Some (VStr ticker) =>
      let* valid := is_valid_ticker_string (VStr ticker) in
      match valid with
      | Some true => Ok (Some ticker)
      | _ => Ok None
      end
  | _ => Ok None
  end.

(** The direct FT branch. *)
Definition ft_gate (mint_info : list (string * pyval)) : result (option (list (string * pyval))) :=
  let mint_info := dict_set (dict_set mint_info "type" (VStr "FT")) "subtype" (VStr "direct") in
  let* ticker := requested_ticker (args_of mint_info) in
  match ticker with
  | Some t => Ok (Some (dict_set mint_info "$request_ticker" (VStr t)))
  | None => Ok None
  end.

(** An argument that is an [int] within bounds: the argument itself. *)
Definition int_arg_within (args : list (string * pyval)) (k : string) (lo hi : Z) : option pyval :=
  match dict_get args k with
  | Some v =>
      match as_int v with
      | Some z => if (z <? lo)%Z || (z >? hi)%Z then None else Some v
      | None => None
      end
  | None => None
  end.

(** An optional bitwork argument stored under [target] when valid:
    [None] where the source returns [None, None]. *)
Definition bitwork_arg (mint_info : list (string * pyval)) (k target : string) : option (list (string * pyval)) :=
  match dict_get (args_of mint_info) k with
  | Some request =>
      if truthy request then
        match is_valid_bitwork_string request with
        | Some _ => Some (dict_set mint_info target request)
        | None => None
        end
      else Some mint_info
  | None => Some mint_info
  end.

(** The decentralized FT branch. *)
Definition dft_gate (mint_info : list (string * pyval)) : result (option (list (string * pyval))) :=
  let mint_info := dict_set (dict_set mint_info "type" (VStr "FT")) "subtype" (VStr "decentralized") in
  let args := args_of mint_info in
  let* ticker := requested_ticker args in
  match ticker with
  | None => Ok None
  | Some t =>
      let mint_info := dict_set mint_info "$request_ticker" (VStr t) in
      match int_arg_within args "mint_height" DFT_MINT_HEIGHT_MIN DFT_MINT_HEIGHT_MAX with
      | None => Ok None
      | Some mint_height =>
          match int_arg_within args "mint_amount" DFT_MINT_AMOUNT_MIN DFT_MINT_AMOUNT_MAX with
          | None => Ok None
          | Some mint_amount =>
              match int_arg_within args "max_mints" DFT_MINT_MAX_MIN_COUNT DFT_MINT_MAX_MAX_COUNT with
              | None => Ok None
              | Some max_mints =>
                  let mint_info :=
                    dict_set (dict_set (dict_set mint_info
                      "$mint_height" mint_height)
                      "$mint_amount" mint_amount)
                      "$max_mints" max_mints in
                  match bitwork_arg mint_info "mint_bitworkc" "$mint_bitworkc" with
                  | None => Ok None
                  | Some mint_info =>
                      Ok (bitwork_arg mint_info "mint_bitworkr" "$mint_bitworkr")
                  end
              end
          end
      end
  end.

(** The type dispatch on the operation. *)
Definition type_gate (ops : op_found) (mint_info : list (string * pyval)) : result (option (list (string * pyval))) :=
  if String.eqb (op ops) "nft" && (input_index ops =? 0)%nat then nft_gate mint_info
  else if String.eqb (op ops) "ft" && (input_index ops =? 0)%nat then ft_gate mint_info
  else if String.eqb (op ops) "dft" && (input_index ops =? 0)%nat then dft_gate mint_info
  else Ok (Some mint_info).

(** The closing checks on the general-purpose bitwork. *)
Definition bitwork_gate (is_name_type_require_bitwork : bool) (mint_info : list (string * pyval)) : option (list (string * pyval)) :=
  let args := args_of mint_info in
  let request_pow_commit := dict_get args "bitworkc" in
  let after_commit :=
    if truthy_opt request_pow_commit then
      match request_pow_commit with
      | Some request =>
          match is_valid_bitwork_string request with
          | Some (_, bitwork_commit_parts) =>
              if is_name_type_require_bitwork
                 && (Str.len (bw_prefix bitwork_commit_parts) <? 4)%nat
              then None
              else Some (dict_set mint_info "$bitworkc" request)
          | None => None
          end
      | None => None
      end
    else Some mint_info in
  match after_commit with
  | None => None
  | Some mint_info =>
      if is_name_type_require_bitwork && negb (truthy_opt request_pow_commit) then None
      else bitwork_arg mint_info "bitworkr" "$bitworkr"
  end.

(** The gates that precede the parents check: the base record, the four
    sub-maps, the requested proof of work and the count of requested
    names.  [Ok None] where the source returns [None, None]; otherwise
    [mint_info] and [is_name_type_require_bitwork]. *)
Definition base_gates (tx : Tx) (ops : op_found) : result (option (list (string * pyval) * bool)) :=
  let* mint_info :=
    build_base_mint_info tx (commit_txid ops) (commit_index ops)
      (reveal_location_txid ops) (reveal_location_index ops) in
  match populate_args_meta_ctx_init mint_info (payload ops) with
  | None => Ok None
  | Some mint_info =>
      let* (is_pow_requested, pow_result) := has_requested_proof_of_work (Some ops) in
      if is_pow_requested && is_none pow_result then Ok None
      else
        let mint_info :=
          match pow_result with
          | Some r =>
              if is_pow_requested
                 && (truthy_opt (pow_commit r) || truthy_opt (pow_reveal r))
              then dict_set mint_info "$bitwork"
                     (VDict [("bitworkc", match pow_commit r with Some v => v | None => VNone end);
                             ("bitworkr", match pow_reveal r with Some v => v | None => VNone end)])
              else mint_info
          | None => mint_info
          end in
        let '(request_counter, is_name_type_require_bitwork) :=
          requested_names (args_of mint_info) in
        if (1 <? request_counter)%nat then Ok None
        else Ok (Some (mint_info, is_name_type_require_bitwork))
  end.

(** [get_mint_info_op_factory(coin, tx, tx_hash, op_found_struct,
    atomicals_spent_at_inputs)]; [Ok None] is [(None, None)], and
    [Ok (Some (t, mint_info))] is [(mint_info['type'], mint_info)]. *)
Definition get_mint_info_op_factory (tx : Tx) (tx_hash : list byte) (op_found_struct : option op_found) (atomicals_spent_at_inputs : option (list (nat * list spent_entry))) : result (option (string * list (string * pyval))) :=
  match op_found_struct with
  | None => Ok None
  | Some ops =>
      let* based := base_gates tx ops in
      match based with
      | None => Ok None
      | Some (mint_info, is_name_type_require_bitwork) =>
          let* with_parents := parents_gate mint_info atomicals_spent_at_inputs in
          match with_parents with
          | None => Ok None
          | Some mint_info =>
              let* typed := type_gate ops mint_info in
              match typed with
              | None => Ok None
              | Some mint_info =>
                  match dict_get mint_info "type" with
                  | Some (VStr mint_type) =>
                      match bitwork_gate is_name_type_require_bitwork mint_info with
                      | None => Ok None
                      | Some mint_info =>
                          let* commit_index_le := pack_le_uint32 (commit_index ops) in
                          if negb (bool_decide (commit_location ops = commit_txid ops ++ commit_index_le))
                          then Raise AssertionError
                          else Ok (Some (mint_type, mint_info))
                      end
                  | _ => Ok None
                  end
              end
          end
      end
  end.

End MintInfo.

(** * Specification-side definitions and sample data *)

(** ** A decoder for the examples *)

(** The definite-length fragment of CBOR with short heads (additional
    information below 24): small integers, byte strings, ASCII text, arrays,
    maps with text keys, and the simple values false, true and null.  On an
    input of this fragment it yields what [cbor2.loads] yields; everything
    else is [None] here. *)
Definition ascii_text (b : list byte) : option string :=
  if forallb (fun x => (byte_val x <? 128)%N) b
  then Some (Str.of_list (map (fun x => ascii_of_N (byte_val x)) b))
  else None.

Fixpoint cbor_item (fuel : nat) (b : list byte) : option (pyval * list byte) :=
  match fuel, b with
  | S fuel', h :: rest =>
      let major := (byte_val h / 32)%N in
      let info := (byte_val h mod 32)%N in
      let len := N.to_nat info in
      if (major =? 7)%N then
        if (info =? 20)%N then Some (VBool false, rest)
        else if (info =? 21)%N then Some (VBool true, rest)
        else if (info =? 22)%N then Some (VNone, rest)
        else None
      else if (24 <=? info)%N then None
      else if (major =? 0)%N then Some (VInt (Z.of_N info), rest)
      else if (major =? 1)%N then Some (VInt (-1 - Z.of_N info), rest)
      else if (major =? 2)%N then
        if (len <=? length rest)%nat then Some (VBytes (take len rest), drop len rest)
        else None
      else if (major =? 3)%N then
        if (len <=? length rest)%nat then
          match ascii_text (take len rest) with
          | Some s => Some (VStr s, drop len rest)
          | None => None
          end
        else None
      else if (major =? 4)%N then
        (fix items (k : nat) (b : list byte) (acc : list pyval) : option (pyval * list byte) :=
           match k with
           | O => Some (VList acc, b)
           | S k' =>
               match cbor_item fuel' b with
               | Some (v, b') => items k' b' (acc ++ [v])
               | None => None
               end
           end) len rest []
      else if (major =? 5)%N then
        (fix pairs (k : nat) (b : list byte) (acc : list (string * pyval)) : option (pyval * list byte) :=
           match k with
           | O => Some (VDict acc, b)
           | S k' =>
               match cbor_item fuel' b with
               | Some (VStr key, b') =>
                   match cbor_item fuel' b' with
                   | Some (v, b'') => pairs k' b'' (dict_set acc key v)
                   | None => None
                   end
               | _ => None
               end
           end) len rest []
      else None
  | _, _ => None
  end.

Definition cbor_fragment_loads (b : list byte) : option pyval :=
  match cbor_item (S (length b)) b with
  | Some (v, []) => Some v
  | _ => None
  end.

(** ** Sample scripts *)

(** The bytes a hexadecimal text denotes (empty when it is not one). *)
Definition unhex (s : string) : list byte :=
  match bytes_fromhex s with
  | Ok b => b
  | Raise _ => []
  end.

(** A 32-byte hash in hexadecimal; its bytes read the same in both
    directions. *)
Definition sample_key : string :=
  "00112233445566778899aabbccddeeffffeeddccbbaa99887766554433221100".

(** A reveal script: the 32-byte key, [OP_IF], the envelope marker, the
    opcode, the payload pushes, [OP_ENDIF]. *)
Definition reveal_script (opcode pushes : string) : list byte :=
  unhex ("20" +:+ sample_key +:+ "63" +:+ "0461746f6d" +:+ opcode +:+ pushes +:+ "68").

(** [nft] with the one-byte payload [a0], the empty CBOR map. *)
Definition script_nft_empty_map : list byte := reveal_script "036e6674" "01a0".

(** [nft] whose push announces five bytes where two remain. *)
Definition script_nft_overrun : list byte := reveal_script "036e6674" "05a0".

(** A script with a wrong envelope marker. *)
Definition script_no_envelope : list byte :=
  unhex ("20" +:+ sample_key +:+ "63" +:+ "0461746f6e" +:+ "036e6674" +:+ "01a0" +:+ "68").

(** [nft] with the payload [{"args": {"a": {}, "b": h'00'}}]. *)
Definition script_nft_bytes_in_args : list byte :=
  reveal_script "036e6674" "0ea16461726773a26161a061624100".

(** ** Sample transactions *)

Definition sample_tx_hash : list byte :=
  unhex "ffeeddccbbaa9988776655443322110000112233445566778899aabbccddeeff".

Definition sample_input_0 : TxInput :=
  {| prev_hash := unhex sample_key; prev_idx := 7 |}.

Definition sample_input_1 : TxInput :=
  {| prev_hash := sample_tx_hash; prev_idx := 9 |}.

Definition sample_output : TxOutput :=
  {| value := 1000; pk_script := unhex "5120" |}.

(** One input, whose witness carries [script_nft_bytes_in_args]. *)
Definition tx_bytes_in_args : Tx :=
  {| inputs := [sample_input_0];
     outputs := [sample_output];
     witness := Some [[script_nft_bytes_in_args]] |}.

(** Two inputs: the first witness has no envelope, the second carries the
    operation. *)
Definition tx_operation_at_input_1 : Tx :=
  {| inputs := [sample_input_0; sample_input_1];
     outputs := [sample_output];
     witness := Some [[script_no_envelope]; [script_nft_empty_map]] |}.

(** ** Sample candidates *)

(** A candidate committed at height 100 and revealed at height 104. *)
Definition late_candidate : atomical_info :=
  {| ai_mint_info := {| cmi_commit_height := 100; cmi_reveal_location_height := 104 |};
     ai_atomical_id := unhex sample_key ++ unhex "00000000";
     ai_subrealm_candidates := [] |}.

(** ** The colouring as the specification words it *)

(** The colouring phase: an output is coloured while its value does not
    exceed what remains; the first output that does ends the colouring.
    The result is the coloured indexes and the amount left. *)
Fixpoint spec_color (remaining : Z) (values : list Z) (idx : nat) : list nat * Z :=
  match values with
  | [] => ([], remaining)
  | v :: rest =>
      if (v <=? remaining)%Z then
        let '(colored, amount_left) := spec_color (remaining - v) rest (S idx) in
        (idx :: colored, amount_left)
      else ([], remaining)
  end.

(** The skipping phase: while the accumulated skipped value is below the
    skip amount, an output is added to the accumulator and left uncoloured;
    the colouring phase takes over from the first output met after that. *)
Fixpoint spec_skip_then_color (skip accumulated remaining : Z) (values : list Z) (idx : nat) : list nat * Z :=
  match values with
  | [] => ([], remaining)
  | v :: rest =>
      if (accumulated <? skip)%Z
      then spec_skip_then_color skip (accumulated + v) remaining rest (S idx)
      else spec_color remaining (v :: rest) idx
  end.

Definition spec_distribution (remaining skip : Z) (values : list Z) : list nat * Z :=
  spec_skip_then_color skip 0 remaining values 0.

(** ** Sample token transfers *)

Definition sample_atomical_id : list byte := unhex sample_key ++ unhex "00000000".

Definition sample_compact_id : string := sample_key +:+ "i0".

Definition sample_ft : ft_mint_info := {| mi_type := "FT"; mi_value := 1000 |}.

Definition tx_with_outputs (values : list Z) : Tx :=
  {| inputs := [sample_input_0];
     outputs := map (fun v => {| value := v; pk_script := [] |}) values;
     witness := None |}.

(** A [y] operation at input 0 that skips 500 units of the sample token. *)
Definition skip_500 : op_found :=
  {| op := "y";
     payload := [(sample_compact_id, VInt 500)];
     payload_bytes := [];
     input_index := 0;
     commit_txid := prev_hash sample_input_0;
     commit_index := 7;
     commit_location := prev_hash sample_input_0 ++ unhex "07000000";
     reveal_location_txid := sample_tx_hash;
     reveal_location_index := 0 |}.

(** ** The order the collapsing loop asserts *)

(** Heights never increase and [tx_num] strictly decreases along the list,
    starting below the two initial bounds. *)
Fixpoint history_ordered (prev_height prev_tx_num : Z) (history : list modpath_item) : bool :=
  match history with
  | [] => true
  | item :: rest =>
      (height item <=? prev_height)%Z && (tx_num item <? prev_tx_num)%Z
      && history_ordered (height item) (tx_num item) rest
  end.

Definition history_sorted (history : list modpath_item) : bool :=
  history_ordered 99999999999 99999999999 history.

(** The first record of the list at a given height. *)
Fixpoint first_at (h : Z) (history : list modpath_item) : option modpath_item :=
  match history with
  | [] => None
  | item :: rest => if (height item =? h)%Z then Some item else first_at h rest
  end.

(** Three updates, two of them at height 120. *)
Definition sample_history : list modpath_item :=
  [ {| height := 120; tx_num := 57; txid := unhex "03"; data := VNone |};
    {| height := 120; tx_num := 55; txid := unhex "02"; data := VNone |};
    {| height := 110; tx_num := 40; txid := unhex "01"; data := VNone |} ].

(** ** Malformed pushes *)

(** Reading the payload from position [n], the tokenizer comes to a push
    that [parse_push_data] cannot read (a declared length beyond the end of
    the script, or a length field cut short) before it meets [OP_ENDIF]. *)
Inductive malformed_push_ahead (script : list byte) : nat -> Prop :=
  | malformed_here n op e :
      byte_at script n = Ok op ->
      (op <=? OpCodes.OP_PUSHDATA4)%N = true ->
      parse_push_data op (n + 1) script = Raise e ->
      malformed_push_ahead script n
  | malformed_after_push n op data n' dlen :
      byte_at script n = Ok op ->
      (op <=? OpCodes.OP_PUSHDATA4)%N = true ->
      parse_push_data op (n + 1) script = Ok (data, n', dlen) ->
      malformed_push_ahead script n' ->
      malformed_push_ahead script n
  | malformed_after_other n op :
      byte_at script n = Ok op ->
      (op <=? OpCodes.OP_PUSHDATA4)%N = false ->
      op <> OpCodes.OP_ENDIF ->
      malformed_push_ahead script (n + 1) ->
      malformed_push_ahead script n.

(** A reveal script in parts: the key push, [OP_IF], the envelope marker,
    and what follows the marker. *)
Definition envelope_script (key rest : list byte) : list byte :=
  Byte.x20 :: key ++ Byte.x63 :: unhex ATOMICALS_ENVELOPE_MARKER_BYTES ++ rest.

(** ** Well-formed compact ids *)

(** A text of lower-case hexadecimal digits. *)
Fixpoint lower_hex (s : string) : bool :=
  match s with
  | EmptyString => true
  | String c s' =>
      match char_map c with
      | Some _ => lower_hex s'
      | None => false
      end
  end.

(** A text of decimal digits. *)
Fixpoint all_digits (s : string) : bool :=
  match s with
  | EmptyString => true
  | String c s' => is_digit c && all_digits s'
  end.

(** The number a digit sequence denotes when read after the number [acc]. *)
Fixpoint digits_value (d : Decimal.uint) (acc : Z) : Z :=
  match d with
  | Decimal.Nil => acc
  | Decimal.D0 l => digits_value l (10 * acc + 0)
  | Decimal.D1 l => digits_value l (10 * acc + 1)
  | Decimal.D2 l => digits_value l (10 * acc + 2)
  | Decimal.D3 l => digits_value l (10 * acc + 3)
  | Decimal.D4 l => digits_value l (10 * acc + 4)
  | Decimal.D5 l => digits_value l (10 * acc + 5)
  | Decimal.D6 l => digits_value l (10 * acc + 6)
  | Decimal.D7 l => digits_value l (10 * acc + 7)
  | Decimal.D8 l => digits_value l (10 * acc + 8)
  | Decimal.D9 l => digits_value l (10 * acc + 9)
  end.

(** The two directions of the codec, composed. *)
Definition compact_round_trip (s : string) : result string :=
  let* b := compact_to_location_id_bytes s in
  location_id_bytes_to_compact b.

Definition binary_round_trip (b : list byte) : result (list byte) :=
  let* s := location_id_bytes_to_compact b in
  compact_to_location_id_bytes s.

(** ** The parents requirement as the specification words it *)

Section ParentsSpec.

Variable HASHX_LEN : nat.
Variable SCRIPTHASH_LEN : nat.

(** All the spent-input records, input after input. *)
Definition spent_records (spent : list (nat * list spent_entry)) : list spent_entry :=
  concat (map snd spent).

Definition spent_list (atomicals_spent_at_inputs : option (list (nat * list spent_entry))) : list (nat * list spent_entry) :=
  match atomicals_spent_at_inputs with
  | Some spent => spent
  | None => []
  end.

(** The records whose atomical id is the given one. *)
Definition matching_records (id : list byte) (records : list spent_entry) : list spent_entry :=
  filter (fun e => se_atomical_id e = id) records.

(** The value field of a record: eight little-endian bytes after the two
    hash fields. *)
Definition stored_value (e : spent_entry) : Z :=
  Z.of_N (le_value (slice (se_value e)
                      (HASHX_LEN + SCRIPTHASH_LEN) (HASHX_LEN + SCRIPTHASH_LEN + 8))).

Definition sum_values (records : list spent_entry) : Z :=
  foldr (fun e total => (stored_value e + total)%Z) 0%Z records.

(** The total the summing loop holds for an id after it has met the
    records [found] of that id, having started from [before]. *)
Definition running_total (before : option Z) (found : list spent_entry) : option Z :=
  match found with
  | [] => before
  | _ :: _ =>
      Some (match before with Some total => total | None => 0%Z end
            + sum_values found)%Z
  end.

(** A parent entry is satisfied when its key is a compact id, its minimum
    is an integer that is not negative, some spent record carries the id,
    and the values of the records that carry it sum to the minimum at
    least. *)
Definition parent_satisfied (spent : list (nat * list spent_entry)) (entry : string * pyval) : bool :=
  match compact_to_location_id_bytes (fst entry), as_int (snd entry) with
  | Ok id, Some minimum =>
      let found := matching_records id (spent_records spent) in
      (0 <=? minimum)%Z
      && match found with [] => false | _ :: _ => true end
      && (minimum <=? sum_values found)%Z
  | _, _ => false
  end.

(** A key with its first [i] at offset 64 is one the codec converts. *)
Definition parent_id_decodes (key : string) : bool :=
  match Str.find "i" key with
  | Some 64%nat => is_ok (compact_to_location_id_bytes key)
  | _ => true
  end.

(** A record long enough to hold the value field. *)
Definition record_readable (e : spent_entry) : Prop :=
  (HASHX_LEN + SCRIPTHASH_LEN + 8 <= length (se_value e))%nat.

End ParentsSpec.

(** ** Sample mints *)

(** Stand-ins for the hash functions and the encoder of the display alias,
    on which no gate depends. *)
Definition sample_hash (script : list byte) : list byte := take 11 script.
Definition sample_krock32 (b : list byte) : string := bytes_hex b.

Definition sample_nft_op (args : list (string * pyval)) : op_found :=
  {| op := "nft";
     payload := [("args", VDict args)];
     payload_bytes := [Byte.xa0];
     input_index := 0;
     commit_txid := prev_hash sample_input_0;
     commit_index := 7;
     commit_location := prev_hash sample_input_0 ++ unhex "07000000";
     reveal_location_txid := sample_tx_hash;
     reveal_location_index := 0 |}.

(** A stored record of another atomical: 11 and 32 bytes of hashes, then
    the value 3. *)
Definition sample_spent_record : spent_entry :=
  {| se_atomical_id := sample_tx_hash ++ unhex "00000000";
     se_value := replicate 43 Byte.x00 ++ unhex "0300000000000000" |}.

Definition sample_spent : option (list (nat * list spent_entry)) :=
  Some [(0%nat, [sample_spent_record])].

(** The parents of a mint that requires 5 units of the sample atomical
    among the inputs. *)
Definition sample_parents : list (string * pyval) :=
  [(sample_compact_id, VInt 5)].

(** * Further functions of the module *)

(** ** Padding *)

(** [pad_bytes_n(val, n)] *)
Definition pad_bytes_n (val : list byte) (n : Z) : result (list byte) :=
  let padlen := n in
  if (Z.of_nat (length val) >? padlen)%Z then Raise ValueError
  else
    let extra_bytes_needed := (padlen - Z.of_nat (length val))%Z in
    Ok (val ++ replicate (Z.to_nat extra_bytes_needed) Byte.x00).

(** [pad_bytes64(val)] *)
Definition pad_bytes64 (val : list byte) : result (list byte) :=
  pad_bytes_n val 64.

(** ** Expected output of an NFT *)

(** The stored mint record, as far as the NFT placement reads it. *)
Record nft_mint_info : Type := {
  nmi_type : string;
  nmi_input_indexes : list nat
}.

Section NftOutput.

(** The test for an unspendable output script, passed in by the caller. *)
Variable is_unspendable : list byte -> bool.

(** [get_expected_output_index_of_atomical_nft(mint_info, tx, atomical_id,
    atomicals_operations_found, is_unspendable)] *)
Definition get_expected_output_index_of_atomical_nft (mint_info : nft_mint_info) (tx : Tx) (atomical_id : list byte) (atomicals_operations_found : option op_found) : result nat :=
  if negb (String.eqb (nmi_type mint_info) "NFT") then Raise AssertionError
  else if (1 <? length (nmi_input_indexes mint_info))%nat then Raise IndexError
  else
    match nmi_input_indexes mint_info with
    | [] => Raise IndexError
    | expected_output_index :: _ =>
        if (length (outputs tx) <=? expected_output_index)%nat then Ok 0%nat
        else
          match outputs tx !! expected_output_index with
          | Some txout =>
              if is_unspendable (pk_script txout) then Ok 0%nat
              else Ok expected_output_index
          | None => Raise IndexError
          end
    end.

End NftOutput.

(** ** Hexadecimal identifiers *)

Definition is_hex_char (c : ascii) : bool :=
  match hex_val c with Some _ => true | None => false end.

(** The hexadecimal digits after a first digit: more digits, each optionally
    preceded by one underscore. *)
Fixpoint hex_digits_ok (s : string) : bool :=
  match s with
  | EmptyString => true
  | String c s' =>
      if is_hex_char c then hex_digits_ok s'
      else if Ascii.eqb c "_" then
        match s' with
        | String d s'' => is_hex_char d && hex_digits_ok s''
        | EmptyString => false
        end
      else false
  end.

Definition unsigned_hex_ok (s : string) : bool :=
  match s with
  | String c s' => is_hex_char c && hex_digits_ok s'
  | EmptyString => false
  end.

(** Whether [int(s, 16)] returns: surrounding white space, an optional sign,
    an optional [0x] (after which one underscore may come), digits. *)
Definition py_int16_ok (s : string) : bool :=
  let t := rstrip (lstrip s) in
  let body :=
    match t with
    | String "-" r => r
    | String "+" r => r
    | _ => t
    end in
  let body :=
    match body with
    | String "0" (String x r) =>
        if Ascii.eqb x "x" || Ascii.eqb x "X" then
          match r with
          | String "_" r' => r'
          | _ => r
          end
        else body
    | _ => body
    end in
  unsigned_hex_ok body.

(** [is_hex_string(value)] *)
Definition is_hex_string (value : pyval) : bool :=
  match value with
  | VStr s => py_int16_ok s
  | _ => false
  end.

(** [is_atomical_id_long_form_string(value)] *)
Definition is_atomical_id_long_form_string (value : pyval) : bool :=
  if negb (truthy value) then false
  else
    match value with
    | VStr s => py_int16_ok s
    | _ => false
    end.

(** [is_atomical_id_long_form_bytes(value)]: the [ValueError] and
    [TypeError] of the decoding are caught. *)
Definition is_atomical_id_long_form_bytes (value : pyval) : bool :=
  match value with
  | VStr s =>
      match hex_str_to_hash s with
      | Ok raw_hash => (length raw_hash =? 36)%nat
      | Raise _ => false
      end
  | _ => false
  end.

(** [get_tx_hash_index_from_location_id(location_id)] *)
Definition get_tx_hash_index_from_location_id (location_id : list byte) : result (list byte * Z) :=
  let* output_index := unpack_le_uint32_from (slice location_id 32 36) in
  Ok (take 32 location_id, output_index).

(** ** Distributed mint operations *)

(** [is_valid_dmt_op_format(tx_hash, dmt_op)]: [Ok None] is [(False, {})],
    and [Ok (Some (payload, ticker))] is [(True, {'payload': payload,
    '$mint_ticker': ticker})]. *)
Definition is_valid_dmt_op_format (tx_hash : list byte) (dmt_op : option op_found) : result (option (list (string * pyval) * pyval)) :=
  match dmt_op with
  | None => Ok None
  | Some dmt_op =>
      if negb (String.eqb (op dmt_op) "dmt") || negb (input_index dmt_op =? 0)%nat
      then Ok None
      else
        let payload_data := payload dmt_op in
        if negb (is_dict (dict_get_or_empty payload_data "meta")) then Ok None
        else
          match dict_get_or_empty payload_data "args" with
          | VDict args =>
              if negb (is_dict (dict_get_or_empty payload_data "ctx")) then Ok None
              else if negb (is_dict (dict_get_or_empty payload_data "init")) then Ok None
              else
                let ticker :=
                  match dict_get args "mint_ticker" with
                  | Some v => v
                  | None => VNone
                  end in
                let* valid := is_valid_ticker_string ticker in
                match valid with
                | Some true => Ok (Some (payload_data, ticker))
                | _ => Ok None
                end
          | _ => Ok None
          end
  end.

(** ** Payment markers *)

(** [is_op_return_payment_marker_atomical_id(script)] *)
Definition is_op_return_payment_marker_atomical_id (script : list byte) : option (list byte) :=
  match script with
  | [] => None
  | _ :: _ =>
      if (length script <? 1 + 5 + 2 + 1 + 36)%nat then None
      else
        let first_byte := slice script 0 1 in
        let second_bytes := slice script 0 2 in
        if negb (bool_decide (second_bytes = [Byte.x00; Byte.x6a]))
           && negb (bool_decide (first_byte = [Byte.x6a]))
        then None
        else
          let start_index :=
            if bool_decide (second_bytes = [Byte.x00; Byte.x6a]) then 2%nat else 1%nat in
          if negb (String.eqb (bytes_hex (slice script start_index (start_index + 5)))
                     ATOMICALS_ENVELOPE_MARKER_BYTES)
          then None
          else if negb (String.eqb (bytes_hex (slice script (start_index + 5) (start_index + 5 + 2))) "0170")
          then None
          else if negb (String.eqb (bytes_hex (slice script (start_index + 5 + 2) (start_index + 5 + 2 + 1))) "24")
          then None
          else Some (slice script (start_index + 5 + 2 + 1) (start_index + 5 + 2 + 1 + 36))
  end.

(** ** Arguments of an operation *)

(** The dict under ['args'] of a payload, empty when there is none. *)
Definition payload_args (ops : op_found) : list (string * pyval) :=
  match dict_get_or_empty (payload ops) "args" with
  | VDict args => args
  | _ => []
  end.

(** The name requests of a mint, as truth values: realm, subrealm,
    container, ticker. *)
Definition name_requests (args : list (string * pyval)) : list bool :=
  [truthy_opt (dict_get args "request_realm");
   truthy_opt (dict_get args "request_subrealm");
   truthy_opt (dict_get args "request_container");
   truthy_opt (dict_get args "request_ticker")].

(** ** Sample mints with proof of work *)

(** A realm request with a commit bitwork of four digits, which the sample
    commit hash [0011...] satisfies. *)
Definition sample_realm_args : list (string * pyval) :=
  [("request_realm", VStr "abc"); ("bitworkc", VStr "0011")].

(** A decentralized token deployment. *)
Definition sample_dft_args : list (string * pyval) :=
  [("request_ticker", VStr "atom"); ("bitworkc", VStr "0011");
   ("mint_height", VInt 800000); ("mint_amount", VInt 1000); ("max_mints", VInt 21000)].

Definition sample_op (name : string) (args : list (string * pyval)) : op_found :=
  {| op := name;
     payload := [("args", VDict args)];
     payload_bytes := [Byte.xa0];
     input_index := 0;
     commit_txid := prev_hash sample_input_0;
     commit_index := 7;
     commit_location := prev_hash sample_input_0 ++ unhex "07000000";
     reveal_location_txid := sample_tx_hash;
     reveal_location_index := 0 |}.

(** ** Writing a payload *)

(** The push of [data] as a reveal script carries it, which
    [parse_push_data] reads back: the length as the opcode below
    [OP_PUSHDATA1], or [OP_PUSHDATA1], [OP_PUSHDATA2], [OP_PUSHDATA4] with a
    length field of one, two, four bytes in little-endian order. *)
Definition push_data (data : list byte) : list byte :=
  let len := N.of_nat (length data) in
  if (len <? OpCodes.OP_PUSHDATA1)%N then byte_of len :: data
  else if (len <? 256)%N then byte_of OpCodes.OP_PUSHDATA1 :: byte_of len :: data
  else if (len <? 65536)%N then byte_of OpCodes.OP_PUSHDATA2 :: le_bytes 2 len ++ data
  else byte_of OpCodes.OP_PUSHDATA4 :: le_bytes 4 len ++ data.

(** A payload written as one push per chunk, closed by [OP_ENDIF]. *)
Definition payload_script (chunks : list (list byte)) : list byte :=
  concat (map push_data chunks) ++ [byte_of OpCodes.OP_ENDIF].

(** The operations and the bytes that announce them. *)
Definition operation_codes : list (string * string) :=
  [("nft", "036e6674"); ("dft", "03646674"); ("mod", "036d6f64");
   ("evt", "03657674"); ("dmt", "03646d74"); ("dat", "03646174");
   ("ft", "026674"); ("sl", "02736c"); ("x", "0178"); ("y", "0179")].

(** ** Writing a payment marker *)

(** An [OP_RETURN] output script that marks a payment for [atomical_id]:
    [OP_RETURN], after a zero byte when [zero_first], then the envelope
    marker, the push of [p] and a push of 36 bytes. *)
Definition payment_marker_script (zero_first : bool) (atomical_id : list byte) : list byte :=
  (if zero_first then [Byte.x00; Byte.x6a] else [Byte.x6a])
  ++ unhex ATOMICALS_ENVELOPE_MARKER_BYTES ++ unhex "0170" ++ [Byte.x24] ++ atomical_id.

(** ** The value of coloured outputs *)

(** The sum of the values, among [values], at the indexes [idxs]. *)
Definition coloured_value (values : list Z) (idxs : list nat) : Z :=
  foldr (fun idx total =>
           (match values !! idx with
            | Some v => v
            | None => 0
            end + total)%Z) 0%Z idxs.

(** ** The shape of a name *)

(** Every character of [s] is in the class [p]. *)
Fixpoint chars_in (p : ascii -> bool) (s : string) : bool :=
  match s with
  | EmptyString => true
  | String c s' => p c && chars_in p s'
  end.

(** [s] without the line feed that ends it, if one does. *)
Fixpoint chomp (s : string) : string :=
  match s with
  | EmptyString => EmptyString
  | String c s' =>
      match s' with
      | EmptyString => if Ascii.eqb c "010" then EmptyString else String c EmptyString
      | String _ _ => String c (chomp s')
      end
  end.

(** The strings that the name validators accept, for a class [first] of
    first characters: at most 64 characters, the first one in [first], the
    others, up to a closing line feed, lower-case letters, digits and
    hyphens, and no hyphen as last character. *)
Definition name_shape (first : ascii -> bool) (s : string) : bool :=
  match s with
  | EmptyString => false
  | String c rest =>
      first c
      && chars_in cls_az09dash (chomp rest)
      && (Str.len rest <=? 63)%nat
      && negb (bool_decide (Str.last s = Some "-"%char))
  end.

(** The strings that the ticker validator accepts: up to a closing line
    feed, 1 to 21 lower-case letters and digits. *)
Definition ticker_shape (s : string) : bool :=
  chars_in cls_az09 (chomp s)
  && (1 <=? Str.len (chomp s))%nat && (Str.len (chomp s) <=? 21)%nat.

(** ** Subrealm rules in force *)

Definition SUBREALM_MINT_PATH : string := "/subrealms".
Definition SUBREALM_MINT_MIN_PAYMENT_DUST_LIMIT : Z := 0.
Definition MAX_SUBREALM_RULE_SIZE_BYTES : Z := 1000000.

(** A price point [{'p': regex_pattern, 'o': outputs}]. *)
Record price_point : Type := {
  pp_p : pyval;
  pp_o : list (string * pyval)
}.

(** The dict that [calculate_subrealm_rules_list_as_of_height] returns. *)
Record rule_set : Type := {
  rule_set_txid : list byte;
  rule_set_height : Z;
  rule_valid_from_height : Z;
  rs_rules : list price_point
}.

(** [x != None] *)
Definition not_none (v : option pyval) : bool :=
  match v with
  | Some VNone | None => false
  | Some _ => true
  end.

(** [sorted(m.items(), reverse=True)]: the keys are distinct, so the items
    come by decreasing key. *)
Fixpoint insert_reverse {A : Type} (x : Z * A) (l : list (Z * A)) : list (Z * A) :=
  match l with
  | [] => [x]
  | y :: l' => if (fst y <=? fst x)%Z then x :: l else y :: insert_reverse x l'
  end.

Definition sorted_reverse {A : Type} (l : list (Z * A)) : list (Z * A) :=
  foldr insert_reverse [] l.

(** The keys of the items strictly decrease along the list. *)
Fixpoint decreasing_keys {A : Type} (l : list (Z * A)) : Prop :=
  match l with
  | [] => True
  | x :: l' => (forall y, y ∈ l' -> (fst y < fst x)%Z) /\ decreasing_keys l'
  end.

Section Rules.

(** [sys.getsizeof] of a list, and whether [re.compile(rf"{p}")] returns:
    both belong to the interpreter. *)
Variable getsizeof : list pyval -> Z.
Variable re_compiles : pyval -> bool.

(** The loop over [outputs.items()]: [false] where the source returns
    [None]. *)
Fixpoint outputs_loop (outputs : list (string * pyval)) : bool :=
  match outputs with
  | [] => true
  | (expected_output_script, expected_output_value) :: rest =>
      match as_int expected_output_value with
      | None => false
      | Some v =>
          if (v <? SUBREALM_MINT_MIN_PAYMENT_DUST_LIMIT)%Z then false
          else if negb (is_hex_string (VStr expected_output_script)) then false
          else outputs_loop rest
      end
  end.

(** The loop over [rules]: [None] where the source returns [None],
    otherwise the price list. *)
Fixpoint rules_loop (rules : list pyval) (regex_price_list : list price_point) : option (list price_point) :=
  match rules with
  | [] => Some regex_price_list
  | regex_price :: rest =>
      match regex_price with
      | VDict entries =>
          let regex_pattern := dict_get entries "p" in
          let outputs := dict_get entries "o" in
          if not_none regex_pattern && not_none outputs then
            match regex_pattern, outputs with
            | Some p, Some (VDict outputs) =>
                if (length outputs <? 1)%nat then None
                else if negb (outputs_loop outputs) then None
                else if re_compiles p
                then rules_loop rest (regex_price_list ++ [{| pp_p := p; pp_o := outputs |}])
                else None
            | _, _ => None
            end
          else None
      | _ => None
      end
  end.

(** The checks on the update in force, from [if not modpath_item['data']]
    to the returned dict: [None] where the source returns [None]. *)
Definition rule_set_of (modpath_item : modpath_item) (valid_from_height : Z) : option rule_set :=
  if negb (truthy (data modpath_item)) || negb (is_dict (data modpath_item)) then None
  else
    match data modpath_item with
    | VDict entries =>
        match dict_get entries "$path" with
        | Some (VStr mod_path) =>
            if negb (String.eqb mod_path SUBREALM_MINT_PATH) then None
            else
              match dict_get entries "rules" with
              | Some rules =>
                  if negb (truthy rules) then None
                  else
                    match rules with
                    | VList rules =>
                        if (length rules <=? 0)%nat then None
                        else if (getsizeof rules >? MAX_SUBREALM_RULE_SIZE_BYTES)%Z then None
                        else
                          match rules_loop rules [] with
                          | Some regex_price_list =>
                              Some {| rule_set_txid := txid modpath_item;
                                      rule_set_height := height modpath_item;
                                      rule_valid_from_height := valid_from_height;
                                      rs_rules := regex_price_list |}
                          | None => None
                          end
                    | _ => None
                    end
              | None => None
              end
        | _ => None
        end
    | _ => None
    end.

(** The loop over the collapsed updates, latest first.  [prev_height] is
    never assigned in this loop. *)
Fixpoint rules_scan (height_asked : Z) (items : list (Z * modpath_item)) (prev_height prev_tx_num : Z) : result (option rule_set) :=
  match items with
  | [] => Ok None
  | (height_key, modpath_item) :: rest =>
      if negb (height modpath_item =? height_key)%Z then Raise AssertionError
      else if negb (height modpath_item <=? prev_height)%Z then Raise AssertionError
      else if negb (tx_num modpath_item <? prev_tx_num)%Z then Raise AssertionError
      else
        let prev_tx_num := tx_num modpath_item in
        let valid_from_height :=
          (height modpath_item + MINT_SUBREALM_RULES_BECOME_EFFECTIVE_IN_BLOCKS)%Z in
        if (height_asked <? valid_from_height)%Z
        then rules_scan height_asked rest prev_height prev_tx_num
        else Ok (rule_set_of modpath_item valid_from_height)
  end.

(** [calculate_subrealm_rules_list_as_of_height(height,
    subrealm_mint_modpath_history)]; the logging is left out. *)
Definition calculate_subrealm_rules_list_as_of_height (height_asked : Z) (subrealm_mint_modpath_history : list modpath_item) : result (option rule_set) :=
  let* collapsed_height_to_mod_path_history_items_map :=
    create_collapsed_height_to_mod_path_history_items_map subrealm_mint_modpath_history in
  rules_scan height_asked
    (sorted_reverse (map_to_list collapsed_height_to_mod_path_history_items_map))
    99999999999 99999999999.

End Rules.

(** The update of a history that is in force at a height: the first one
    that is old enough. *)
Definition update_in_force (height_asked : Z) (history : list modpath_item) : option modpath_item :=
  List.find (fun item => (height item + MINT_SUBREALM_RULES_BECOME_EFFECTIVE_IN_BLOCKS <=? height_asked)%Z) history.

(** ** Sample rules *)

Definition sample_rule : pyval :=
  VDict [("p", VStr "^[a-z]+$"); ("o", VDict [("5120aa", VInt 1000)])].

Definition sample_rules_data (rules : list pyval) : pyval :=
  VDict [("$path", VStr "/subrealms"); ("rules", VList rules)].

(** Updates at heights 120 (twice), 110 and 100; the one at 110 has no
    rules. *)
Definition sample_rules_history : list modpath_item :=
  [ {| height := 120; tx_num := 57; txid := unhex "04";
       data := sample_rules_data [sample_rule] |};
    {| height := 120; tx_num := 55; txid := unhex "03";
       data := sample_rules_data [sample_rule; sample_rule] |};
    {| height := 110; tx_num := 40; txid := unhex "02"; data := sample_rules_data [] |};
    {| height := 100; tx_num := 30; txid := unhex "01";
       data := sample_rules_data [sample_rule] |} ].

(** * Properties *)

(** ** Dict sanitizer *)

(** Entries with integer values are passed over. *)
Lemma sanitizer_passes_over_ints (ints : list (string * Z)) rest allow_bytes :
  is_sanitized_dict_whitelist_only
    (VDict (map (fun kz => (fst kz, VInt (snd kz))) ints ++ rest)) allow_bytes
  = is_sanitized_dict_whitelist_only (VDict rest) allow_bytes.
Proof.
  induction ints as [| [k z] ints IH]; [reflexivity |].
  cbn [map app fst snd]. cbn [is_sanitized_dict_whitelist_only] in *. exact IH.
Qed.

(** C1 (the code departs from the claim): the loop of
    [is_sanitized_dict_whitelist_only] returns the verdict of the first
    map-valued entry, so the entries after it are never examined, and a
    list-valued entry is accepted without a look at its elements.  A byte
    string that comes before any map is rejected, as claimed; one placed
    after a map, or inside a list, passes with [allow_bytes=False], and the
    array parser returns the operation whose [args] holds it. *)
Theorem sanitizer_returns_at_first_map :
  (forall (ints : list (string * Z)) k inner rest allow_bytes,
      is_sanitized_dict_whitelist_only
        (VDict (map (fun kz => (fst kz, VInt (snd kz))) ints
                  ++ (k, VDict inner) :: rest)) allow_bytes
      = is_sanitized_dict_whitelist_only (VDict inner) allow_bytes)
  /\ (forall k l rest allow_bytes,
         is_sanitized_dict_whitelist_only (VDict ((k, VList l) :: rest)) allow_bytes
         = is_sanitized_dict_whitelist_only (VDict rest) allow_bytes)
  /\ (forall (ints : list (string * Z)) k b rest,
         is_sanitized_dict_whitelist_only
           (VDict (map (fun kz => (fst kz, VInt (snd kz))) ints
                     ++ (k, VBytes b) :: rest)) false
         = false)
  /\ is_sanitized_dict_whitelist_only
       (VDict [("a", VDict []); ("b", VBytes [Byte.x00])]) false = true
  /\ is_sanitized_dict_whitelist_only
       (VDict [("a", VList [VBytes [Byte.x00]])]) false = true
  /\ exists s,
       parse_protocols_operations_from_witness_array cbor_fragment_loads
         tx_bytes_in_args sample_tx_hash = Ok (Operation s)
       /\ payload s = [("args", VDict [("a", VDict []); ("b", VBytes [Byte.x00])])].
Proof.
  split; [| split; [| split; [| split; [| split]]]].
  - intros ints k inner rest allow_bytes.
    rewrite sanitizer_passes_over_ints. reflexivity.
  - reflexivity.
  - intros ints k b rest. rewrite sanitizer_passes_over_ints. reflexivity.
  - reflexivity.
  - reflexivity.
  - eexists. split; [vm_compute; reflexivity | reflexivity].
Qed.

(** ** Bitwork strings *)

(** What [is_validate_pow_prefix_string] computes: a positive extension
    settles the answer without a look at the prefix or at the upper bound;
    otherwise the answer is the match of the prefix. *)
Lemma validate_pow_prefix_cases pow_prefix pow_prefix_ext :
  is_validate_pow_prefix_string pow_prefix pow_prefix_ext
  = negb (String.eqb pow_prefix EmptyString)
    && match pow_prefix_ext with
       | Some ext => (0 <? ext)%Z || re_match re_pow_prefix pow_prefix
       | None => re_match re_pow_prefix pow_prefix
       end.
Proof.
  unfold is_validate_pow_prefix_string.
  destruct (String.eqb pow_prefix EmptyString); [reflexivity |]. cbn [negb andb].
  destruct pow_prefix_ext as [ext |]; [| reflexivity].
  destruct (Z.eqb_spec ext 0) as [-> | Hext]; [reflexivity |]. cbn [negb].
  destruct (Z.geb_spec ext 0), (Z.ltb_spec 0 ext), (Z.leb_spec ext 15);
    try lia; reflexivity.
Qed.

(** C2 (the code departs from the claim): with a non-zero extension the
    test [isinstance(ext, int) and ext >= 0 or ext <= 15 and m.match(prefix)]
    succeeds as soon as the extension is positive, whatever the prefix and
    however large the extension, and a negative extension passes with a
    matching prefix: ["ABC.99"], ["abc.16"] and ["abc.-1"] are accepted. *)
Theorem bitwork_positive_ext_accepts_any_prefix :
  (forall pow_prefix pow_prefix_ext,
      is_validate_pow_prefix_string pow_prefix pow_prefix_ext
      = negb (String.eqb pow_prefix EmptyString)
        && match pow_prefix_ext with
           | Some ext => (0 <? ext)%Z || re_match re_pow_prefix pow_prefix
           | None => re_match re_pow_prefix pow_prefix
           end)
  /\ (forall c prefix ext,
         is_validate_pow_prefix_string (String c prefix) (Some (Z.pos ext)) = true)
  /\ is_valid_bitwork_string (VStr "ABC.99")
     = Some ("ABC.99", {| bw_prefix := "ABC"; bw_ext := Some 99%Z |})
  /\ is_valid_bitwork_string (VStr "abc.16")
     = Some ("abc.16", {| bw_prefix := "abc"; bw_ext := Some 16%Z |})
  /\ is_valid_bitwork_string (VStr "abc.-1")
     = Some ("abc.-1", {| bw_prefix := "abc"; bw_ext := Some (-1)%Z |}).
Proof.
  split; [exact validate_pow_prefix_cases |].
  split; [| repeat split; reflexivity].
  intros c prefix ext. rewrite validate_pow_prefix_cases. reflexivity.
Qed.

(** ** Names *)

(** A name of 65 characters fails the length test of the base predicate. *)
Lemma namebase_rejects_65 s :
  Str.len s = 65%nat -> is_valid_namebase_string_name (VStr s) = false.
Proof.
  intros Hlen. unfold is_valid_namebase_string_name.
  destruct (negb (truthy (VStr s))); [reflexivity |].
  rewrite Hlen. reflexivity.
Qed.

(** C8, as the grammars stand: ["abc"] is a valid realm; ["-abc"] and
    ["ABC"] are invalid as realm and as subrealm; no string of 65 characters
    is valid; ["a1-x"] is a valid subrealm and a valid realm as well, since
    it starts with a letter; ["1a-x"] is a valid subrealm and an invalid
    realm. *)
Theorem name_grammar_examples :
  is_valid_realm_string_name (VStr "abc") = true
  /\ is_valid_realm_string_name (VStr "-abc") = false
  /\ is_valid_subrealm_string_name (VStr "-abc") = false
  /\ is_valid_realm_string_name (VStr "ABC") = false
  /\ is_valid_subrealm_string_name (VStr "ABC") = false
  /\ (forall s,
         (Str.len s =? 65)%nat
         && (is_valid_realm_string_name (VStr s)
             || is_valid_subrealm_string_name (VStr s)) = false)
  /\ is_valid_subrealm_string_name (VStr "a1-x") = true
  /\ is_valid_realm_string_name (VStr "a1-x") = true
  /\ is_valid_subrealm_string_name (VStr "1a-x") = true
  /\ is_valid_realm_string_name (VStr "1a-x") = false.
Proof.
  repeat split; try reflexivity.
  intros s. destruct (Str.len s =? 65)%nat eqn:Hlen; [| reflexivity].
  apply Nat.eqb_eq in Hlen.
  unfold is_valid_realm_string_name, is_valid_subrealm_string_name.
  rewrite (namebase_rejects_65 s Hlen). reflexivity.
Qed.

(** C8, the claim as written fails: [is_valid_realm_string_name("a1-x")]
    is [True]. *)
Lemma realm_a1x_is_valid :
  is_valid_realm_string_name (VStr "a1-x") <> false.
Proof. vm_compute. discriminate. Qed.

(** ** Name candidate arbitration *)

(** C9: a candidate revealed more than three blocks after its commit has
    status [expired_revealed_late] from both status functions, whatever the
    current height, the supplied status, the winner id and the payment
    fields. *)
Theorem late_reveal_overrides (current_height : Z) (info : atomical_info) (status : string) (candidate_id : option (list byte)) (name_type : string) :
  (cmi_commit_height (ai_mint_info info)
   < cmi_reveal_location_height (ai_mint_info info) - 3)%Z ->
  (exists d,
      get_name_request_candidate_status current_height info status candidate_id name_type = Ok d
      /\ status_of d = Some (VStr "expired_revealed_late"))
  /\ (exists d,
         get_subrealm_request_candidate_status current_height info status candidate_id = Ok d
         /\ status_of d = Some (VStr "expired_revealed_late")).
Proof.
  intros Hlate.
  assert (Hname : forall nt,
             get_name_request_candidate_status current_height info status candidate_id nt
             = Ok [("status", VStr "expired_revealed_late");
                   ("note", VStr ("The maximum number of blocks between commit and reveal is "
                                  +:+ py_str MINT_REALM_CONTAINER_TICKER_COMMIT_REVEAL_DELAY_BLOCKS
                                  +:+ " blocks"))]).
  { intros nt. unfold get_name_request_candidate_status,
      is_within_acceptable_blocks_for_name_reveal,
      MINT_REALM_CONTAINER_TICKER_COMMIT_REVEAL_DELAY_BLOCKS.
    destruct (Z.geb_spec (cmi_commit_height (ai_mint_info info))
                (cmi_reveal_location_height (ai_mint_info info) - 3)) as [Hge | Hlt].
    - lia.
    - reflexivity. }
  split.
  - eexists. split; [apply Hname | reflexivity].
  - eexists. unfold get_subrealm_request_candidate_status.
    rewrite Hname. split; reflexivity.
Qed.

(** C9 at a candidate committed at 100 and revealed at 104, presented as
    the verified winner. *)
Lemma late_reveal_overrides_witness :
  (exists d,
      get_name_request_candidate_status 200 late_candidate "verified"
        (Some (ai_atomical_id late_candidate)) "realm" = Ok d
      /\ status_of d = Some (VStr "expired_revealed_late"))
  /\ (exists d,
         get_subrealm_request_candidate_status 200 late_candidate "verified"
           (Some (ai_atomical_id late_candidate)) = Ok d
         /\ status_of d = Some (VStr "expired_revealed_late")).
Proof.
  apply (late_reveal_overrides 200 late_candidate "verified"
           (Some (ai_atomical_id late_candidate)) "realm").
  simpl. lia.
Defined.

(** ** Witness array *)

(** Inputs whose witness is empty leave the counter where it was. *)
Lemma empty_witnesses_keep_index loads tx tx_hash (k : nat) rest txin_idx :
  witness_array_loop loads tx tx_hash (replicate k [] ++ rest) txin_idx
  = witness_array_loop loads tx tx_hash rest txin_idx.
Proof.
  induction k as [| k IH]; [reflexivity |].
  cbn [replicate app witness_array_loop
         parse_protocols_operations_from_witness_for_input rbind].
  exact IH.
Qed.

(** C10 (the code departs from the claim): [txin_idx] is advanced only at
    the end of the loop body, which every [continue] skips.  Inputs whose
    witness yields nothing leave the counter where it was, however many
    they are, so an operation found at input 1 after such an input is
    reported with [input_index] 0 and with the previous-output reference of
    input 0. *)
Theorem skipped_input_does_not_advance_index :
  (forall loads tx tx_hash (k : nat) rest txin_idx,
      witness_array_loop loads tx tx_hash (replicate k [] ++ rest) txin_idx
      = witness_array_loop loads tx tx_hash rest txin_idx)
  /\ exists s,
       parse_protocols_operations_from_witness_array cbor_fragment_loads
         tx_operation_at_input_1 sample_tx_hash = Ok (Operation s)
       /\ input_index s = 0%nat
       /\ commit_txid s = prev_hash sample_input_0
       /\ commit_index s = prev_idx sample_input_0
       /\ commit_location s = prev_hash sample_input_0 ++ unhex "07000000"
       /\ commit_txid s <> prev_hash sample_input_1.
Proof.
  split; [exact empty_witnesses_keep_index |].
  eexists. split; [vm_compute; reflexivity |].
  repeat split. vm_compute. discriminate.
Qed.

(** ** Fungible-token output colouring *)

Section Colouring.

Variable skip : Z.

(** Once the skipping is over, the loop is the colouring phase. *)
Lemma ft_output_loop_color outs : forall idx st,
  (skip >? 0)%Z && (total_skipped_so_far st <? skip)%Z = false ->
  let d := spec_color (remaining_value st) (map value outs) idx in
  ft_output_loop skip outs idx st
  = {| expected_output_indexes := expected_output_indexes st ++ fst d;
       remaining_value := snd d;
       total_skipped_so_far := total_skipped_so_far st |}.
Proof.
  induction outs as [| txout rest IH]; intros idx st Hdone; simpl.
  - rewrite app_nil_r. destruct st; reflexivity.
  - rewrite Hdone.
    destruct (value txout <=? remaining_value st)%Z eqn:Hfits.
    + rewrite IH by exact Hdone. simpl.
      destruct (spec_color (remaining_value st - value txout) (map value rest) (S idx))
        as [colored amount_left]. simpl.
      rewrite <- app_assoc. reflexivity.
    + simpl. rewrite app_nil_r. destruct st; reflexivity.
Qed.

(** With a positive skip amount the loop is the skipping phase followed
    by the colouring phase. *)
Lemma ft_output_loop_skip outs : forall idx st,
  (0 < skip)%Z ->
  let d := spec_skip_then_color skip (total_skipped_so_far st)
             (remaining_value st) (map value outs) idx in
  expected_output_indexes (ft_output_loop skip outs idx st)
  = expected_output_indexes st ++ fst d
  /\ remaining_value (ft_output_loop skip outs idx st) = snd d.
Proof.
  induction outs as [| txout rest IH]; intros idx st Hpos; simpl.
  - rewrite app_nil_r. split; reflexivity.
  - assert (Hgt : (skip >? 0)%Z = true) by (apply Z.gtb_lt; lia).
    rewrite Hgt. simpl.
    destruct (total_skipped_so_far st <? skip)%Z eqn:Hbelow.
    + apply (IH (S idx)
               {| expected_output_indexes := expected_output_indexes st;
                  remaining_value := remaining_value st;
                  total_skipped_so_far := total_skipped_so_far st + value txout |}
               Hpos).
    + pose proof (ft_output_loop_color (txout :: rest) idx st) as Hcolor.
      simpl in Hcolor. rewrite Hgt, Hbelow in Hcolor. simpl in Hcolor.
      rewrite Hcolor by reflexivity. simpl. split; reflexivity.
Qed.

(** From the initial state the loop computes the specified distribution. *)
Lemma ft_output_loop_spec remaining outs :
  let st := ft_output_loop skip outs 0
              {| expected_output_indexes := [];
                 remaining_value := remaining;
                 total_skipped_so_far := 0 |} in
  let d := spec_distribution remaining skip (map value outs) in
  expected_output_indexes st = fst d /\ remaining_value st = snd d.
Proof.
  unfold spec_distribution.
  destruct (Z.ltb_spec 0 skip) as [Hpos | Hnone].
  - apply (ft_output_loop_skip outs 0
             {| expected_output_indexes := [];
                remaining_value := remaining;
                total_skipped_so_far := 0 |} Hpos).
  - rewrite ft_output_loop_color; simpl.
    + destruct outs as [| txout rest]; simpl; [split; reflexivity |].
      destruct (Z.ltb_spec 0 skip); [lia |]. split; reflexivity.
    + destruct (Z.gtb_spec skip 0); [lia | reflexivity].
Qed.

End Colouring.

(** C5: [get_expected_output_indexes_of_atomical_ft] colours the outputs as
    specified.  For a record of type FT and an id that has a compact form,
    the indexes returned and the amount left are those of the two phases
    (skip while the accumulated skipped value is below the skip amount, then
    colour while the output value does not exceed the remaining value, and
    stop at the first output that exceeds it); otherwise the function
    raises.  With 1000 remaining and no skip, outputs 400, 400, 300 give
    [0, 1]; with 1000 remaining and a skip of 500, outputs 300, 300, 500,
    200 give [2, 3] and leave 300. *)
Theorem ft_distribution_as_specified :
  (forall mint_info tx atomical_id atomicals_operations_found,
      let specified :=
        if negb (String.eqb (mi_type mint_info) "FT") then Raise AssertionError
        else
          let* compact_atomical_id := location_id_bytes_to_compact atomical_id in
          Ok (spec_distribution (mi_value mint_info)
                (ft_total_amount_to_skip compact_atomical_id atomicals_operations_found)
                (map value (outputs tx))) in
      get_expected_output_indexes_of_atomical_ft mint_info tx atomical_id
        atomicals_operations_found
      = (let* d := specified in Ok (fst d))
      /\ (let* st := ft_final_state mint_info tx atomical_id atomicals_operations_found in
          Ok (remaining_value st))
         = (let* d := specified in Ok (snd d)))
  /\ get_expected_output_indexes_of_atomical_ft sample_ft
       (tx_with_outputs [400; 400; 300]%Z) sample_atomical_id None
     = Ok [0; 1]%nat
  /\ get_expected_output_indexes_of_atomical_ft sample_ft
       (tx_with_outputs [300; 300; 500; 200]%Z) sample_atomical_id (Some skip_500)
     = Ok [2; 3]%nat
  /\ (let* st := ft_final_state sample_ft (tx_with_outputs [300; 300; 500; 200]%Z)
                   sample_atomical_id (Some skip_500) in
      Ok (remaining_value st)) = Ok 300%Z.
Proof.
  split; [| repeat split; vm_compute; reflexivity].
  intros mint_info tx atomical_id ops.
  unfold get_expected_output_indexes_of_atomical_ft, ft_final_state.
  destruct (negb (String.eqb (mi_type mint_info) "FT")); [split; reflexivity |].
  destruct (location_id_bytes_to_compact atomical_id) as [cid | e];
    [| split; reflexivity].
  simpl.
  destruct (ft_output_loop_spec (ft_total_amount_to_skip cid ops)
              (mi_value mint_info) (outputs tx)) as [Hidx Hrem].
  simpl in Hidx, Hrem. rewrite Hidx, Hrem. split; reflexivity.
Qed.

(** ** Subrealm rule history *)

Section Collapse.

Implicit Types (history : list modpath_item) (st : collapse_state).

Lemma history_ordered_bound history : forall ph pt,
  history_ordered ph pt history = true ->
  forall item, item ∈ history -> (tx_num item < pt)%Z.
Proof.
  induction history as [| x rest IH]; intros ph pt Hord item Hin.
  - inversion Hin.
  - simpl in Hord. apply andb_prop in Hord as [Hhd Hrest].
    apply andb_prop in Hhd as [_ Htx]. apply Z.ltb_lt in Htx.
    apply elem_of_cons in Hin as [-> | Hin]; [exact Htx |].
    specialize (IH _ _ Hrest item Hin). lia.
Qed.

(** In an ordered list the first record at a height carries the highest
    [tx_num] of that height. *)
Lemma first_at_highest history : forall ph pt h kept,
  history_ordered ph pt history = true ->
  first_at h history = Some kept ->
  kept ∈ history /\ height kept = h
  /\ forall item, item ∈ history -> height item = h ->
                  (tx_num item <= tx_num kept)%Z.
Proof.
  induction history as [| x rest IH]; intros ph pt h kept Hord Hfirst.
  - discriminate.
  - simpl in Hord, Hfirst. apply andb_prop in Hord as [_ Hrest].
    destruct (Z.eqb_spec (height x) h) as [Hx | Hx].
    + injection Hfirst as <-. split; [apply list_elem_of_here |].
      split; [exact Hx |]. intros item Hin _.
      apply elem_of_cons in Hin as [-> | Hin]; [lia |].
      pose proof (history_ordered_bound rest _ _ Hrest item Hin). lia.
    + destruct (IH _ _ h kept Hrest Hfirst) as (Hin & Hh & Hmax).
      split; [apply list_elem_of_further; exact Hin |].
      split; [exact Hh |]. intros item Hitem Hheight.
      apply elem_of_cons in Hitem as [-> | Hitem]; [contradiction |].
      apply Hmax; assumption.
Qed.

Lemma first_at_is_Some h history :
  is_Some (first_at h history) <-> exists item, item ∈ history /\ height item = h.
Proof.
  induction history as [| x rest IH]; simpl.
  - split; [intros [? ?]; discriminate | intros (? & Hin & _); inversion Hin].
  - destruct (Z.eqb_spec (height x) h) as [Hx | Hx].
    + split; [intros _; exists x; split; [apply list_elem_of_here | exact Hx] | eauto].
    + rewrite IH. split.
      * intros (item & Hin & Hh). exists item.
        split; [apply list_elem_of_further; exact Hin | exact Hh].
      * intros (item & Hin & Hh). exists item.
        apply elem_of_cons in Hin as [-> | Hin]; [contradiction | tauto].
Qed.

(** On an ordered list the loop raises nothing, and the map it builds
    keeps what it held and adds, for each new height, the first record at
    that height. *)
Lemma collapse_loop_first history : forall st,
  history_ordered (prev_height st) (prev_tx_num st) history = true ->
  exists st',
    collapse_loop history st = Ok st'
    /\ forall h, collapsed st' !! h
                 = match collapsed st !! h with
                   | Some kept => Some kept
                   | None => first_at h history
                   end.
Proof.
  induction history as [| x rest IH]; intros st Hord.
  - exists st. split; [reflexivity |]. intros h. simpl.
    destruct (collapsed st !! h); reflexivity.
  - simpl in Hord. apply andb_prop in Hord as [Hhd Hrest].
    apply andb_prop in Hhd as [Hheight Htx].
    simpl. unfold collapse_step. rewrite Hheight, Htx. simpl.
    match goal with
    | |- context [collapse_loop rest ?s] => destruct (IH s Hrest) as (st' & Hrun & Hmap)
    end.
    exists st'. split; [exact Hrun |].
    intros h. rewrite Hmap. simpl.
    destruct (Z.eqb_spec (height x) h) as [-> | Hx].
    + rewrite lookup_insert_eq. destruct (collapsed st !! h); reflexivity.
    + rewrite lookup_insert_ne by exact Hx. reflexivity.
Qed.

End Collapse.

(** C7: on a history sorted the way the code asserts (heights never
    increasing, [tx_num] strictly decreasing, both below the initial bounds)
    [create_collapsed_height_to_mod_path_history_items_map] returns a map
    that has an entry exactly for the heights of the history, and the entry
    at a height is a record of the history at that height with the highest
    [tx_num] among the records at that height. *)
Theorem collapse_keeps_highest_tx_num (history : list modpath_item) :
  history_sorted history = true ->
  exists m,
    create_collapsed_height_to_mod_path_history_items_map history = Ok m
    /\ (forall h, is_Some (m !! h) <-> exists item, item ∈ history /\ height item = h)
    /\ (forall h kept,
           m !! h = Some kept ->
           kept ∈ history /\ height kept = h
           /\ forall item, item ∈ history -> height item = h ->
                           (tx_num item <= tx_num kept)%Z).
Proof.
  intros Hsorted. unfold create_collapsed_height_to_mod_path_history_items_map.
  destruct (collapse_loop_first history
              {| collapsed := ∅; prev_height := 99999999999; prev_tx_num := 99999999999 |}
              Hsorted) as (st' & Hrun & Hmap).
  exists (collapsed st'). rewrite Hrun. split; [reflexivity |].
  assert (Hlookup : forall h, collapsed st' !! h = first_at h history).
  { intros h. rewrite Hmap. simpl. rewrite lookup_empty. reflexivity. }
  split.
  - intros h. rewrite Hlookup. apply first_at_is_Some.
  - intros h kept Hkept. rewrite Hlookup in Hkept.
    exact (first_at_highest history _ _ h kept Hsorted Hkept).
Qed.

(** C7 on three updates, two of which share the height 120: the map has the
    two heights, and height 120 keeps the update with [tx_num] 57. *)
Lemma collapse_keeps_highest_tx_num_witness :
  exists m,
    create_collapsed_height_to_mod_path_history_items_map sample_history = Ok m
    /\ (forall h, is_Some (m !! h) <-> exists item, item ∈ sample_history /\ height item = h)
    /\ (forall h kept,
           m !! h = Some kept ->
           kept ∈ sample_history /\ height kept = h
           /\ forall item, item ∈ sample_history -> height item = h ->
                           (tx_num item <= tx_num kept)%Z).
Proof.
  apply (collapse_keeps_highest_tx_num sample_history).
  vm_compute. reflexivity.
Defined.

(** ** Script tokenizer *)

Section Tokenizer.

Implicit Types (script : list byte) (n fuel : nat).

Lemma byte_at_lt script n op : byte_at script n = Ok op -> (n < length script)%nat.
Proof.
  unfold byte_at. destruct (script !! n) eqn:Hn; [| discriminate].
  intros _. eapply lookup_lt_Some. exact Hn.
Qed.

(** A push that is read moves the position forward. *)
Lemma parse_push_data_advances op n script data n' dlen :
  parse_push_data op n script = Ok (data, n', dlen) -> (n <= n')%nat.
Proof.
  unfold parse_push_data.
  destruct (op <=? OpCodes.OP_PUSHDATA4)%N; [| discriminate].
  destruct (op <? OpCodes.OP_PUSHDATA1)%N.
  { simpl. destruct (_ <? _)%nat; [discriminate |].
    intros [= _ <- _]. lia. }
  destruct (op =? OpCodes.OP_PUSHDATA1)%N.
  { destruct (byte_at script n); simpl; [| discriminate].
    destruct (_ <? _)%nat; [discriminate |]. intros [= _ <- _]. lia. }
  destruct (op =? OpCodes.OP_PUSHDATA2)%N.
  { destruct (unpack_le_uint16_from _); simpl; [| discriminate].
    destruct (_ <? _)%nat; [discriminate |]. intros [= _ <- _]. lia. }
  destruct (unpack_le_uint32_from _); simpl; [| discriminate].
  destruct (_ <? _)%nat; [discriminate |]. intros [= _ <- _]. lia.
Qed.

(** With enough fuel the payload loop raises when a malformed push lies
    ahead. *)
Lemma data_definition_loop_raises script n :
  malformed_push_ahead script n ->
  forall fuel acc,
    (length script - n <= fuel)%nat ->
    exists e, data_definition_loop fuel script n acc = Raise e.
Proof.
  induction 1 as [n op e Hop Hpush Hbad
                 | n op data n' dlen Hop Hpush Hread _ IH
                 | n op Hop Hpush Hendif _ IH];
    intros fuel acc Hfuel;
    pose proof (byte_at_lt _ _ _ Hop) as Hlt;
    (destruct fuel as [| fuel]; [lia |]); simpl;
    (destruct (Nat.ltb_spec n (length script)); [| lia]);
    rewrite Hop; simpl.
  - assert (Hne : (op =? OpCodes.OP_ENDIF)%N = false).
    { apply N.eqb_neq. apply N.leb_le in Hpush.
      unfold OpCodes.OP_PUSHDATA4, OpCodes.OP_ENDIF in *. lia. }
    rewrite Hne, Hpush, Hbad. simpl. eauto.
  - assert (Hne : (op =? OpCodes.OP_ENDIF)%N = false).
    { apply N.eqb_neq. apply N.leb_le in Hpush.
      unfold OpCodes.OP_PUSHDATA4, OpCodes.OP_ENDIF in *. lia. }
    rewrite Hne, Hpush, Hread. simpl.
    apply IH. apply parse_push_data_advances in Hread. lia.
  - apply N.eqb_neq in Hendif. rewrite Hendif, Hpush.
    apply IH. lia.
Qed.

Lemma data_definition_raises_script_error script n :
  malformed_push_ahead script n ->
  parse_atomicals_data_definition_operation script n = Raise ScriptError.
Proof.
  intros Hbad. unfold parse_atomicals_data_definition_operation.
  destruct (data_definition_loop_raises script n Hbad (length script) []) as [e ->];
    [lia | reflexivity].
Qed.

(** A literal push whose length exceeds what is left is malformed. *)
Lemma literal_push_overrun script n op :
  byte_at script n = Ok op ->
  (op < OpCodes.OP_PUSHDATA1)%N ->
  (length script < n + 1 + N.to_nat op)%nat ->
  malformed_push_ahead script n.
Proof.
  intros Hop Hlit Hover. apply (malformed_here script n op IndexError Hop).
  - apply N.leb_le. unfold OpCodes.OP_PUSHDATA1, OpCodes.OP_PUSHDATA4 in *. lia.
  - unfold parse_push_data.
    assert (H4 : (op <=? OpCodes.OP_PUSHDATA4)%N = true).
    { apply N.leb_le. unfold OpCodes.OP_PUSHDATA1, OpCodes.OP_PUSHDATA4 in *. lia. }
    rewrite H4. apply N.ltb_lt in Hlit. rewrite Hlit. simpl.
    destruct (Nat.ltb_spec (length script) (n + 1 + N.to_nat op)); [reflexivity | lia].
Qed.

(** One turn of the inner loop at an [OP_IF] followed by the marker. *)
Lemma envelope_loop_at_marker fuel script n :
  (n < length script - 5)%nat ->
  byte_at script n = Ok OpCodes.OP_IF ->
  bytes_hex (slice script (n + 1) (n + 1 + 5)) = ATOMICALS_ENVELOPE_MARKER_BYTES ->
  envelope_loop (S fuel) script n
  = let* r := parse_operation_from_script script (n + 1 + 5) in
    match r with
    | Some (operation_type, payload) => Ok (Return operation_type payload)
    | None => Ok (Continue (n + 1) true)
    end.
Proof.
  intros Hn Hop Hmarker. simpl.
  destruct (Nat.ltb_spec n (length script - 5)); [| lia].
  rewrite Hop. simpl. rewrite Hmarker. reflexivity.
Qed.

(** One turn of the outer loop at the push of a 32-byte key. *)
Lemma pubkey_loop_at_key fuel script n :
  (n < length script - 5)%nat ->
  byte_at script n = Ok 32%N ->
  (n + 1 + 32 <= length script)%nat ->
  pubkey_loop (S fuel) script n
  = let* r := envelope_loop (length script) script (n + 1 + 32) in
    match r with
    | Return operation_type payload => Ok (Some (operation_type, payload))
    | Continue n' found_operation_definition =>
        if found_operation_definition then Ok None
        else pubkey_loop fuel script n'
    end.
Proof.
  intros Hn Hop Hkey. simpl.
  destruct (Nat.ltb_spec n (length script - 5)); [| lia].
  rewrite Hop. simpl.
  destruct (Nat.leb_spec (n + 1 + 32) (length script)); [| lia].
  reflexivity.
Qed.

(** Elements that yield nothing do not affect what the scan returns. *)
Lemma witness_for_input_app before l :
  parse_protocols_operations_from_witness_for_input before = Ok None ->
  parse_protocols_operations_from_witness_for_input (before ++ l)
  = parse_protocols_operations_from_witness_for_input l.
Proof.
  induction before as [| script rest IH]; intros Hnone; [reflexivity |].
  simpl in *.
  destruct (_ || _); [exact (IH Hnone) |].
  destruct (pubkey_loop (length script) script 0) as [[found |] | e]; simpl in *;
    [discriminate | exact (IH Hnone) | discriminate].
Qed.

Lemma locate_operation_bound script n name start :
  locate_operation script n = Some (name, start) ->
  (n + 2 < length script)%nat.
Proof.
  unfold locate_operation, try_op_len. intros H.
  destruct (Nat.ltb_spec (n + 4) (length script)); [lia |].
  destruct (Nat.ltb_spec (n + 3) (length script)); [lia |].
  destruct (Nat.ltb_spec (n + 2) (length script)); [lia | discriminate].
Qed.

End Tokenizer.

(** ** Fuel of the tokenizer loops *)

Section Fuel.

Implicit Types (script : list byte) (n fuel : nat).

(** The payload loop does not depend on its fuel once the fuel covers the
    rest of the script; the script length always does. *)
Lemma data_definition_loop_fuel script : forall fuel1 fuel2 n acc,
  (length script - n <= fuel1)%nat ->
  (length script - n <= fuel2)%nat ->
  data_definition_loop fuel1 script n acc = data_definition_loop fuel2 script n acc.
Proof.
  induction fuel1 as [| fuel1 IH]; intros fuel2 n acc H1 H2.
  - destruct fuel2 as [| fuel2]; [reflexivity |]. simpl.
    destruct (Nat.ltb_spec n (length script)); [lia | reflexivity].
  - destruct fuel2 as [| fuel2]; simpl.
    + destruct (Nat.ltb_spec n (length script)); [lia | reflexivity].
    + destruct (Nat.ltb_spec n (length script)); [| reflexivity].
      destruct (byte_at script n) as [op | e]; [| reflexivity]. cbn [rbind].
      destruct (op =? OpCodes.OP_ENDIF)%N; [reflexivity |].
      destruct (op <=? OpCodes.OP_PUSHDATA4)%N.
      * destruct (parse_push_data op (n + 1) script) as [[[data n'] dlen] | e] eqn:Hpush;
          [| reflexivity].
        cbn [rbind]. apply parse_push_data_advances in Hpush.
        apply IH; lia.
      * apply IH; lia.
Qed.

(** Where the inner loop stops without returning, it has not moved
    backwards. *)
Lemma envelope_loop_continue fuel script : forall n n' found,
  envelope_loop fuel script n = Ok (Continue n' found) -> (n <= n')%nat.
Proof.
  induction fuel as [| fuel IH]; intros n n' found; cbn [envelope_loop].
  - intros [= <- _]. lia.
  - destruct (n <? length script - 5)%nat; [| intros [= <- _]; lia].
    destruct (byte_at script n) as [op | e]; [| discriminate]. cbn [rbind].
    destruct (op =? OpCodes.OP_IF)%N.
    + destruct (String.eqb ATOMICALS_ENVELOPE_MARKER_BYTES _);
        [| intros [= <- _]; lia].
      destruct (parse_operation_from_script script (n + 1 + 5)) as [[[t p] |] | e];
        cbn [rbind]; [discriminate | intros [= <- _]; lia | discriminate].
    + intros H. apply IH in H. lia.
Qed.

Lemma envelope_loop_fuel script : forall fuel1 fuel2 n,
  (length script - 5 - n <= fuel1)%nat ->
  (length script - 5 - n <= fuel2)%nat ->
  envelope_loop fuel1 script n = envelope_loop fuel2 script n.
Proof.
  induction fuel1 as [| fuel1 IH]; intros fuel2 n H1 H2.
  - destruct fuel2 as [| fuel2]; [reflexivity |]. simpl.
    destruct (Nat.ltb_spec n (length script - 5)); [lia | reflexivity].
  - destruct fuel2 as [| fuel2]; simpl.
    + destruct (Nat.ltb_spec n (length script - 5)); [lia | reflexivity].
    + destruct (Nat.ltb_spec n (length script - 5)); [| reflexivity].
      destruct (byte_at script n) as [op | e]; [| reflexivity]. cbn [rbind].
      destruct (op =? OpCodes.OP_IF)%N; [reflexivity |].
      apply IH; lia.
Qed.

Lemma pubkey_loop_fuel script : forall fuel1 fuel2 n,
  (length script - 5 - n <= fuel1)%nat ->
  (length script - 5 - n <= fuel2)%nat ->
  pubkey_loop fuel1 script n = pubkey_loop fuel2 script n.
Proof.
  induction fuel1 as [| fuel1 IH]; intros fuel2 n H1 H2.
  - destruct fuel2 as [| fuel2]; [reflexivity |]. simpl.
    destruct (Nat.ltb_spec n (length script - 5)); [lia | reflexivity].
  - destruct fuel2 as [| fuel2]; simpl.
    + destruct (Nat.ltb_spec n (length script - 5)); [lia | reflexivity].
    + destruct (Nat.ltb_spec n (length script - 5)); [| reflexivity].
      destruct (byte_at script n) as [op | e]; [| reflexivity]. cbn [rbind].
      destruct (_ && _); [| reflexivity].
      destruct (envelope_loop (length script) script (n + 1 + 32))
        as [[t p | n' found] | e] eqn:Hinner; cbn [rbind]; try reflexivity.
      destruct found; [reflexivity |].
      apply envelope_loop_continue in Hinner. apply IH; lia.
Qed.

End Fuel.




(** ** Decimal text *)

Section Decimal.

Lemma digits_value_of_uint_acc d : forall acc,
  Z.pos (Pos.of_uint_acc d acc) = digits_value d (Z.pos acc).
Proof.
  induction d; intros acc; simpl; try reflexivity; rewrite IHd; f_equal; lia.
Qed.

Lemma digits_value_of_uint d : Z.of_N (Pos.of_uint d) = digits_value d 0.
Proof.
  induction d; simpl; try reflexivity; try exact IHd;
    rewrite digits_value_of_uint_acc; reflexivity.
Qed.

Lemma int_digits_of_uint d : forall acc,
  int_digits (DecimalString.NilEmpty.string_of_uint d) acc = Some (digits_value d acc).
Proof.
  induction d; intros acc; simpl; try reflexivity; rewrite IHd; reflexivity.
Qed.

Lemma unsigned_int_of_uint d :
  d <> Decimal.Nil ->
  unsigned_int (DecimalString.NilEmpty.string_of_uint d) = Some (digits_value d 0).
Proof.
  destruct d; intros Hd; try contradiction; simpl;
    rewrite int_digits_of_uint; reflexivity.
Qed.

Lemma all_digits_of_uint d : all_digits (DecimalString.NilEmpty.string_of_uint d) = true.
Proof. induction d; simpl; try reflexivity; exact IHd. Qed.

Lemma digit_not_space c : is_digit c = true -> is_space c = false.
Proof.
  destruct c as [[] [] [] [] [] [] [] []]; vm_compute; intros H;
    first [discriminate | reflexivity].
Qed.

Lemma lstrip_digits s : all_digits s = true -> lstrip s = s.
Proof.
  destruct s as [| c s]; [reflexivity |]. simpl.
  intros H. apply andb_prop in H as [Hc _].
  rewrite (digit_not_space c Hc). reflexivity.
Qed.

Lemma rstrip_digits s : all_digits s = true -> rstrip s = s.
Proof.
  induction s as [| c s IH]; [reflexivity |]. simpl.
  intros H. apply andb_prop in H as [Hc Hs]. rewrite (IH Hs).
  destruct s; [| reflexivity]. rewrite (digit_not_space c Hc). reflexivity.
Qed.

(** A text that starts with a digit carries no sign. *)
Lemma unsigned_head c s :
  is_digit c = true ->
  py_int (String c s)
  = match unsigned_int (rstrip (lstrip (String c s))) with
    | Some v => Ok (1 * v)%Z
    | None => Raise ValueError
    end.
Proof.
  intros Hc. unfold py_int.
  assert (Hl : lstrip (String c s) = String c s).
  { simpl. rewrite (digit_not_space c Hc). reflexivity. }
  rewrite Hl.
  assert (Hr : exists r, rstrip (String c s) = String c r).
  { simpl. destruct (rstrip s); [| eauto].
    rewrite (digit_not_space c Hc). eauto. }
  destruct Hr as [r ->].
  destruct c as [[] [] [] [] [] [] [] []]; vm_compute in Hc;
    first [discriminate | reflexivity].
Qed.

(** [int(str(n)) == n] for a number that is not negative. *)
Lemma py_int_py_str n : (0 <= n)%Z -> py_int (py_str n) = Ok n.
Proof.
  intros Hn. unfold py_str. destruct n as [| p | p]; [reflexivity | | lia].
  simpl. unfold DecimalString.NilZero.string_of_uint.
  pose proof (DecimalPos.Unsigned.to_uint_nonnil p) as Hnonnil.
  pose proof (DecimalPos.Unsigned.of_to p) as Hback.
  pose proof (all_digits_of_uint (Pos.to_uint p)) as Hdigits.
  pose proof (unsigned_int_of_uint (Pos.to_uint p) Hnonnil) as Hvalue.
  rewrite <- digits_value_of_uint, Hback in Hvalue. simpl in Hvalue.
  destruct (Pos.to_uint p) eqn:Hd; try contradiction;
    simpl DecimalString.NilEmpty.string_of_uint in *;
    (rewrite unsigned_head by reflexivity);
    rewrite lstrip_digits, rstrip_digits by exact Hdigits;
    rewrite Hvalue; reflexivity.
Qed.

Lemma py_str_digits n : (0 <= n)%Z -> all_digits (py_str n) = true.
Proof.
  intros Hn. unfold py_str. destruct n as [| p | p]; [reflexivity | | lia].
  simpl. unfold DecimalString.NilZero.string_of_uint.
  pose proof (all_digits_of_uint (Pos.to_uint p)).
  destruct (Pos.to_uint p); [reflexivity | assumption ..].
Qed.

End Decimal.

(** ** Hexadecimal text and little-endian integers *)

Section HexAndBytes.

Lemma byte_val_bound x : (byte_val x < 256)%N.
Proof. pose proof (Strings.Byte.to_N_bounded x). unfold byte_val. lia. Qed.

Lemma byte_of_val x : byte_of (byte_val x) = x.
Proof.
  unfold byte_of, byte_val.
  rewrite N.mod_small by apply byte_val_bound.
  rewrite Strings.Byte.of_to_N. reflexivity.
Qed.

Lemma byte_val_of n : byte_val (byte_of n) = (n mod 256)%N.
Proof.
  unfold byte_of, byte_val.
  destruct (Strings.Byte.of_N (n mod 256)) as [b |] eqn:Hb.
  - apply Strings.Byte.to_of_N. exact Hb.
  - apply Strings.Byte.of_N_None_iff in Hb.
    pose proof (N.mod_upper_bound n 256). lia.
Qed.

(** Reading back the two digits of a byte. *)
Lemma fromhex_hex_byte x s :
  bytes_fromhex (String (hex_digit (byte_val x / 16))
                   (String (hex_digit (byte_val x mod 16)) s))
  = let* rest := bytes_fromhex s in Ok (x :: rest).
Proof. destruct x; reflexivity. Qed.

Lemma fromhex_hex b : bytes_fromhex (bytes_hex b) = Ok b.
Proof.
  induction b as [| x rest IH]; [reflexivity |].
  cbn [bytes_hex]. rewrite fromhex_hex_byte, IH. reflexivity.
Qed.

Lemma hex_length b : Str.len (bytes_hex b) = (2 * length b)%nat.
Proof.
  induction b as [| x rest IH]; [reflexivity |].
  cbn [bytes_hex length]. unfold Str.len in *. simpl. rewrite IH. lia.
Qed.

Lemma hex_is_lower_hex b : lower_hex (bytes_hex b) = true.
Proof.
  induction b as [| x rest IH]; [reflexivity |].
  cbn [bytes_hex]. revert IH. generalize (bytes_hex rest). intros s IH.
  destruct x; simpl; exact IH.
Qed.

(** A lower-case hexadecimal digit is the digit of its value. *)
Lemma lower_hex_char c k :
  char_map c = Some k ->
  (0 <= k < 16)%Z /\ c = hex_digit (Z.to_N k)
  /\ hex_val c = Some (Z.to_N k) /\ is_ascii_space c = false.
Proof.
  destruct c as [[] [] [] [] [] [] [] []]; vm_compute; intros H;
    first [discriminate | injection H as <-; repeat split; discriminate].
Qed.

Lemma hex_digit_pair hi lo :
  (hi < 16)%N -> (lo < 16)%N ->
  (byte_val (byte_of (16 * hi + lo)) / 16 = hi)%N
  /\ (byte_val (byte_of (16 * hi + lo)) mod 16 = lo)%N.
Proof.
  intros Hhi Hlo. rewrite byte_val_of.
  rewrite N.mod_small by lia.
  split.
  - symmetry. apply (N.div_unique _ 16 hi lo); lia.
  - symmetry. apply (N.mod_unique _ 16 hi lo); lia.
Qed.

(** A lower-case hexadecimal text of even length decodes, and encoding
    the bytes gives the text back. *)
Lemma hex_fromhex n : forall s,
  Str.len s = (2 * n)%nat ->
  lower_hex s = true ->
  exists b, bytes_fromhex s = Ok b /\ bytes_hex b = s /\ length b = n.
Proof.
  induction n as [| n IH]; intros s Hlen Hhex.
  - destruct s; [| discriminate]. exists []. repeat split.
  - destruct s as [| c [| d s]];
      try (unfold Str.len in Hlen; simpl in Hlen; lia).
    simpl in Hhex.
    destruct (char_map c) as [hi |] eqn:Hc; [| discriminate].
    destruct (char_map d) as [lo |] eqn:Hd; [| discriminate].
    destruct (lower_hex_char c hi Hc) as (Hhi & -> & Hvc & Hsc).
    destruct (lower_hex_char d lo Hd) as (Hlo & -> & Hvd & _).
    destruct (IH s) as (b & Hb & Hback & Hn);
      [unfold Str.len in *; simpl in Hlen; lia | exact Hhex |].
    exists (byte_of (16 * Z.to_N hi + Z.to_N lo) :: b).
    destruct (hex_digit_pair (Z.to_N hi) (Z.to_N lo)) as [Hq Hr]; [lia | lia |].
    repeat split.
    + cbn [bytes_fromhex]. rewrite Hsc, Hvc, Hvd, Hb. reflexivity.
    + cbn [bytes_hex]. rewrite Hq, Hr, Hback. reflexivity.
    + simpl. rewrite Hn. reflexivity.
Qed.

Lemma le_value_bytes width : forall n,
  le_value (le_bytes width n) = (n mod 256 ^ N.of_nat width)%N.
Proof.
  induction width as [| w IH]; intros n.
  - simpl. rewrite N.mod_1_r. reflexivity.
  - cbn [le_bytes le_value]. rewrite byte_val_of, IH.
    replace (N.of_nat (S w)) with (N.succ (N.of_nat w)) by lia.
    rewrite N.pow_succ_r'.
    rewrite (N.Div0.mod_mul_r n 256 (256 ^ N.of_nat w)). lia.
Qed.

Lemma le_bytes_value b : le_bytes (length b) (le_value b) = b.
Proof.
  induction b as [| x rest IH]; [reflexivity |].
  cbn [length le_bytes le_value].
  pose proof (byte_val_bound x) as Hx.
  f_equal.
  - unfold byte_of.
    replace ((byte_val x + 256 * le_value rest) mod 256)%N with (byte_val x).
    + unfold byte_val. rewrite Strings.Byte.of_to_N. reflexivity.
    + apply (N.mod_unique _ 256 (le_value rest)); lia.
  - replace ((byte_val x + 256 * le_value rest) / 256)%N with (le_value rest);
      [exact IH |].
    apply (N.div_unique _ 256 (le_value rest) (byte_val x)); lia.
Qed.

Lemma le_value_bound b : (le_value b < 256 ^ N.of_nat (length b))%N.
Proof.
  induction b as [| x rest IH]; [simpl; lia |].
  cbn [length le_value]. pose proof (byte_val_bound x).
  replace (N.of_nat (S (length rest))) with (N.succ (N.of_nat (length rest))) by lia.
  rewrite N.pow_succ_r'. lia.
Qed.

Lemma le_bytes_length width n : length (le_bytes width n) = width.
Proof. revert n. induction width; intros n; simpl; [| rewrite IHwidth]; reflexivity. Qed.

End HexAndBytes.

(** ** Atomical id codec *)

Section Codec.

Lemma lower_hex_not_i c k : char_map c = Some k -> Ascii.eqb c "i" = false.
Proof.
  destruct c as [[] [] [] [] [] [] [] []]; vm_compute; intros H;
    first [discriminate | reflexivity].
Qed.

Lemma find_i_after_hex h rest :
  lower_hex h = true ->
  Str.find "i" (h +:+ String "i" rest) = Some (Str.len h).
Proof.
  induction h as [| c h IH]; intros Hhex; [reflexivity |].
  simpl in Hhex. destruct (char_map c) eqn:Hc; [| discriminate].
  simpl. rewrite (lower_hex_not_i c _ Hc), (IH Hhex).
  reflexivity.
Qed.

Lemma take_app_len h rest k :
  Str.len h = k -> Str.take k (h +:+ rest) = h.
Proof.
  intros <-. induction h as [| c h IH]; [destruct rest; reflexivity |].
  unfold Str.len in *. simpl. rewrite IH. reflexivity.
Qed.

Lemma drop_app_len h c rest k :
  Str.len h = k -> Str.drop (S k) (h +:+ String c rest) = rest.
Proof.
  intros <-. induction h as [| c' h IH]; [reflexivity |].
  unfold Str.len in *. simpl. exact IH.
Qed.

(** The binary form of a compact id with a lower-case hexadecimal hash
    and the printed decimal of an index up to 100000. *)
Lemma compact_to_location_id_bytes_canonical h n :
  Str.len h = 64%nat -> lower_hex h = true -> (0 <= n <= 100000)%Z ->
  exists raw,
    bytes_hex raw = h /\ length raw = 32%nat
    /\ compact_to_location_id_bytes (h +:+ "i" +:+ py_str n)
       = Ok (raw ++ le_bytes 4 (Z.to_N n)).
Proof.
  intros Hlen Hhex Hn.
  destruct (hex_fromhex 32 h Hlen Hhex) as (raw & Hraw & Hback & Hraw_len).
  exists raw. split; [exact Hback |]. split; [exact Hraw_len |].
  unfold compact_to_location_id_bytes, hex_str_to_hash.
  change ("i" +:+ py_str n) with (String "i" (py_str n)).
  rewrite (find_i_after_hex h _ Hhex), (take_app_len h _ 64 Hlen),
    (drop_app_len h _ _ 64 Hlen), Hraw, Hlen, py_int_py_str by lia.
  cbn [rbind]. rewrite Hraw_len. cbn [Nat.eqb negb rbind].
  destruct (Z.ltb_spec n 0); [lia |].
  destruct (Z.gtb_spec n 100000); [lia |]. cbn [orb].
  unfold pack_le_uint32.
  destruct (Z.leb_spec 0 n); [| lia].
  destruct (Z.ltb_spec n (2 ^ 32)); [| lia]. reflexivity.
Qed.

(** The compact form of a 36-byte id. *)
Lemma location_id_bytes_to_compact_36 b :
  length b = 36%nat ->
  location_id_bytes_to_compact b
  = Ok (bytes_hex (take 32 b) +:+ "i" +:+ py_str (Z.of_N (le_value (drop 32 b)))).
Proof.
  intros Hlen. unfold location_id_bytes_to_compact, unpack_le_uint32_from,
    unpack_le_uint_from, hash_to_hex_str.
  assert (Hidx : length (drop 32 b) = 4%nat) by (rewrite length_drop; lia).
  rewrite Hidx. simpl Nat.leb. cbv iota.
  rewrite <- Hidx at 1. rewrite firstn_all. reflexivity.
Qed.

End Codec.

(** C4, as the codec stands: the two directions are inverse to each other
    on the ids in canonical form.  For a compact id made of 64 lower-case
    hexadecimal digits, [i], and the decimal of an index from 0 to 100000 as
    [str] prints it (no sign, no leading zero, no padding), converting to
    bytes and back gives the same text; for 36 bytes whose last four hold,
    little-endian, an index up to 100000, converting to text and back gives
    the same bytes. *)
Theorem codec_round_trip (h : string) (n : Z) (b : list byte) :
  Str.len h = 64%nat ->
  lower_hex h = true ->
  (0 <= n <= 100000)%Z ->
  length b = 36%nat ->
  (le_value (drop 32 b) <= 100000)%N ->
  compact_round_trip (h +:+ "i" +:+ py_str n) = Ok (h +:+ "i" +:+ py_str n)
  /\ binary_round_trip b = Ok b.
Proof.
  intros Hlen Hhex Hn Hb Hidx. split.
  - unfold compact_round_trip.
    destruct (compact_to_location_id_bytes_canonical h n Hlen Hhex Hn)
      as (raw & Hback & Hraw_len & ->).
    cbn [rbind]. rewrite location_id_bytes_to_compact_36
      by (rewrite length_app, le_bytes_length; lia).
    rewrite (take_app_length' raw _ 32), (drop_app_length' raw _ 32)
      by (symmetry; exact Hraw_len).
    rewrite (le_value_bytes 4), N.mod_small by (simpl; lia).
    rewrite Z2N.id by lia. rewrite Hback. reflexivity.
  - unfold binary_round_trip. rewrite (location_id_bytes_to_compact_36 b Hb).
    cbn [rbind].
    set (idx := Z.of_N (le_value (drop 32 b))).
    assert (Hidx_len : length (drop 32 b) = 4%nat) by (rewrite length_drop; lia).
    assert (Hhash_len : length (take 32 b) = 32%nat) by (rewrite length_take; lia).
    destruct (compact_to_location_id_bytes_canonical (bytes_hex (take 32 b)) idx)
      as (raw & Hback & Hraw_len & ->).
    + rewrite hex_length, Hhash_len. reflexivity.
    + apply hex_is_lower_hex.
    + unfold idx. lia.
    + assert (Hraw : raw = take 32 b).
      { pose proof (fromhex_hex raw) as H1. pose proof (fromhex_hex (take 32 b)) as H2.
        rewrite Hback, H2 in H1. injection H1 as ->. reflexivity. }
      rewrite Hraw. unfold idx. rewrite N2Z.id.
      replace (le_bytes 4 (le_value (drop 32 b))) with (drop 32 b)
        by (rewrite <- (le_bytes_value (drop 32 b)) at 1; rewrite Hidx_len; reflexivity).
      rewrite take_drop. reflexivity.
Qed.

(** C4 at the sample hash with index 258, in both forms. *)
Lemma codec_round_trip_witness :
  compact_round_trip (sample_key +:+ "i" +:+ py_str 258)
  = Ok (sample_key +:+ "i" +:+ py_str 258)
  /\ binary_round_trip (unhex sample_key ++ unhex "02010000")
     = Ok (unhex sample_key ++ unhex "02010000").
Proof.
  apply (codec_round_trip sample_key 258 (unhex sample_key ++ unhex "02010000")).
  - reflexivity.
  - reflexivity.
  - lia.
  - reflexivity.
  - vm_compute. discriminate.
Defined.

(** C4, the claim as written fails: the index [007] is a decimal within
    range, the codec accepts the id, and the way back prints [7]. *)
Lemma compact_round_trip_leading_zeros :
  compact_round_trip (sample_key +:+ "i007") = Ok (sample_key +:+ "i7")
  /\ compact_round_trip (sample_key +:+ "i007") <> Ok (sample_key +:+ "i007").
Proof.
  split; [vm_compute; reflexivity |].
  vm_compute. discriminate.
Qed.

(** ** Parents of a mint *)

Section ParentSum.

Variable HASHX_LEN : nat.
Variable SCRIPTHASH_LEN : nat.

Local Abbreviation readable := (record_readable HASHX_LEN SCRIPTHASH_LEN).
Local Abbreviation total_of := (running_total HASHX_LEN SCRIPTHASH_LEN).
Local Abbreviation sum_of := (sum_values HASHX_LEN SCRIPTHASH_LEN).

Lemma unpack_stored_value e :
  readable e ->
  unpack_le_uint64
    (slice (se_value e) (HASHX_LEN + SCRIPTHASH_LEN) (HASHX_LEN + SCRIPTHASH_LEN + 8))
  = Ok (stored_value HASHX_LEN SCRIPTHASH_LEN e).
Proof.
  unfold record_readable, unpack_le_uint64, stored_value, slice. intros Hlen.
  rewrite length_take, length_drop.
  replace (_ `min` _)%nat with 8%nat by lia. reflexivity.
Qed.

Lemma sum_values_app l1 l2 : sum_of (l1 ++ l2) = (sum_of l1 + sum_of l2)%Z.
Proof.
  unfold sum_values. induction l1 as [| e l1 IH]; simpl; [reflexivity |].
  rewrite IH. lia.
Qed.

Lemma running_total_app before l1 l2 :
  total_of (total_of before l1) l2 = total_of before (l1 ++ l2).
Proof.
  destruct l1 as [| e1 l1]; [reflexivity |].
  destruct l2 as [| e2 l2]; [rewrite app_nil_r; reflexivity |].
  unfold running_total. cbn [app].
  change (e1 :: l1 ++ e2 :: l2) with ((e1 :: l1) ++ e2 :: l2).
  rewrite (sum_values_app (e1 :: l1) (e2 :: l2)).
  destruct before; f_equal; lia.
Qed.

(** What one record does to the total of the parent. *)
Lemma parent_spent_step_total id m e :
  readable e ->
  exists m',
    parent_spent_step HASHX_LEN SCRIPTHASH_LEN id m e = Ok m'
    /\ m' !! id = total_of (m !! id) (matching_records id [e]).
Proof.
  intros Hread. unfold parent_spent_step, matching_records.
  rewrite filter_cons, filter_nil.
  destruct (decide (se_atomical_id e = id)) as [Heq | Hne].
  - rewrite bool_decide_eq_true_2 by exact Heq. cbn [negb].
    rewrite (unpack_stored_value e Hread). cbn [rbind].
    eexists. split; [reflexivity |].
    rewrite Heq, lookup_insert_eq. unfold running_total, sum_values. cbn [foldr].
    destruct (m !! id); f_equal; lia.
  - rewrite bool_decide_eq_false_2 by exact Hne. cbn [negb].
    exists m. split; reflexivity.
Qed.

Lemma parent_spent_entries_total id l : forall m,
  Forall readable l ->
  exists m',
    parent_spent_entries HASHX_LEN SCRIPTHASH_LEN id m l = Ok m'
    /\ m' !! id = total_of (m !! id) (matching_records id l).
Proof.
  induction l as [| e l IH]; intros m Hread.
  - exists m. split; reflexivity.
  - apply Forall_cons in Hread as [He Hl].
    destruct (parent_spent_step_total id m e He) as (m1 & Hstep & Hm1).
    destruct (IH m1 Hl) as (m' & Hrun & Hm').
    exists m'. cbn [parent_spent_entries]. rewrite Hstep. cbn [rbind].
    split; [exact Hrun |].
    rewrite Hm', Hm1, running_total_app. unfold matching_records.
    rewrite <- filter_app. reflexivity.
Qed.

Lemma parent_spent_inputs_total id spent : forall m,
  Forall readable (spent_records spent) ->
  exists m',
    parent_spent_inputs HASHX_LEN SCRIPTHASH_LEN id m spent = Ok m'
    /\ m' !! id = total_of (m !! id) (matching_records id (spent_records spent)).
Proof.
  induction spent as [| [idx l] spent IH]; intros m Hread.
  - exists m. split; reflexivity.
  - unfold spent_records in Hread. cbn [map concat snd] in Hread.
    apply Forall_app in Hread as [Hl Hrest].
    destruct (parent_spent_entries_total id l m Hl) as (m1 & Hstep & Hm1).
    destruct (IH m1 Hrest) as (m' & Hrun & Hm').
    exists m'. cbn [parent_spent_inputs]. rewrite Hstep. cbn [rbind].
    split; [exact Hrun |].
    rewrite Hm', Hm1, running_total_app. unfold matching_records, spent_records.
    cbn [map concat snd]. rewrite filter_app. reflexivity.
Qed.

(** The parent is found when records carry its id and their values reach
    the minimum. *)
Lemma get_if_parent_spent_sum key id minimum spent :
  compact_to_location_id_bytes key = Ok id ->
  Forall readable (spent_records spent) ->
  get_if_parent_spent_in_same_tx HASHX_LEN SCRIPTHASH_LEN key minimum spent
  = Ok (match matching_records id (spent_records spent) with
        | [] => false
        | found => (minimum <=? sum_of found)%Z
        end).
Proof.
  intros Hid Hread. unfold get_if_parent_spent_in_same_tx.
  rewrite Hid. cbn [rbind].
  destruct (parent_spent_inputs_total id spent ∅ Hread) as (m' & -> & Hm').
  cbn [rbind]. rewrite Hm', lookup_empty.
  destruct (matching_records id (spent_records spent)) as [| e found];
    [reflexivity |].
  unfold running_total. f_equal.
  rewrite Z.geb_leb. f_equal. 
Qed.

End ParentSum.

Section ParentsGate.

Variable hashX_from_script : list byte -> list byte.
Variable double_sha256 : list byte -> list byte.
Variable krock32_encode : list byte -> string.
Variable HASHX_LEN : nat.
Variable SCRIPTHASH_LEN : nat.

Local Abbreviation readable := (record_readable HASHX_LEN SCRIPTHASH_LEN).
Local Abbreviation satisfied := (parent_satisfied HASHX_LEN SCRIPTHASH_LEN).

(** A key the codec converts is a compact id for
    [is_compact_atomical_id]. *)
Lemma is_compact_of_converted key id :
  compact_to_location_id_bytes key = Ok id ->
  is_compact_atomical_id (VStr key) = Ok true.
Proof.
  unfold compact_to_location_id_bytes, is_compact_atomical_id.
  destruct key as [| c key]; [discriminate |].
  cbn [String.eqb]. 
  destruct (Str.find "i" (String c key)) as [i |]; [| discriminate].
  destruct (Nat.eqb_spec i 64) as [-> | Hne]; [| discriminate].
  cbn [negb].
  destruct (hex_str_to_hash (Str.take 64 (String c key))) as [raw | e];
    [| discriminate].
  cbn [rbind]. destruct (length raw =? 32)%nat; [reflexivity | discriminate].
Qed.

(** A key without its first [i] at offset 64 is no compact id, and the
    codec does not convert it. *)
Lemma is_compact_of_misplaced_i key :
  Str.find "i" key <> Some 64%nat ->
  is_compact_atomical_id (VStr key) = Ok false
  /\ is_ok (compact_to_location_id_bytes key) = false.
Proof.
  intros Hfind. unfold compact_to_location_id_bytes, is_compact_atomical_id.
  destruct key as [| c key]; [split; reflexivity |].
  cbn [String.eqb].
  destruct (Str.find "i" (String c key)) as [i |]; [| split; reflexivity].
  destruct (Nat.eqb_spec i 64) as [-> | Hne]; [contradiction |].
  cbn [negb]. split; [| reflexivity].
  do 65 (destruct i as [| i]; [first [reflexivity | congruence] |]). reflexivity.
Qed.

(** The compact ids in canonical form are keys the codec converts. *)
Lemma canonical_id_decodes h n :
  Str.len h = 64%nat -> lower_hex h = true -> (0 <= n <= 100000)%Z ->
  parent_id_decodes (h +:+ "i" +:+ py_str n) = true.
Proof.
  intros Hlen Hhex Hn. unfold parent_id_decodes.
  destruct (compact_to_location_id_bytes_canonical h n Hlen Hhex Hn)
    as (raw & _ & _ & ->).
  change ("i" +:+ py_str n) with (String "i" (py_str n)).
  rewrite (find_i_after_hex h _ Hhex), Hlen. reflexivity.
Qed.

(** On keys the codec can convert and records long enough, the loop over
    the parents accepts exactly when every entry is satisfied. *)
Lemma parents_loop_satisfied spent entries :
  Forall (fun entry => parent_id_decodes (fst entry) = true) entries ->
  Forall readable (spent_records spent) ->
  parents_loop HASHX_LEN SCRIPTHASH_LEN entries spent
  = Ok (forallb (satisfied spent) entries).
Proof.
  intros Hkeys Hread.
  induction entries as [| [key minimum] entries IH]; [reflexivity |].
  apply Forall_cons in Hkeys as [Hkey Hkeys]. cbn [fst] in Hkey.
  cbn [parents_loop forallb]. unfold parent_satisfied at 1. cbn [fst snd].
  destruct (decide (Str.find "i" key = Some 64%nat)) as [Hfind | Hfind].
  - unfold parent_id_decodes in Hkey. rewrite Hfind in Hkey.
    destruct (compact_to_location_id_bytes key) as [id | e] eqn:Hid;
      [| discriminate].
    rewrite (is_compact_of_converted key id Hid). cbn [rbind negb].
    destruct (as_int minimum) as [v |]; [| reflexivity].
    destruct (Z.ltb_spec v 0) as [Hneg | Hpos].
    + destruct (Z.leb_spec 0 v); [lia | reflexivity].
    + destruct (Z.leb_spec 0 v); [| lia].
      rewrite (get_if_parent_spent_sum _ _ key id v spent Hid Hread).
      cbn [rbind andb].
      destruct (matching_records id (spent_records spent)) as [| e found];
        [reflexivity |].
      cbn [andb].
      destruct (v <=? _)%Z; cbn [negb]; [exact (IH Hkeys) | reflexivity].
  - destruct (is_compact_of_misplaced_i key Hfind) as [-> Hnot].
    cbn [rbind negb].
    destruct (compact_to_location_id_bytes key); [discriminate | reflexivity].
Qed.

Lemma dict_get_set {V : Type} (d : list (string * V)) k v k' :
  dict_get (dict_set d k v) k' = if String.eqb k k' then Some v else dict_get d k'.
Proof.
  induction d as [| [k0 v0] d IH]; cbn [dict_set dict_get].
  - destruct (String.eqb k k'); reflexivity.
  - destruct (String.eqb_spec k0 k) as [-> | Hne]; cbn [dict_get].
    + destruct (String.eqb k k'); reflexivity.
    + rewrite IH. destruct (String.eqb_spec k0 k') as [-> | Hne'];
        [| reflexivity].
      destruct (String.eqb_spec k k') as [-> | _]; [contradiction | reflexivity].
Qed.

(** The gates before the parents check leave the payload's [args] under
    ['args'] of the mint record. *)
Lemma base_gates_args tx ops mint_info flag :
  base_gates hashX_from_script double_sha256 krock32_encode tx ops
  = Ok (Some (mint_info, flag)) ->
  dict_get mint_info "args" = Some (dict_get_or_empty (payload ops) "args")
  /\ is_dict (dict_get_or_empty (payload ops) "args") = true.
Proof.
  unfold base_gates.
  destruct (build_base_mint_info _ _ _ _ _ _ _ _) as [base | e]; [| discriminate].
  cbn [rbind]. unfold populate_args_meta_ctx_init.
  destruct (is_dict (dict_get_or_empty (payload ops) "meta")); [| discriminate].
  destruct (is_dict (dict_get_or_empty (payload ops) "args")) eqn:Hargs;
    [| discriminate].
  destruct (is_dict (dict_get_or_empty (payload ops) "ctx")); [| discriminate].
  destruct (is_dict (dict_get_or_empty (payload ops) "init")); [| discriminate].
  cbn [negb].
  destruct (has_requested_proof_of_work (Some ops)) as [[requested pow] | e];
    [| discriminate].
  cbn [rbind].
  destruct (requested && is_none pow); [discriminate |].
  match goal with
  | |- context [requested_names (args_of ?m)] =>
      assert (Hget : dict_get m "args" = Some (dict_get_or_empty (payload ops) "args"))
  end.
  { destruct pow as [r |]; [destruct (requested && _) |];
      rewrite ?dict_get_set; reflexivity. }
  destruct (requested_names _) as [counter needs_bitwork].
  destruct (1 <? counter)%nat; [discriminate |].
  intros [= <- <-]. split; [exact Hget | reflexivity].
Qed.

End ParentsGate.




(** * Further properties *)

(** ** Padding *)

(** X1: [pad_bytes_n] returns exactly [n] bytes that start with the value
    and end in zero bytes; it raises [ValueError], and nothing else, exactly
    when the value is longer than [n]. *)
Theorem pad_bytes_n_pads (val : list byte) (n : Z) :
  match pad_bytes_n val n with
  | Ok out =>
      Z.of_nat (length out) = n
      /\ take (length val) out = val
      /\ drop (length val) out = replicate (length out - length val) Byte.x00
  | Raise e => e = ValueError /\ (n < Z.of_nat (length val))%Z
  end.
Proof.
  unfold pad_bytes_n.
  destruct (Z.gtb_spec (Z.of_nat (length val)) n) as [Hlong | Hfits].
  - split; [reflexivity | lia].
  - rewrite length_app, length_replicate, take_app_length, drop_app_length.
    split; [lia |]. split; [reflexivity |]. f_equal. lia.
Qed.

(** ** Expected output of an NFT *)

(** X2: the output an NFT is expected at is the output with the index of
    its single input when that output exists and its script is spendable,
    and output 0 in every other case; the function raises only for a record
    that is not an NFT ([AssertionError]) or that does not have exactly one
    input index ([IndexError]). *)
Theorem nft_output_is_own_index_or_zero (is_unspendable : list byte -> bool) (mint_info : nft_mint_info) (tx : Tx) (atomical_id : list byte) (atomicals_operations_found : option op_found) :
  match get_expected_output_index_of_atomical_nft is_unspendable mint_info tx
          atomical_id atomicals_operations_found with
  | Ok expected =>
      nmi_type mint_info = "NFT"
      /\ exists input_idx,
           nmi_input_indexes mint_info = [input_idx]
           /\ match outputs tx !! input_idx with
              | Some txout =>
                  expected = if is_unspendable (pk_script txout) then 0%nat else input_idx
              | None => expected = 0%nat
              end
  | Raise e =>
      (e = AssertionError /\ nmi_type mint_info <> "NFT")
      \/ (e = IndexError /\ length (nmi_input_indexes mint_info) <> 1%nat)
  end.
Proof.
  unfold get_expected_output_index_of_atomical_nft.
  destruct (String.eqb_spec (nmi_type mint_info) "NFT") as [Htype | Htype]; cbn [negb];
    [| left; split; [reflexivity | exact Htype]].
  destruct (nmi_input_indexes mint_info) as [| input_idx [| other rest]]; cbn.
  - right. split; [reflexivity | discriminate].
  - destruct (Nat.leb_spec (length (outputs tx)) input_idx) as [Hout | Hin].
    + split; [exact Htype |]. exists input_idx. split; [reflexivity |].
      rewrite (lookup_ge_None_2 _ _ Hout). reflexivity.
    + destruct (lookup_lt_is_Some_2 (outputs tx) input_idx Hin) as [txout Htxout].
      rewrite Htxout.
      destruct (is_unspendable (pk_script txout)) eqn:Hspend;
        (split; [exact Htype |]); exists input_idx;
        (split; [reflexivity |]); rewrite Htxout, Hspend; reflexivity.
  - right. split; [reflexivity | discriminate].
Qed.

(** ** Proof of work *)

Section ProofOfWork.

Lemma startswith_app s : forall p q,
  Str.startswith s (p +:+ q)
  = Str.startswith s p && Str.startswith (Str.drop (Str.len p) s) q.
Proof.
  induction s as [| c s IH]; intros p q.
  - destruct p as [| a p]; [reflexivity |]. reflexivity.
  - destruct p as [| a p]; [reflexivity |].
    cbn [String.append Str.startswith]. simpl. rewrite IH.
    unfold Str.len. simpl. rewrite andb_assoc. reflexivity.
Qed.

Lemma digit_at_least_15 c v :
  char_map c = Some v -> (v >=? 15)%Z = Ascii.eqb "f" c.
Proof.
  destruct c as [[] [] [] [] [] [] [] []]; vm_compute; intros H;
    first [discriminate | injection H as <-; reflexivity].
Qed.

Lemma not_digit_not_f c : char_map c = None -> Ascii.eqb "f" c = false.
Proof.
  destruct c as [[] [] [] [] [] [] [] []]; vm_compute; intros H;
    first [discriminate | reflexivity].
Qed.

End ProofOfWork.

(** X3: lowering the extension never turns a proof-of-work match into a
    failure.  When a transaction hash matches a prefix with extension [ext],
    it matches the same prefix with every extension from 0 to [ext], and
    with no extension at all. *)
Theorem pow_match_monotone (tx_hash : list byte) (powprefix : string) (ext ext' : Z) :
  (0 <= ext' <= ext)%Z ->
  is_proof_of_work_prefix_match tx_hash powprefix (Some ext) = Ok true ->
  is_proof_of_work_prefix_match tx_hash powprefix (Some ext') = Ok true
  /\ is_proof_of_work_prefix_match tx_hash powprefix None = Ok true.
Proof.
  intros Hle. unfold is_proof_of_work_prefix_match.
  destruct (Z.eqb_spec ext 0) as [-> | Hext]; cbn [negb].
  - replace ext' with 0%Z by lia. intros H. split; exact H.
  - destruct (_ || _); [discriminate |].
    destruct (Str.startswith (hash_to_hex_str tx_hash) powprefix) eqn:Hstart;
      cbn [negb]; [| discriminate].
    destruct (Str.head _) as [next_char |]; [| discriminate].
    destruct (char_map next_char) as [v |] eqn:Hv; [| discriminate].
    intros [= Hge]. apply Z.geb_le in Hge.
    destruct (lower_hex_char next_char v Hv) as [Hdigit _].
    split; [| reflexivity].
    destruct (Z.eqb_spec ext' 0) as [-> | Hext']; cbn [negb]; [reflexivity |].
    destruct (Z.ltb_spec ext' 0); [lia |].
    destruct (Z.gtb_spec ext' 15) as [Hbig | _].
    + lia.
    + cbn [orb]. f_equal. apply Z.geb_le. lia.
Qed.

(** X3 on the hash [00ab12...] with prefix [00]: the next digit is [a], so
    the match with extension 10 gives the match with extension 3. *)
Lemma pow_match_monotone_witness :
  is_proof_of_work_prefix_match (unhex "00ab12") "00" (Some 3%Z) = Ok true
  /\ is_proof_of_work_prefix_match (unhex "00ab12") "00" None = Ok true.
Proof.
  apply (pow_match_monotone (unhex "00ab12") "00" 10 3).
  - lia.
  - reflexivity.
Defined.


(** ** Parts of a bitwork string *)

Section Split.

Variable sep : ascii.

Lemma split_not_nil s : Str.split sep s <> [].
Proof.
  induction s as [| c s IH]; simpl; [discriminate |].
  destruct (Ascii.eqb c sep); [discriminate |].
  destruct (Str.split sep s); [contradiction | discriminate].
Qed.

(** A text without the separator is its own single part. *)
Lemma split_no_separator s : Str.count sep s = 0%nat -> Str.split sep s = [s].
Proof.
  induction s as [| c s IH]; simpl; [reflexivity |].
  destruct (Ascii.eqb c sep); [discriminate |]. simpl.
  intros Hcount. rewrite (IH Hcount). reflexivity.
Qed.

(** A text with one separator has two parts, around the separator. *)
Lemma split_one_separator s :
  Str.count sep s = 1%nat ->
  exists p t,
    Str.split sep s = [p; t] /\ s = p +:+ String sep t
    /\ Str.count sep p = 0%nat /\ Str.count sep t = 0%nat.
Proof.
  induction s as [| c s IH]; simpl; [discriminate |].
  destruct (Ascii.eqb_spec c sep) as [-> | Hne]; simpl.
  - intros [= Hcount]. exists EmptyString, s.
    rewrite (split_no_separator s Hcount).
    split; [reflexivity |]. split; [reflexivity |].
    split; [reflexivity | exact Hcount].
  - intros Hcount. destruct (IH Hcount) as (p & t & -> & -> & Hp & Ht).
    exists (String c p), t. simpl.
    split; [reflexivity |]. split; [reflexivity |].
    split; [| exact Ht]. rewrite Hp.
    destruct (Ascii.eqb_spec c sep); [contradiction | reflexivity].
Qed.

End Split.

(** X5: what [is_valid_bitwork_string] returns is the decomposition of its
    argument.  The first component is the argument itself, a string; the
    prefix is not empty and holds no dot; without extension the string is
    the prefix, and with an extension the string is the prefix, a dot, and
    a text that [int] reads as the extension. *)
Theorem bitwork_string_parts (bitwork : pyval) (b : string) (parts : bitwork_parts) :
  is_valid_bitwork_string bitwork = Some (b, parts) ->
  bitwork = VStr b
  /\ bw_prefix parts <> EmptyString
  /\ Str.count "." (bw_prefix parts) = 0%nat
  /\ match bw_ext parts with
     | None => b = bw_prefix parts
     | Some ext =>
         exists text, b = bw_prefix parts +:+ "." +:+ text /\ py_int text = Ok ext
     end.
Proof.
  unfold is_valid_bitwork_string.
  destruct (truthy bitwork); cbn [negb]; [| discriminate].
  destruct bitwork as [| | | | s | | | |]; try discriminate.
  destruct (Nat.ltb_spec 1 (Str.count "." s)) as [| Hcount]; [discriminate |].
  assert (Hprefix : forall prefix ext,
             is_validate_pow_prefix_string prefix ext = true -> prefix <> EmptyString).
  { intros prefix ext Hvalid ->. discriminate. }
  destruct (Str.count "." s) as [| [| n]] eqn:Hdots; [| | lia].
  - rewrite (split_no_separator "." s Hdots).
    destruct (is_validate_pow_prefix_string s None) eqn:Hvalid; [| discriminate].
    intros [= <- <-]. cbn [bw_prefix bw_ext].
    split; [reflexivity |]. split; [exact (Hprefix _ _ Hvalid) |].
    split; [exact Hdots | reflexivity].
  - destruct (split_one_separator "." s Hdots) as (p & t & -> & -> & Hp & Ht).
    destruct (py_int t) as [ext |] eqn:Hext; [| discriminate].
    destruct (is_validate_pow_prefix_string p (Some ext)) eqn:Hvalid; [| discriminate].
    intros [= <- <-]. cbn [bw_prefix bw_ext].
    split; [reflexivity |]. split; [exact (Hprefix _ _ Hvalid) |].
    split; [exact Hp |]. exists t. split; [reflexivity | exact Hext].
Qed.

(** X5 on the string [7f3a.12]. *)
Lemma bitwork_string_parts_witness :
  VStr "7f3a.12" = VStr "7f3a.12"
  /\ "7f3a" <> EmptyString
  /\ Str.count "." "7f3a" = 0%nat
  /\ exists text, "7f3a.12" = "7f3a" +:+ "." +:+ text /\ py_int text = Ok 12%Z.
Proof.
  apply (bitwork_string_parts (VStr "7f3a.12") "7f3a.12"
           {| bw_prefix := "7f3a"; bw_ext := Some 12%Z |}).
  reflexivity.
Defined.

(** ** Gates of the mint builder *)

Section BuilderGates.

Variable hashX_from_script : list byte -> list byte.
Variable double_sha256 : list byte -> list byte.
Variable krock32_encode : list byte -> string.
Variable HASHX_LEN : nat.
Variable SCRIPTHASH_LEN : nat.

Local Abbreviation factory :=
  (get_mint_info_op_factory hashX_from_script double_sha256 krock32_encode
     HASHX_LEN SCRIPTHASH_LEN).
Local Abbreviation gates :=
  (base_gates hashX_from_script double_sha256 krock32_encode).

Lemma dict_get_set_other {V : Type} (d : list (string * V)) k v k' :
  k <> k' -> dict_get (dict_set d k v) k' = dict_get d k'.
Proof.
  intros Hne. rewrite dict_get_set.
  destruct (String.eqb_spec k k'); [contradiction | reflexivity].
Qed.

(** An accepted mint went through every gate. *)
Lemma factory_accepts tx tx_hash ops spent mint_type mint_info :
  factory tx tx_hash (Some ops) spent = Ok (Some (mint_type, mint_info)) ->
  exists based needs_bitwork with_parents typed,
    gates tx ops = Ok (Some (based, needs_bitwork))
    /\ parents_gate HASHX_LEN SCRIPTHASH_LEN based spent = Ok (Some with_parents)
    /\ type_gate ops with_parents = Ok (Some typed)
    /\ dict_get typed "type" = Some (VStr mint_type)
    /\ bitwork_gate needs_bitwork typed = Some mint_info.
Proof.
  unfold get_mint_info_op_factory.
  destruct (gates tx ops) as [[[based needs_bitwork] |] | e] eqn:Hgates; cbn [rbind];
    try discriminate.
  destruct (parents_gate _ _ based spent) as [[with_parents |] | e] eqn:Hparents;
    cbn [rbind]; try discriminate.
  destruct (type_gate ops with_parents) as [[typed |] | e] eqn:Htyped; cbn [rbind];
    try discriminate.
  destruct (dict_get typed "type") as [[| | | | t | | | |] |] eqn:Htype;
    try discriminate.
  destruct (bitwork_gate needs_bitwork typed) as [final |] eqn:Hbitwork;
    [| discriminate].
  destruct (pack_le_uint32 (commit_index ops)); cbn [rbind]; [| discriminate].
  destruct (negb _); [discriminate |].
  intros [= <- <-]. exists based, needs_bitwork, with_parents, typed.
  repeat split; assumption.
Qed.

(** What the gates before the parents check establish. *)
Lemma gates_pass tx ops based needs_bitwork :
  gates tx ops = Ok (Some (based, needs_bitwork)) ->
  args_of based = payload_args ops
  /\ dict_get based "type" = None
  /\ requested_names (payload_args ops) = (fst (requested_names (payload_args ops)), needs_bitwork)
  /\ (fst (requested_names (payload_args ops)) <= 1)%nat
  /\ exists requested pow,
       has_requested_proof_of_work (Some ops) = Ok (requested, pow)
       /\ requested && is_none pow = false.
Proof.
  intros Hgates.
  destruct (base_gates_args _ _ _ _ _ _ _ Hgates) as [Hargs Hdict].
  assert (Hargs_of : args_of based = payload_args ops).
  { unfold args_of, payload_args. rewrite Hargs.
    destruct (dict_get_or_empty (payload ops) "args"); try discriminate. reflexivity. }
  split; [exact Hargs_of |].
  revert Hgates. unfold base_gates.
  destruct (build_base_mint_info _ _ _ _ _ _ _ _) as [base | e] eqn:Hbase;
    [| discriminate].
  cbn [rbind].
  assert (Hbase_type : dict_get base "type" = None).
  { revert Hbase. unfold build_base_mint_info.
    destruct (outputs tx !! 0%nat); [| discriminate].
    destruct (pack_le_uint32 0); cbn [rbind]; [| discriminate].
    destruct (pack_le_uint32 (commit_index ops)); cbn [rbind]; [| discriminate].
    destruct (pack_le_uint32 (reveal_location_index ops)); cbn [rbind]; [| discriminate].
    destruct (pack_le_uint64 _); cbn [rbind]; [| discriminate].
    intros [= <-]. reflexivity. }
  destruct (populate_args_meta_ctx_init base (payload ops)) as [populated |] eqn:Hpop;
    [| discriminate].
  assert (Hpop_type : dict_get populated "type" = None).
  { revert Hpop. unfold populate_args_meta_ctx_init.
    repeat (destruct (negb _); [discriminate |]).
    intros [= <-]. rewrite !dict_get_set_other by discriminate. exact Hbase_type. }
  destruct (has_requested_proof_of_work (Some ops)) as [[requested pow] | e];
    [| discriminate].
  cbn [rbind].
  destruct (requested && is_none pow) eqn:Hpow; [discriminate |].
  match goal with
  | |- context [requested_names (args_of ?m)] =>
      set (with_bitwork := m);
      assert (Hwb : dict_get with_bitwork "type" = None
                    /\ dict_get with_bitwork "args" = dict_get populated "args")
  end.
  { subst with_bitwork.
    destruct pow as [r |]; [destruct (requested && (truthy_opt _ || _)) |];
      rewrite ?dict_get_set_other by discriminate; split; first [exact Hpop_type | reflexivity]. }
  destruct (requested_names (args_of with_bitwork)) as [counter flag] eqn:Hnames.
  destruct (Nat.ltb_spec 1 counter) as [| Hcounter]; [discriminate |].
  intros [= Hbased <-].
  assert (Hsame : args_of with_bitwork = payload_args ops)
    by (rewrite <- Hargs_of, <- Hbased; reflexivity).
  rewrite Hsame in Hnames. rewrite Hnames. cbn [fst].
  split; [rewrite <- Hbased; exact (proj1 Hwb) |].
  split; [reflexivity |]. split; [exact Hcounter |]. eauto.
Qed.

(** The parents check changes nothing but ['$parents']. *)
Lemma parents_gate_keeps based spent with_parents k :
  parents_gate HASHX_LEN SCRIPTHASH_LEN based spent = Ok (Some with_parents) ->
  k <> "$parents" ->
  dict_get with_parents k = dict_get based k.
Proof.
  unfold parents_gate. intros Hgate Hk.
  destruct (truthy_opt _); [| injection Hgate as <-; reflexivity].
  destruct (dict_get (args_of based) "parents") as [[| | | | | | | entries |] |];
    try discriminate.
  destruct (length entries <? 1)%nat; [discriminate |].
  destruct spent as [[| input spent] |]; try discriminate.
  destruct (parents_loop _ _ entries (input :: spent)) as [[] | e]; cbn [rbind] in Hgate;
    try discriminate.
  injection Hgate as <-. apply dict_get_set_other. congruence.
Qed.

Lemma bitwork_arg_keeps mint_info k target mint_info' :
  bitwork_arg mint_info k target = Some mint_info' ->
  forall k', k' <> target -> dict_get mint_info' k' = dict_get mint_info k'.
Proof.
  unfold bitwork_arg. intros Harg k' Hk'.
  destruct (dict_get (args_of mint_info) k) as [request |];
    [| injection Harg as <-; reflexivity].
  destruct (truthy request); [| injection Harg as <-; reflexivity].
  destruct (is_valid_bitwork_string request); [| discriminate].
  injection Harg as <-. apply dict_get_set_other. congruence.
Qed.

(** The type dispatch leaves ['args'] alone. *)
Lemma type_gate_keeps_args ops with_parents typed :
  type_gate ops with_parents = Ok (Some typed) ->
  dict_get typed "args" = dict_get with_parents "args".
Proof.
  unfold type_gate.
  destruct (_ && _).
  { unfold nft_gate.
    set (m := dict_set with_parents "type" (VStr "NFT")).
    assert (Hm : dict_get m "args" = dict_get with_parents "args")
      by (apply dict_get_set_other; discriminate).
    assert (Hargs_of : args_of m = args_of with_parents)
      by (unfold args_of; rewrite Hm; reflexivity).
    rewrite Hargs_of.
    destruct (dict_get (args_of with_parents) "request_realm") as [[| | | | realm | | | |] |];
    destruct (dict_get (args_of with_parents) "request_subrealm") as [[| | | | subrealm | | | |] |];
    destruct (dict_get (args_of with_parents) "request_container") as [[| | | | container | | | |] |];
    repeat match goal with
      | |- (if ?c then _ else _) = _ -> _ => destruct c
      | |- match dict_get ?a ?k with _ => _ end = _ -> _ =>
          destruct (dict_get a k) as [[| | | | ? | | | |] |]
      | |- (let* _ := ?r in _) = _ -> _ => destruct r as [[] | ?]; cbn [rbind negb]
      end;
    try discriminate; intros [= <-];
      rewrite ?dict_get_set_other by discriminate; exact Hm. }
  destruct (_ && _).
  { unfold ft_gate.
    destruct (requested_ticker _) as [[t |] | e]; cbn [rbind]; try discriminate.
    intros [= <-]. rewrite !dict_get_set_other by discriminate. reflexivity. }
  destruct (_ && _); [| intros [= <-]; reflexivity].
  unfold dft_gate.
  destruct (requested_ticker _) as [[t |] | e]; cbn [rbind]; try discriminate.
  destruct (int_arg_within _ "mint_height" _ _); [| discriminate].
  destruct (int_arg_within _ "mint_amount" _ _); [| discriminate].
  destruct (int_arg_within _ "max_mints" _ _); [| discriminate].
  destruct (bitwork_arg _ "mint_bitworkc" _) as [m1 |] eqn:H1; [| discriminate].
  destruct (bitwork_arg m1 "mint_bitworkr" _) as [m2 |] eqn:H2; [| discriminate].
  intros [= <-].
  rewrite (bitwork_arg_keeps _ _ _ _ H2) by discriminate.
  rewrite (bitwork_arg_keeps _ _ _ _ H1) by discriminate.
  rewrite !dict_get_set_other by discriminate. reflexivity.
Qed.

(** For an accepted mint, every gate saw the payload's [args]. *)
Lemma factory_args tx tx_hash ops spent mint_type mint_info :
  factory tx tx_hash (Some ops) spent = Ok (Some (mint_type, mint_info)) ->
  exists based needs_bitwork with_parents typed,
    gates tx ops = Ok (Some (based, needs_bitwork))
    /\ parents_gate HASHX_LEN SCRIPTHASH_LEN based spent = Ok (Some with_parents)
    /\ type_gate ops with_parents = Ok (Some typed)
    /\ dict_get typed "type" = Some (VStr mint_type)
    /\ bitwork_gate needs_bitwork typed = Some mint_info
    /\ args_of with_parents = payload_args ops
    /\ args_of typed = payload_args ops
    /\ dict_get with_parents "type" = None.
Proof.
  intros Hfactory.
  destruct (factory_accepts _ _ _ _ _ _ Hfactory)
    as (based & flag & with_parents & typed & Hgates & Hparents & Htype & Ht & Hbit).
  exists based, flag, with_parents, typed.
  destruct (gates_pass _ _ _ _ Hgates) as (Hargs & Hnotype & _).
  assert (Hwp : args_of with_parents = payload_args ops).
  { rewrite <- Hargs. unfold args_of.
    rewrite (parents_gate_keeps _ _ _ "args" Hparents) by discriminate. reflexivity. }
  repeat (split; [assumption |]).
  split.
  - rewrite <- Hwp. unfold args_of. rewrite (type_gate_keeps_args _ _ _ Htype). reflexivity.
  - rewrite (parents_gate_keeps _ _ _ "type" Hparents) by discriminate. exact Hnotype.
Qed.

Lemma bitwork_gate_keeps flag typed mint_info k :
  bitwork_gate flag typed = Some mint_info ->
  k <> "$bitworkc" -> k <> "$bitworkr" ->
  dict_get mint_info k = dict_get typed k.
Proof.
  unfold bitwork_gate. intros Hgate Hc Hr.
  destruct (truthy_opt (dict_get (args_of typed) "bitworkc")).
  - destruct (dict_get (args_of typed) "bitworkc") as [request |]; [| discriminate].
    destruct (is_valid_bitwork_string request) as [[b parts] |]; [| discriminate].
    destruct (flag && _); [discriminate |].
    destruct (flag && _); [discriminate |].
    rewrite (bitwork_arg_keeps _ _ _ _ Hgate) by congruence.
    apply dict_get_set_other. congruence.
  - destruct (flag && _); [discriminate |].
    apply (bitwork_arg_keeps _ _ _ _ Hgate). congruence.
Qed.

Lemma requested_ticker_valid args t :
  requested_ticker args = Ok (Some t) ->
  dict_get args "request_ticker" = Some (VStr t)
  /\ is_valid_ticker_string (VStr t) = Ok (Some true).
Proof.
  unfold requested_ticker.
  destruct (dict_get args "request_ticker") as [[| | | | ticker | | | |] |];
    try discriminate.
  destruct (is_valid_ticker_string (VStr ticker)) as [[[|] |] | e] eqn:Hvalid;
    cbn [rbind]; try discriminate.
  intros [= <-]. split; [reflexivity | exact Hvalid].
Qed.

Lemma int_arg_within_bounds args k lo hi v :
  int_arg_within args k lo hi = Some v ->
  dict_get args k = Some v /\ exists z, as_int v = Some z /\ (lo <= z <= hi)%Z.
Proof.
  unfold int_arg_within.
  destruct (dict_get args k) as [v' |]; [| discriminate].
  destruct (as_int v') as [z |] eqn:Hz; [| discriminate].
  destruct (Z.ltb_spec z lo); [discriminate |].
  destruct (Z.gtb_spec z hi); [discriminate |].
  intros [= <-]. split; [reflexivity |]. exists z. split; [exact Hz | lia].
Qed.

(** The outcomes of the NFT branch. *)
Lemma nft_gate_cases m typed :
  nft_gate m = Ok (Some typed) ->
  let m' := dict_set m "type" (VStr "NFT") in
  let args := args_of m' in
  (exists realm,
      dict_get args "request_realm" = Some (VStr realm)
      /\ is_valid_realm_string_name (VStr realm) = true
      /\ typed = dict_set m' "$request_realm" (VStr realm))
  \/ (exists subrealm claim_type parent,
      dict_get args "request_subrealm" = Some (VStr subrealm)
      /\ is_valid_subrealm_string_name (VStr subrealm) = true
      /\ dict_get args "claim_type" = Some (VStr claim_type)
      /\ (claim_type = "direct" \/ claim_type = "rule")
      /\ dict_get args "parent_realm" = Some (VStr parent)
      /\ is_compact_atomical_id (VStr parent) = Ok true
      /\ typed = dict_set (dict_set m' "$request_subrealm" (VStr subrealm))
                   "$parent_realm" (VStr parent))
  \/ (exists container,
      dict_get args "request_container" = Some (VStr container)
      /\ is_valid_container_string_name (VStr container) = true
      /\ typed = dict_set m' "$request_container" (VStr container))
  \/ typed = m'.
Proof.
  intros Hgate m' args. unfold nft_gate in Hgate. cbv zeta in Hgate.
  fold m' in Hgate. fold args in Hgate.
  assert (Hrealm : forall realm,
    (if is_valid_realm_string_name (VStr realm)
     then Ok (Some (dict_set m' "$request_realm" (VStr realm)))
     else Ok None) = Ok (Some typed) ->
    dict_get args "request_realm" = Some (VStr realm) ->
    exists realm,
      dict_get args "request_realm" = Some (VStr realm)
      /\ is_valid_realm_string_name (VStr realm) = true
      /\ typed = dict_set m' "$request_realm" (VStr realm)).
  { clear Hgate. intros realm H Hget. exists realm. revert H.
    destruct (is_valid_realm_string_name (VStr realm)) eqn:Hvalid; [| discriminate].
    intros [= <-]. repeat split; assumption. }
  assert (Hsub : forall subrealm,
    (if is_valid_subrealm_string_name (VStr subrealm) then
       match dict_get args "claim_type" with
       | Some (VStr claim_type) =>
           if negb (String.eqb claim_type "direct") && negb (String.eqb claim_type "rule")
           then Ok None
           else
             match dict_get args "parent_realm" with
             | Some (VStr parent_realm_id_compact) =>
                 let* is_compact := is_compact_atomical_id (VStr parent_realm_id_compact) in
                 if negb is_compact then Ok None
                 else
                   Ok (Some (dict_set (dict_set m'
                               "$request_subrealm" (VStr subrealm))
                               "$parent_realm" (VStr parent_realm_id_compact)))
             | _ => Ok None
             end
       | _ => Ok None
       end
     else Ok None) = Ok (Some typed) ->
    dict_get args "request_subrealm" = Some (VStr subrealm) ->
    exists subrealm claim_type parent,
      dict_get args "request_subrealm" = Some (VStr subrealm)
      /\ is_valid_subrealm_string_name (VStr subrealm) = true
      /\ dict_get args "claim_type" = Some (VStr claim_type)
      /\ (claim_type = "direct" \/ claim_type = "rule")
      /\ dict_get args "parent_realm" = Some (VStr parent)
      /\ is_compact_atomical_id (VStr parent) = Ok true
      /\ typed = dict_set (dict_set m' "$request_subrealm" (VStr subrealm))
                   "$parent_realm" (VStr parent)).
  { clear Hgate Hrealm. intros subrealm H Hget. revert H.
    destruct (is_valid_subrealm_string_name (VStr subrealm)) eqn:Hvalid; [| discriminate].
    destruct (dict_get args "claim_type") as [[| | | | claim_type | | | |] |] eqn:Hclaim;
      try discriminate.
    destruct (dict_get args "parent_realm") as [[| | | | parent | | | |] |] eqn:Hparent;
      try (destruct (negb _ && negb _); discriminate).
    destruct (is_compact_atomical_id (VStr parent)) as [[|] | e] eqn:Hcompact;
      cbn [rbind negb];
      try (destruct (negb _ && negb _); discriminate).
    destruct (String.eqb_spec claim_type "direct") as [Hd | Hd];
      destruct (String.eqb_spec claim_type "rule") as [Hr | Hr];
      cbn [negb andb]; try discriminate.
    all: intros [= <-]; exists subrealm, claim_type, parent; repeat split; auto. }
  assert (Hcont : forall container,
    (if is_valid_container_string_name (VStr container)
     then Ok (Some (dict_set m' "$request_container" (VStr container)))
     else Ok None) = Ok (Some typed) ->
    dict_get args "request_container" = Some (VStr container) ->
    exists container,
      dict_get args "request_container" = Some (VStr container)
      /\ is_valid_container_string_name (VStr container) = true
      /\ typed = dict_set m' "$request_container" (VStr container)).
  { clear Hgate Hrealm Hsub. intros container H Hget. exists container. revert H.
    destruct (is_valid_container_string_name (VStr container)) eqn:Hvalid; [| discriminate].
    intros [= <-]. repeat split; assumption. }
  destruct (dict_get args "request_realm") as [[| | | | realm | | | |] |] eqn:Hr;
    try (left; apply (Hrealm _ Hgate); reflexivity).
  all: destruct (dict_get args "request_subrealm") as [[| | | | subrealm | | | |] |] eqn:Hs;
    try (right; left; apply (Hsub _ Hgate); reflexivity).
  all: destruct (dict_get args "request_container") as [[| | | | container | | | |] |] eqn:Hc;
    try (right; right; left; apply (Hcont _ Hgate); reflexivity).
  all: right; right; right; congruence.
Qed.

Lemma dict_get_set_same {V : Type} (d : list (string * V)) k v :
  dict_get (dict_set d k v) k = Some v.
Proof. rewrite dict_get_set, String.eqb_refl. reflexivity. Qed.

Lemma ft_gate_cases m typed :
  ft_gate m = Ok (Some typed) ->
  let m' := dict_set (dict_set m "type" (VStr "FT")) "subtype" (VStr "direct") in
  exists ticker,
    requested_ticker (args_of m') = Ok (Some ticker)
    /\ typed = dict_set m' "$request_ticker" (VStr ticker).
Proof.
  intros Hgate m'. unfold ft_gate in Hgate. cbv zeta in Hgate. fold m' in Hgate.
  destruct (requested_ticker (args_of m')) as [[ticker |] | e] eqn:Hticker;
    cbn [rbind] in Hgate; try discriminate.
  injection Hgate as <-. exists ticker. split; reflexivity.
Qed.

Lemma dft_gate_cases m typed :
  dft_gate m = Ok (Some typed) ->
  let m' := dict_set (dict_set m "type" (VStr "FT")) "subtype" (VStr "decentralized") in
  let args := args_of m' in
  exists ticker mint_height mint_amount max_mints with_commit,
    requested_ticker args = Ok (Some ticker)
    /\ int_arg_within args "mint_height" DFT_MINT_HEIGHT_MIN DFT_MINT_HEIGHT_MAX
       = Some mint_height
    /\ int_arg_within args "mint_amount" DFT_MINT_AMOUNT_MIN DFT_MINT_AMOUNT_MAX
       = Some mint_amount
    /\ int_arg_within args "max_mints" DFT_MINT_MAX_MIN_COUNT DFT_MINT_MAX_MAX_COUNT
       = Some max_mints
    /\ bitwork_arg
         (dict_set (dict_set (dict_set (dict_set m' "$request_ticker" (VStr ticker))
            "$mint_height" mint_height) "$mint_amount" mint_amount) "$max_mints" max_mints)
         "mint_bitworkc" "$mint_bitworkc" = Some with_commit
    /\ bitwork_arg with_commit "mint_bitworkr" "$mint_bitworkr" = Some typed.
Proof.
  intros Hgate m' args. unfold dft_gate in Hgate. cbv zeta in Hgate.
  fold m' in Hgate. fold args in Hgate.
  destruct (requested_ticker args) as [[ticker |] | e] eqn:Hticker;
    cbn [rbind] in Hgate; try discriminate.
  destruct (int_arg_within args "mint_height" _ _) as [mint_height |] eqn:Hheight;
    [| discriminate].
  destruct (int_arg_within args "mint_amount" _ _) as [mint_amount |] eqn:Hamount;
    [| discriminate].
  destruct (int_arg_within args "max_mints" _ _) as [max_mints |] eqn:Hmax;
    [| discriminate].
  destruct (bitwork_arg _ "mint_bitworkc" _) as [with_commit |] eqn:Hcommit;
    [| discriminate].
  injection Hgate as Hreveal.
  exists ticker, mint_height, mint_amount, max_mints, with_commit.
  repeat split; assumption.
Qed.

Lemma type_gate_cases ops with_parents typed :
  type_gate ops with_parents = Ok (Some typed) ->
  (op ops = "nft" /\ input_index ops = 0%nat /\ nft_gate with_parents = Ok (Some typed))
  \/ (op ops = "ft" /\ input_index ops = 0%nat /\ ft_gate with_parents = Ok (Some typed))
  \/ (op ops = "dft" /\ input_index ops = 0%nat /\ dft_gate with_parents = Ok (Some typed))
  \/ typed = with_parents.
Proof.
  unfold type_gate.
  destruct (Nat.eqb_spec (input_index ops) 0) as [Hidx | _].
  - rewrite !andb_true_r.
    destruct (String.eqb_spec (op ops) "nft") as [Hnft | _]; [auto |].
    destruct (String.eqb_spec (op ops) "ft") as [Hft | _]; [auto |].
    destruct (String.eqb_spec (op ops) "dft") as [Hdft | _]; [auto 6 |].
    intros [= <-]. auto.
  - rewrite !andb_false_r. intros [= <-]. auto.
Qed.

(** The keys that the record has not got before the type dispatch. *)
Lemma gates_fresh tx ops based needs_bitwork k :
  gates tx ops = Ok (Some (based, needs_bitwork)) ->
  In k ["type"; "subtype"; "$request_realm"; "$request_subrealm"; "$parent_realm";
        "$request_container"; "$request_ticker"; "$mint_height"; "$mint_amount";
        "$max_mints"; "$mint_bitworkc"; "$mint_bitworkr"; "$bitworkc"; "$bitworkr"] ->
  dict_get based k = None.
Proof.
  intros Hgates Hin. revert Hgates. unfold base_gates.
  destruct (build_base_mint_info _ _ _ _ _ _ _ _) as [base | e] eqn:Hbase;
    [| discriminate].
  cbn [rbind].
  assert (Hbase_k : dict_get base k = None).
  { revert Hbase. unfold build_base_mint_info.
    destruct (outputs tx !! 0%nat); [| discriminate].
    destruct (pack_le_uint32 0); cbn [rbind]; [| discriminate].
    destruct (pack_le_uint32 (commit_index ops)); cbn [rbind]; [| discriminate].
    destruct (pack_le_uint32 (reveal_location_index ops)); cbn [rbind]; [| discriminate].
    destruct (pack_le_uint64 _); cbn [rbind]; [| discriminate].
    intros [= <-]. cbn [In] in Hin.
    repeat (destruct Hin as [<- | Hin]; [reflexivity |]). contradiction. }
  destruct (populate_args_meta_ctx_init base (payload ops)) as [populated |] eqn:Hpop;
    [| discriminate].
  assert (Hpop_k : dict_get populated k = None).
  { revert Hpop. unfold populate_args_meta_ctx_init.
    repeat (destruct (negb _); [discriminate |]).
    intros [= <-]. rewrite <- Hbase_k. cbn [In] in Hin.
    repeat (destruct Hin as [<- | Hin];
            [rewrite !dict_get_set_other by discriminate; reflexivity |]).
    contradiction. }
  destruct (has_requested_proof_of_work (Some ops)) as [[requested pow] | e];
    [| discriminate].
  cbn [rbind].
  destruct (requested && is_none pow); [discriminate |].
  match goal with
  | |- context [requested_names (args_of ?m)] =>
      set (with_bitwork := m);
      assert (Hwb : dict_get with_bitwork k = None)
  end.
  { subst with_bitwork. rewrite <- Hpop_k.
    destruct pow as [r |]; [destruct (requested && (truthy_opt _ || _)) |];
      try reflexivity.
    cbn [In] in Hin.
    repeat (destruct Hin as [<- | Hin];
            [rewrite !dict_get_set_other by discriminate; reflexivity |]).
    contradiction. }
  destruct (requested_names (args_of with_bitwork)) as [counter flag].
  destruct (1 <? counter)%nat; [discriminate |].
  intros [= <- _]. exact Hwb.
Qed.

Lemma pow_match_startswith tx_hash powprefix ext :
  is_proof_of_work_prefix_match tx_hash powprefix ext = Ok true ->
  Str.startswith (hash_to_hex_str tx_hash) powprefix = true
  /\ match ext with Some e => (0 <= e <= 15)%Z | None => True end.
Proof.
  unfold is_proof_of_work_prefix_match.
  destruct ext as [ext |]; [| intros [= ->]; split; [reflexivity | exact I]].
  destruct (Z.eqb_spec ext 0) as [-> | Hext]; cbn [negb].
  - intros [= ->]. split; [reflexivity | lia].
  - destruct (Z.ltb_spec ext 0); [discriminate |].
    destruct (Z.gtb_spec ext 15); [discriminate |]. cbn [orb].
    destruct (Str.startswith _ powprefix); [| discriminate].
    intros _. split; [reflexivity | lia].
Qed.

Lemma bitwork_matches_done request tx_id :
  bitwork_matches request tx_id = Ok true ->
  exists b parts,
    is_valid_bitwork_string request = Some (b, parts)
    /\ is_proof_of_work_prefix_match tx_id (bw_prefix parts) (bw_ext parts) = Ok true.
Proof.
  unfold bitwork_matches.
  destruct (is_valid_bitwork_string request) as [[b parts] |]; [| discriminate].
  intros Hmatch. exists b, parts. split; [reflexivity | exact Hmatch].
Qed.

(** When the requested work is reported as done, each request that is
    present and truthy is matched by its transaction id. *)
Lemma requested_work_is_done ops args pow :
  dict_get (payload ops) "args" = Some (VDict args) ->
  has_requested_proof_of_work (Some ops) = Ok (true, Some pow) ->
  (forall request, dict_get args "bitworkc" = Some request -> truthy request = true ->
     bitwork_matches request (commit_txid ops) = Ok true)
  /\ (forall request, dict_get args "bitworkr" = Some request -> truthy request = true ->
     bitwork_matches request (reveal_location_txid ops) = Ok true).
Proof.
  intros Hargs. unfold has_requested_proof_of_work. rewrite Hargs.
  destruct (dict_get args "bitworkc") as [rc |] eqn:Hc;
    destruct (dict_get args "bitworkr") as [rr |] eqn:Hr.
  all: repeat match goal with
    | |- context [if truthy ?r then _ else _] => destruct (truthy r) eqn:?
    | |- context [bitwork_matches ?r ?t] =>
        destruct (bitwork_matches r t) as [[|] | ?] eqn:?
    end; cbn [rbind negb]; try discriminate.
  all: intros _; split; intros request [= <-] Htruthy; congruence.
Qed.

Lemma payload_args_lookup ops k v :
  dict_get (payload_args ops) k = Some v ->
  dict_get (payload ops) "args" = Some (VDict (payload_args ops)).
Proof.
  unfold payload_args, dict_get_or_empty.
  destruct (dict_get (payload ops) "args") as [[| | | | | | | args |] |];
    try discriminate.
  reflexivity.
Qed.

(** The work a mint asks for, as the builder has checked it. *)
Lemma requested_work_matches tx tx_hash ops spent mint_type mint_info request tx_id :
  factory tx tx_hash (Some ops) spent = Ok (Some (mint_type, mint_info)) ->
  (dict_get (payload_args ops) "bitworkc" = Some request /\ tx_id = commit_txid ops)
  \/ (dict_get (payload_args ops) "bitworkr" = Some request
      /\ tx_id = reveal_location_txid ops) ->
  truthy request = true ->
  exists b parts,
    is_valid_bitwork_string request = Some (b, parts)
    /\ is_proof_of_work_prefix_match tx_id (bw_prefix parts) (bw_ext parts) = Ok true
    /\ Str.startswith (hash_to_hex_str tx_id) (bw_prefix parts) = true
    /\ match bw_ext parts with Some ext => (0 <= ext <= 15)%Z | None => True end.
Proof.
  intros Hfactory Hrequest Htruthy.
  destruct (factory_accepts _ _ _ _ _ _ Hfactory)
    as (based & flag & with_parents & typed & Hgates & _).
  destruct (gates_pass _ _ _ _ Hgates)
    as (_ & _ & _ & _ & requested & pow & Hwork & Hdone).
  assert (Hargs : dict_get (payload ops) "args" = Some (VDict (payload_args ops)))
    by (destruct Hrequest as [[H _] | [H _]]; exact (payload_args_lookup _ _ _ H)).
  assert (Hpow : requested = true /\ exists r, pow = Some r).
  { revert Hwork. unfold has_requested_proof_of_work. rewrite Hargs.
    repeat match goal with
      | |- context [let* _ := ?r in _] => destruct r as [[|] | ?]; cbn [rbind negb]
      end; try discriminate; intros [= <- <-]; try discriminate Hdone; eauto. }
  destruct Hpow as [-> [r ->]].
  destruct (requested_work_is_done _ _ _ Hargs Hwork) as [Hcommit Hreveal].
  assert (Hmatch : bitwork_matches request tx_id = Ok true)
    by (destruct Hrequest as [[H ->] | [H ->]]; auto).
  destruct (bitwork_matches_done _ _ Hmatch) as (b & parts & Hvalid & Hprefix).
  exists b, parts. split; [exact Hvalid |]. split; [exact Hprefix |].
  exact (pow_match_startswith _ _ _ Hprefix).
Qed.

(** X6: a mint is accepted only when the work it asks for was done.  For an
    accepted mint whose [args] hold a truthy [bitworkc] (checked against the
    commit transaction id) or a truthy [bitworkr] (checked against the reveal
    transaction id), the request is a valid bitwork string, the extension, if
    any, is between 0 and 15, and the hexadecimal id starts with the
    requested prefix. *)
Theorem accepted_mint_did_requested_work tx tx_hash ops spent mint_type mint_info request tx_id :
  factory tx tx_hash (Some ops) spent = Ok (Some (mint_type, mint_info)) ->
  (dict_get (payload_args ops) "bitworkc" = Some request /\ tx_id = commit_txid ops)
  \/ (dict_get (payload_args ops) "bitworkr" = Some request
      /\ tx_id = reveal_location_txid ops) ->
  truthy request = true ->
  exists b parts,
    is_valid_bitwork_string request = Some (b, parts)
    /\ is_proof_of_work_prefix_match tx_id (bw_prefix parts) (bw_ext parts) = Ok true
    /\ Str.startswith (hash_to_hex_str tx_id) (bw_prefix parts) = true
    /\ match bw_ext parts with Some ext => (0 <= ext <= 15)%Z | None => True end.
Proof.
  intros Hfactory Hrequest Htruthy.
  exact (requested_work_matches _ _ _ _ _ _ _ _ Hfactory Hrequest Htruthy).
Qed.

(** X7: an accepted mint asks for at most one name.  Among the arguments
    [request_realm], [request_subrealm], [request_container] and
    [request_ticker] of an accepted mint, at most one is truthy. *)
Theorem accepted_mint_requests_one_name tx tx_hash ops spent mint_type mint_info :
  factory tx tx_hash (Some ops) spent = Ok (Some (mint_type, mint_info)) ->
  (count_occ Bool.bool_dec (name_requests (payload_args ops)) true <= 1)%nat.
Proof.
  intros Hfactory.
  destruct (factory_accepts _ _ _ _ _ _ Hfactory)
    as (based & flag & with_parents & typed & Hgates & _).
  destruct (gates_pass _ _ _ _ Hgates) as (_ & _ & _ & Hcount & _).
  revert Hcount. unfold requested_names, name_requests. cbn [fst].
  destruct (truthy_opt (dict_get _ "request_realm"));
    destruct (truthy_opt (dict_get _ "request_subrealm"));
    destruct (truthy_opt (dict_get _ "request_container"));
    destruct (truthy_opt (dict_get _ "request_ticker"));
    cbn; lia.
Qed.

(** X8: a realm, a container or a ticker costs a commit bitwork of four
    characters.  For an accepted mint with a truthy [request_realm],
    [request_container] or [request_ticker], [args] hold a truthy [bitworkc]
    that is a valid bitwork string whose prefix has at least four
    characters, the hexadecimal commit transaction id starts with that
    prefix, and the request is recorded under [$bitworkc]. *)
Theorem named_mint_has_commit_bitwork tx tx_hash ops spent mint_type mint_info :
  factory tx tx_hash (Some ops) spent = Ok (Some (mint_type, mint_info)) ->
  truthy_opt (dict_get (payload_args ops) "request_realm")
  || truthy_opt (dict_get (payload_args ops) "request_container")
  || truthy_opt (dict_get (payload_args ops) "request_ticker") = true ->
  exists request b parts,
    dict_get (payload_args ops) "bitworkc" = Some request
    /\ truthy request = true
    /\ is_valid_bitwork_string request = Some (b, parts)
    /\ (4 <= Str.len (bw_prefix parts))%nat
    /\ Str.startswith (hash_to_hex_str (commit_txid ops)) (bw_prefix parts) = true
    /\ dict_get mint_info "$bitworkc" = Some request.
Proof.
  intros Hfactory Hname.
  destruct (factory_args _ _ _ _ _ _ Hfactory)
    as (based & flag & with_parents & typed & Hgates & _ & _ & _ & Hbit & _ & Hargs & _).
  destruct (gates_pass _ _ _ _ Hgates) as (_ & _ & Hflag & _).
  assert (Hneeds : flag = true).
  { unfold requested_names in Hflag. cbn [fst] in Hflag.
    injection Hflag as Hflag. rewrite <- Hflag. exact Hname. }
  subst flag. revert Hbit. unfold bitwork_gate. rewrite Hargs. cbn [andb].
  destruct (dict_get (payload_args ops) "bitworkc") as [request |] eqn:Hrequest;
    cbn [truthy_opt negb]; [| discriminate].
  destruct (truthy request) eqn:Htruthy; cbn [negb]; [| discriminate].
  destruct (is_valid_bitwork_string request) as [[b parts] |] eqn:Hvalid;
    [| discriminate].
  destruct (Nat.ltb_spec (Str.len (bw_prefix parts)) 4) as [| Hlen]; [discriminate |].
  intros Hreveal.
  destruct (requested_work_matches _ _ _ _ _ _ request (commit_txid ops)
              Hfactory (or_introl (conj Hrequest eq_refl)) Htruthy)
    as (b' & parts' & Hvalid' & _ & Hstart & _).
  rewrite Hvalid in Hvalid'. injection Hvalid' as <- <-.
  exists request, b, parts. repeat split; try assumption.
  rewrite (bitwork_arg_keeps _ _ _ _ Hreveal) by discriminate.
  apply dict_get_set_same.
Qed.

Ltac dict_lookup :=
  repeat first [ rewrite dict_get_set_same
               | rewrite dict_get_set_other by discriminate ].

(** The record after the NFT branch agrees with the record before it, but
    for the type and the name fields. *)
Lemma nft_gate_keeps m typed k :
  nft_gate m = Ok (Some typed) ->
  ~ In k ["type"; "$request_realm"; "$request_subrealm"; "$parent_realm";
          "$request_container"] ->
  dict_get typed k = dict_get m k.
Proof.
  intros Hgate Hk. cbn [In] in Hk.
  destruct (nft_gate_cases _ _ Hgate)
    as [(realm & _ & _ & ->) | [(subrealm & claim & parent & _ & _ & _ & _ & _ & _ & ->)
       | [(container & _ & _ & ->) | ->]]];
    rewrite !dict_get_set_other by (intros <-; tauto); reflexivity.
Qed.

Lemma dft_gate_keeps m typed k :
  dft_gate m = Ok (Some typed) ->
  ~ In k ["type"; "subtype"; "$request_ticker"; "$mint_height"; "$mint_amount";
          "$max_mints"; "$mint_bitworkc"; "$mint_bitworkr"] ->
  dict_get typed k = dict_get m k.
Proof.
  intros Hgate Hk. cbn [In] in Hk.
  destruct (dft_gate_cases _ _ Hgate)
    as (ticker & h & a & mx & with_commit & _ & _ & _ & _ & Hcommit & Hreveal).
  rewrite (bitwork_arg_keeps _ _ _ _ Hreveal) by (intros ->; tauto).
  rewrite (bitwork_arg_keeps _ _ _ _ Hcommit) by (intros ->; tauto).
  rewrite !dict_get_set_other by (intros <-; tauto). reflexivity.
Qed.

(** The type that the dispatch records. *)
Lemma type_gate_type ops with_parents typed mint_type :
  type_gate ops with_parents = Ok (Some typed) ->
  dict_get with_parents "type" = None ->
  dict_get typed "type" = Some (VStr mint_type) ->
  input_index ops = 0%nat
  /\ ((op ops = "nft" /\ mint_type = "NFT")
      \/ ((op ops = "ft" \/ op ops = "dft") /\ mint_type = "FT")).
Proof.
  intros Hgate Hnone Htype.
  destruct (type_gate_cases _ _ _ Hgate)
    as [(Hop & Hidx & Hnft) | [(Hop & Hidx & Hft) | [(Hop & Hidx & Hdft) | ->]]].
  - split; [exact Hidx |]. left. split; [exact Hop |].
    destruct (nft_gate_cases _ _ Hnft)
      as [(realm & _ & _ & ->) | [(subrealm & claim & parent & _ & _ & _ & _ & _ & _ & ->)
         | [(container & _ & _ & ->) | ->]]];
      revert Htype; dict_lookup; congruence.
  - split; [exact Hidx |]. right. split; [auto |].
    destruct (ft_gate_cases _ _ Hft) as (ticker & _ & ->).
    revert Htype. dict_lookup. congruence.
  - split; [exact Hidx |]. right. split; [auto |].
    destruct (dft_gate_cases _ _ Hdft)
      as (ticker & h & a & mx & with_commit & _ & _ & _ & _ & Hcommit & Hreveal).
    revert Htype.
    rewrite (bitwork_arg_keeps _ _ _ _ Hreveal) by discriminate.
    rewrite (bitwork_arg_keeps _ _ _ _ Hcommit) by discriminate.
    dict_lookup. congruence.
  - congruence.
Qed.

(** The closing assertion of the builder. *)
Lemma factory_commit_location tx tx_hash ops spent mint_type mint_info :
  factory tx tx_hash (Some ops) spent = Ok (Some (mint_type, mint_info)) ->
  (0 <= commit_index ops < 2 ^ 32)%Z
  /\ commit_location ops = commit_txid ops ++ le_bytes 4 (Z.to_N (commit_index ops)).
Proof.
  unfold get_mint_info_op_factory.
  destruct (gates tx ops) as [[[based needs_bitwork] |] | e]; cbn [rbind];
    try discriminate.
  destruct (parents_gate _ _ based spent) as [[with_parents |] | e];
    cbn [rbind]; try discriminate.
  destruct (type_gate ops with_parents) as [[typed |] | e]; cbn [rbind];
    try discriminate.
  destruct (dict_get typed "type") as [[| | | | t | | | |] |]; try discriminate.
  destruct (bitwork_gate needs_bitwork typed) as [final |]; [| discriminate].
  unfold pack_le_uint32.
  destruct (Z.leb_spec 0 (commit_index ops)); cbn [andb rbind]; [| discriminate].
  destruct (Z.ltb_spec (commit_index ops) (2 ^ 32)); cbn [rbind]; [| discriminate].
  destruct (bool_decide_reflect
              (commit_location ops
               = commit_txid ops ++ le_bytes 4 (Z.to_N (commit_index ops))));
    cbn [negb]; [| discriminate].
  intros _. split; [lia | assumption].
Qed.

(** X9: what is minted, and where.  An accepted mint comes from an
    operation found at input 0; the operation is [nft] and the type is
    [NFT], or the operation is [ft] or [dft] and the type is [FT]; the
    returned type is the one recorded in the mint information; and the
    commit location is the commit transaction id followed by the commit
    index, which fits 32 bits, in little-endian order. *)
Theorem accepted_mint_op_and_type tx tx_hash ops spent mint_type mint_info :
  factory tx tx_hash (Some ops) spent = Ok (Some (mint_type, mint_info)) ->
  input_index ops = 0%nat
  /\ ((op ops = "nft" /\ mint_type = "NFT")
      \/ ((op ops = "ft" \/ op ops = "dft") /\ mint_type = "FT"))
  /\ dict_get mint_info "type" = Some (VStr mint_type)
  /\ (0 <= commit_index ops < 2 ^ 32)%Z
  /\ commit_location ops = commit_txid ops ++ le_bytes 4 (Z.to_N (commit_index ops)).
Proof.
  intros Hfactory.
  destruct (factory_args _ _ _ _ _ _ Hfactory)
    as (based & flag & with_parents & typed
        & _ & _ & Htyped & Htype & Hbit & _ & _ & Hnone).
  destruct (type_gate_type _ _ _ _ Htyped Hnone Htype) as [Hidx Hop].
  split; [exact Hidx |]. split; [exact Hop |].
  split; [| exact (factory_commit_location _ _ _ _ _ _ Hfactory)].
  rewrite (bitwork_gate_keeps _ _ _ _ Hbit) by discriminate. exact Htype.
Qed.

Lemma args_of_set m k v : k <> "args" -> args_of (dict_set m k v) = args_of m.
Proof. intros Hk. unfold args_of. rewrite dict_get_set_other by exact Hk. reflexivity. Qed.

(** X10: the limits of a decentralized token.  An accepted [dft] mint has a
    ticker that is a string matching the ticker grammar, a [mint_height]
    between 0 and 10000000, a [mint_amount] between 546 and 100000000 and a
    [max_mints] between 1 and 100000, all of them of type [int]; the mint
    information records them under [$request_ticker], [$mint_height],
    [$mint_amount] and [$max_mints], with the subtype [decentralized]. *)
Theorem accepted_dft_is_within_limits tx tx_hash ops spent mint_type mint_info :
  factory tx tx_hash (Some ops) spent = Ok (Some (mint_type, mint_info)) ->
  op ops = "dft" ->
  mint_type = "FT"
  /\ dict_get mint_info "subtype" = Some (VStr "decentralized")
  /\ exists ticker mint_height mint_amount max_mints height amount count,
       dict_get (payload_args ops) "request_ticker" = Some (VStr ticker)
       /\ re_match re_ticker ticker = true
       /\ dict_get mint_info "$request_ticker" = Some (VStr ticker)
       /\ dict_get (payload_args ops) "mint_height" = Some mint_height
       /\ dict_get mint_info "$mint_height" = Some mint_height
       /\ as_int mint_height = Some height /\ (0 <= height <= 10000000)%Z
       /\ dict_get (payload_args ops) "mint_amount" = Some mint_amount
       /\ dict_get mint_info "$mint_amount" = Some mint_amount
       /\ as_int mint_amount = Some amount /\ (546 <= amount <= 100000000)%Z
       /\ dict_get (payload_args ops) "max_mints" = Some max_mints
       /\ dict_get mint_info "$max_mints" = Some max_mints
       /\ as_int max_mints = Some count /\ (1 <= count <= 100000)%Z.
Proof.
  intros Hfactory Hop.
  destruct (factory_args _ _ _ _ _ _ Hfactory)
    as (based & flag & with_parents & typed
        & _ & _ & Htyped & Htype & Hbit & Hargs & _ & Hnone).
  destruct (type_gate_type _ _ _ _ Htyped Hnone Htype) as [_ [[Hnft _] | [_ ->]]];
    [congruence |].
  split; [reflexivity |].
  destruct (type_gate_cases _ _ _ Htyped)
    as [(Hop' & _) | [(Hop' & _) | [(_ & _ & Hdft) | ->]]]; try congruence.
  destruct (dft_gate_cases _ _ Hdft)
    as (ticker & h & a & mx & with_commit
        & Hticker & Hheight & Hamount & Hmax & Hcommit & Hreveal).
  rewrite !args_of_set, Hargs in Hticker, Hheight, Hamount, Hmax by discriminate.
  destruct (requested_ticker_valid _ _ Hticker) as [Hrequest Hvalid].
  destruct (int_arg_within_bounds _ _ _ _ _ Hheight) as (Hh & height & Hheight_int & Hheight_in).
  destruct (int_arg_within_bounds _ _ _ _ _ Hamount) as (Ha & amount & Hamount_int & Hamount_in).
  destruct (int_arg_within_bounds _ _ _ _ _ Hmax) as (Hm & count & Hcount_int & Hcount_in).
  assert (Hkeep : forall k, k <> "$bitworkc" -> k <> "$bitworkr" ->
                  k <> "$mint_bitworkc" -> k <> "$mint_bitworkr" ->
                  dict_get mint_info k
                  = dict_get (dict_set (dict_set (dict_set (dict_set
                      (dict_set (dict_set with_parents "type" (VStr "FT"))
                         "subtype" (VStr "decentralized"))
                      "$request_ticker" (VStr ticker)) "$mint_height" h)
                      "$mint_amount" a) "$max_mints" mx) k).
  { intros k H1 H2 H3 H4.
    rewrite (bitwork_gate_keeps _ _ _ _ Hbit) by assumption.
    rewrite (bitwork_arg_keeps _ _ _ _ Hreveal) by assumption.
    apply (bitwork_arg_keeps _ _ _ _ Hcommit). assumption. }
  split; [rewrite Hkeep by discriminate; dict_lookup; reflexivity |].
  exists ticker, h, a, mx, height, amount, count.
  unfold DFT_MINT_HEIGHT_MIN, DFT_MINT_HEIGHT_MAX, DFT_MINT_AMOUNT_MIN,
    DFT_MINT_AMOUNT_MAX, DFT_MINT_MAX_MIN_COUNT, DFT_MINT_MAX_MAX_COUNT in *.
  assert (Hmatch : re_match re_ticker ticker = true).
  { revert Hvalid. unfold is_valid_ticker_string.
    destruct (negb (truthy (VStr ticker))); [discriminate |]. congruence. }
  repeat split; try assumption; try lia;
    rewrite Hkeep by discriminate; dict_lookup; reflexivity.
Qed.

(** X11: the names that a mint records are valid names.  In the mint
    information of an accepted mint, a value under [$request_realm],
    [$request_subrealm] or [$request_container] is the string that [args]
    request, it passes the validator of its kind and the type is [NFT]; a
    subrealm comes with a claim type [direct] or [rule] and a parent realm
    that is a compact atomical id, recorded under [$parent_realm]; a value
    under [$request_ticker] is the requested string, it passes the ticker
    validator and the type is [FT]. *)
Theorem recorded_names_are_valid tx tx_hash ops spent mint_type mint_info :
  factory tx tx_hash (Some ops) spent = Ok (Some (mint_type, mint_info)) ->
  match dict_get mint_info "$request_realm" with
  | Some name =>
      mint_type = "NFT"
      /\ dict_get (payload_args ops) "request_realm" = Some name
      /\ is_valid_realm_string_name name = true
  | None => True
  end
  /\ match dict_get mint_info "$request_subrealm" with
     | Some name =>
         mint_type = "NFT"
         /\ dict_get (payload_args ops) "request_subrealm" = Some name
         /\ is_valid_subrealm_string_name name = true
         /\ exists claim_type parent,
              dict_get (payload_args ops) "claim_type" = Some (VStr claim_type)
              /\ (claim_type = "direct" \/ claim_type = "rule")
              /\ dict_get (payload_args ops) "parent_realm" = Some (VStr parent)
              /\ dict_get mint_info "$parent_realm" = Some (VStr parent)
              /\ is_compact_atomical_id (VStr parent) = Ok true
     | None => True
     end
  /\ match dict_get mint_info "$request_container" with
     | Some name =>
         mint_type = "NFT"
         /\ dict_get (payload_args ops) "request_container" = Some name
         /\ is_valid_container_string_name name = true
     | None => True
     end
  /\ match dict_get mint_info "$request_ticker" with
     | Some name =>
         mint_type = "FT"
         /\ dict_get (payload_args ops) "request_ticker" = Some name
         /\ is_valid_ticker_string name = Ok (Some true)
     | None => True
     end.
Proof.
  intros Hfactory.
  destruct (factory_args _ _ _ _ _ _ Hfactory)
    as (based & flag & with_parents & typed
        & Hgates & Hparents & Htyped & Htype & Hbit & Hargs & _ & Hnone).
  assert (Hfresh : forall k,
    In k ["$request_realm"; "$request_subrealm"; "$parent_realm";
          "$request_container"; "$request_ticker"] ->
    dict_get with_parents k = None).
  { intros k Hk. rewrite (parents_gate_keeps _ _ _ k Hparents).
    - apply (gates_fresh _ _ _ _ k Hgates). cbn [In] in *. tauto.
    - cbn [In] in Hk. intros ->. repeat destruct Hk as [Hk | Hk]; discriminate || tauto. }
  destruct (type_gate_type _ _ _ _ Htyped Hnone Htype) as [_ Hkind].
  rewrite !(bitwork_gate_keeps _ _ _ _ Hbit) by discriminate.
  destruct (type_gate_cases _ _ _ Htyped)
    as [(Hop & _ & Hnft) | [(Hop & _ & Hft) | [(Hop & _ & Hdft) | ->]]];
    [| | | congruence].
  - assert (mint_type = "NFT") as ->
      by (destruct Hkind as [[_ H] | [[H | H] _]]; congruence).
    destruct (nft_gate_cases _ _ Hnft)
      as [(realm & Hrealm & Hvalid & ->)
         | [(subrealm & claim & parent & Hsub & Hvalid & Hclaim & Hkinds & Hparent
             & Hcompact & ->)
         | [(container & Hcont & Hvalid & ->) | ->]]];
      rewrite ?args_of_set, ?Hargs in * by discriminate;
      dict_lookup; rewrite !Hfresh by (cbn [In]; tauto);
      repeat split; try assumption.
    exists claim, parent. repeat split; try assumption.
  - assert (mint_type = "FT") as ->
      by (destruct Hkind as [[H _] | [_ H]]; congruence).
    destruct (ft_gate_cases _ _ Hft) as (ticker & Hticker & ->).
    rewrite !args_of_set, Hargs in Hticker by discriminate.
    destruct (requested_ticker_valid _ _ Hticker) as [Hrequest Hvalid].
    dict_lookup. rewrite !Hfresh by (cbn [In]; tauto).
    repeat split; assumption.
  - assert (mint_type = "FT") as ->
      by (destruct Hkind as [[H _] | [_ H]]; congruence).
    destruct (dft_gate_cases _ _ Hdft)
      as (ticker & h & a & mx & with_commit & Hticker & _ & _ & _ & Hcommit & Hreveal).
    rewrite !args_of_set, Hargs in Hticker by discriminate.
    destruct (requested_ticker_valid _ _ Hticker) as [Hrequest Hvalid].
    rewrite !(bitwork_arg_keeps _ _ _ _ Hreveal) by discriminate.
    rewrite !(bitwork_arg_keeps _ _ _ _ Hcommit) by discriminate.
    dict_lookup. rewrite !Hfresh by (cbn [In]; tauto).
    repeat split; assumption.
Qed.

End BuilderGates.

(** X6 on the sample realm mint: the commit bitwork [0011] is matched by the
    commit transaction id [0011...]. *)
Lemma accepted_mint_did_requested_work_witness :
  exists b parts,
    is_valid_bitwork_string (VStr "0011") = Some (b, parts)
    /\ is_proof_of_work_prefix_match (unhex sample_key) (bw_prefix parts) (bw_ext parts)
       = Ok true
    /\ Str.startswith (hash_to_hex_str (unhex sample_key)) (bw_prefix parts) = true
    /\ match bw_ext parts with Some ext => (0 <= ext <= 15)%Z | None => True end.
Proof.
  refine (accepted_mint_did_requested_work sample_hash sample_hash sample_krock32 11 32
            (tx_with_outputs [1000%Z]) sample_tx_hash (sample_op "nft" sample_realm_args)
            None _ _ (VStr "0011") (unhex sample_key) _ _ _).
  - vm_compute. reflexivity.
  - left. split; reflexivity.
  - reflexivity.
Defined.

(** X7 on the sample realm mint. *)
Lemma accepted_mint_requests_one_name_witness :
  (count_occ Bool.bool_dec (name_requests sample_realm_args) true <= 1)%nat.
Proof.
  refine (accepted_mint_requests_one_name sample_hash sample_hash sample_krock32 11 32
            (tx_with_outputs [1000%Z]) sample_tx_hash (sample_op "nft" sample_realm_args)
            None _ _ _).
  vm_compute. reflexivity.
Defined.

(** X8 on the sample realm mint: the realm [abc] comes with the commit
    bitwork [0011]. *)
Lemma named_mint_has_commit_bitwork_witness :
  exists mint_info request b parts,
    dict_get (payload_args (sample_op "nft" sample_realm_args)) "bitworkc" = Some request
    /\ truthy request = true
    /\ is_valid_bitwork_string request = Some (b, parts)
    /\ (4 <= Str.len (bw_prefix parts))%nat
    /\ Str.startswith (hash_to_hex_str (commit_txid (sample_op "nft" sample_realm_args)))
         (bw_prefix parts) = true
    /\ dict_get mint_info "$bitworkc" = Some request.
Proof.
  eexists.
  refine (named_mint_has_commit_bitwork sample_hash sample_hash sample_krock32 11 32
            (tx_with_outputs [1000%Z]) sample_tx_hash (sample_op "nft" sample_realm_args)
            None _ _ _ _).
  - vm_compute. reflexivity.
  - reflexivity.
Defined.

(** X9 on the sample realm mint: an [nft] operation at input 0 gives the
    type [NFT]. *)
Lemma accepted_mint_op_and_type_witness :
  exists mint_type mint_info,
    input_index (sample_op "nft" sample_realm_args) = 0%nat
    /\ ((op (sample_op "nft" sample_realm_args) = "nft" /\ mint_type = "NFT")
        \/ ((op (sample_op "nft" sample_realm_args) = "ft"
             \/ op (sample_op "nft" sample_realm_args) = "dft") /\ mint_type = "FT"))
    /\ dict_get mint_info "type" = Some (VStr mint_type)
    /\ (0 <= commit_index (sample_op "nft" sample_realm_args) < 2 ^ 32)%Z
    /\ commit_location (sample_op "nft" sample_realm_args)
       = commit_txid (sample_op "nft" sample_realm_args)
         ++ le_bytes 4 (Z.to_N (commit_index (sample_op "nft" sample_realm_args))).
Proof.
  do 2 eexists.
  refine (accepted_mint_op_and_type sample_hash sample_hash sample_krock32 11 32
            (tx_with_outputs [1000%Z]) sample_tx_hash (sample_op "nft" sample_realm_args)
            None _ _ _).
  vm_compute. reflexivity.
Defined.

(** X10 on the sample deployment of the ticker [atom]. *)
Lemma accepted_dft_is_within_limits_witness :
  exists mint_type mint_info,
    mint_type = "FT"
    /\ dict_get mint_info "subtype" = Some (VStr "decentralized")
    /\ exists ticker mint_height mint_amount max_mints height amount count,
         dict_get sample_dft_args "request_ticker" = Some (VStr ticker)
         /\ re_match re_ticker ticker = true
         /\ dict_get mint_info "$request_ticker" = Some (VStr ticker)
         /\ dict_get sample_dft_args "mint_height" = Some mint_height
         /\ dict_get mint_info "$mint_height" = Some mint_height
         /\ as_int mint_height = Some height /\ (0 <= height <= 10000000)%Z
         /\ dict_get sample_dft_args "mint_amount" = Some mint_amount
         /\ dict_get mint_info "$mint_amount" = Some mint_amount
         /\ as_int mint_amount = Some amount /\ (546 <= amount <= 100000000)%Z
         /\ dict_get sample_dft_args "max_mints" = Some max_mints
         /\ dict_get mint_info "$max_mints" = Some max_mints
         /\ as_int max_mints = Some count /\ (1 <= count <= 100000)%Z.
Proof.
  do 2 eexists.
  refine (accepted_dft_is_within_limits sample_hash sample_hash sample_krock32 11 32
            (tx_with_outputs [1000%Z]) sample_tx_hash (sample_op "dft" sample_dft_args)
            None _ _ _ _).
  - vm_compute. reflexivity.
  - reflexivity.
Defined.

(** X11 on the sample realm mint: the recorded realm is the requested
    [abc]. *)
Lemma recorded_names_are_valid_witness :
  exists mint_type mint_info,
    match dict_get mint_info "$request_realm" with
    | Some name =>
        mint_type = "NFT"
        /\ dict_get sample_realm_args "request_realm" = Some name
        /\ is_valid_realm_string_name name = true
    | None => True
    end
    /\ dict_get mint_info "$request_realm" = Some (VStr "abc").
Proof.
  do 2 eexists. split.
  - refine (proj1 (recorded_names_are_valid sample_hash sample_hash sample_krock32 11 32
                     (tx_with_outputs [1000%Z]) sample_tx_hash
                     (sample_op "nft" sample_realm_args) None _ _ _)).
    vm_compute. reflexivity.
  - reflexivity.
Defined.

(** ** Reading a payload back *)

Section Pushes.

Ltac reassoc :=
  rewrite <- ?app_assoc; cbn [app]; rewrite <- ?app_assoc; reflexivity.

Lemma slice_middle {A : Type} (before data after : list A) n m :
  n = length before -> m = (n + length data)%nat ->
  slice (before ++ data ++ after) n m = data.
Proof.
  intros -> ->. unfold slice. rewrite drop_app_length.
  replace (length before + length data - length before)%nat with (length data) by lia.
  apply take_app_length.
Qed.

Lemma byte_at_middle (before : list byte) x after n :
  n = length before ->
  byte_at (before ++ x :: after) n = Ok (byte_val x).
Proof.
  intros ->. unfold byte_at. rewrite list_lookup_middle by reflexivity. reflexivity.
Qed.

Lemma byte_val_of_small n : (n < 256)%N -> byte_val (byte_of n) = n.
Proof. intros Hn. rewrite byte_val_of. apply N.mod_small. exact Hn. Qed.

(** [parse_push_data] reads a written push back. *)
Lemma parse_push_data_reads (before data after : list byte) :
  (N.of_nat (length data) < 2 ^ 32)%N ->
  exists op dlen,
    byte_at (before ++ push_data data ++ after) (length before) = Ok op
    /\ (op <=? OpCodes.OP_PUSHDATA4)%N = true
    /\ parse_push_data op (length before + 1) (before ++ push_data data ++ after)
       = Ok (data, (length before + length (push_data data))%nat, dlen).
Proof.
  intros Hlen. unfold push_data.
  destruct (N.ltb_spec (N.of_nat (length data)) OpCodes.OP_PUSHDATA1) as [H1 | H1].
  - exists (N.of_nat (length data)), (length data).
    assert (Hsmall : (N.of_nat (length data) < 256)%N)
      by (unfold OpCodes.OP_PUSHDATA1 in H1; lia).
    split; [cbn [app]; rewrite byte_at_middle by reflexivity;
            rewrite byte_val_of_small by exact Hsmall; reflexivity |].
    split; [unfold OpCodes.OP_PUSHDATA4, OpCodes.OP_PUSHDATA1 in *; apply N.leb_le; lia |].
    unfold parse_push_data.
    replace (N.of_nat (length data) <=? OpCodes.OP_PUSHDATA4)%N with true
      by (symmetry; unfold OpCodes.OP_PUSHDATA4, OpCodes.OP_PUSHDATA1 in *; apply N.leb_le; lia).
    replace (N.of_nat (length data) <? OpCodes.OP_PUSHDATA1)%N with true
      by (symmetry; apply N.ltb_lt; exact H1).
    cbn [rbind]. rewrite Nat2N.id.
    replace (before ++ (byte_of (N.of_nat (length data)) :: data) ++ after)
      with ((before ++ [byte_of (N.of_nat (length data))]) ++ data ++ after)
      by reassoc.
    rewrite slice_middle by (rewrite ?length_app; reflexivity).
    destruct (Nat.ltb_spec (length ((before ++ [byte_of (N.of_nat (length data))]) ++ data ++ after))
                (length before + 1 + length data)) as [Hshort | _].
    { rewrite !length_app in Hshort. cbn [length] in Hshort. lia. }
    cbn [length]. do 3 f_equal. lia.
  - destruct (N.ltb_spec (N.of_nat (length data)) 256) as [H2 | H2].
    + exists OpCodes.OP_PUSHDATA1, (length data).
      split; [cbn [app]; rewrite byte_at_middle by reflexivity; reflexivity |].
      split; [reflexivity |].
      unfold parse_push_data.
      change (OpCodes.OP_PUSHDATA1 <=? OpCodes.OP_PUSHDATA4)%N with true.
      change (OpCodes.OP_PUSHDATA1 <? OpCodes.OP_PUSHDATA1)%N with false.
      change (OpCodes.OP_PUSHDATA1 =? OpCodes.OP_PUSHDATA1)%N with true.
      cbv iota.
      replace (before ++ (byte_of OpCodes.OP_PUSHDATA1 :: byte_of (N.of_nat (length data)) :: data) ++ after)
        with ((before ++ [byte_of OpCodes.OP_PUSHDATA1])
                ++ byte_of (N.of_nat (length data)) :: data ++ after)
        by reassoc.
      rewrite byte_at_middle by (rewrite length_app; reflexivity).
      rewrite byte_val_of_small by exact H2. cbn [rbind]. rewrite Nat2N.id.
      replace ((before ++ [byte_of OpCodes.OP_PUSHDATA1])
                 ++ byte_of (N.of_nat (length data)) :: data ++ after)
        with ((before ++ [byte_of OpCodes.OP_PUSHDATA1; byte_of (N.of_nat (length data))])
                ++ data ++ after)
        by reassoc.
      rewrite slice_middle by (rewrite ?length_app; cbn [length]; lia).
      destruct (Nat.ltb_spec
                  (length ((before ++ [byte_of OpCodes.OP_PUSHDATA1;
                                       byte_of (N.of_nat (length data))]) ++ data ++ after))
                  (length before + 1 + 1 + length data)) as [Hshort | _].
      { rewrite !length_app in Hshort. cbn [length] in Hshort. lia. }
      cbn [length]. do 3 f_equal. lia.
    + assert (Hwide : forall op width,
        (width = 2%nat /\ op = OpCodes.OP_PUSHDATA2 /\ (N.of_nat (length data) < 65536)%N)
        \/ (width = 4%nat /\ op = OpCodes.OP_PUSHDATA4) ->
        byte_at (before ++ (byte_of op :: le_bytes width (N.of_nat (length data)) ++ data)
                   ++ after) (length before) = Ok op
        /\ (op <=? OpCodes.OP_PUSHDATA4)%N = true
        /\ parse_push_data op (length before + 1)
             (before ++ (byte_of op :: le_bytes width (N.of_nat (length data)) ++ data)
                ++ after)
           = Ok (data,
                 (length before
                  + length (byte_of op :: le_bytes width (N.of_nat (length data)) ++ data))%nat,
                 length data)).
      { intros op width Hcase.
        assert (Hop : byte_val (byte_of op) = op)
          by (destruct Hcase as [(_ & -> & _) | (_ & ->)]; reflexivity).
        split; [cbn [app]; rewrite byte_at_middle by reflexivity; rewrite Hop; reflexivity |].
        split; [destruct Hcase as [(_ & -> & _) | (_ & ->)]; reflexivity |].
        set (field := le_bytes width (N.of_nat (length data))).
        assert (Hfield : length field = width) by apply le_bytes_length.
        assert (Hvalue : le_value field = N.of_nat (length data)).
        { unfold field. rewrite le_value_bytes. apply N.mod_small.
          destruct Hcase as [(-> & _ & Hsmall) | (-> & _)]; [exact Hsmall | exact Hlen]. }
        replace (before ++ (byte_of op :: field ++ data) ++ after)
          with ((before ++ [byte_of op]) ++ field ++ data ++ after)
          by reassoc.
        assert (Hread : unpack_le_uint_from width
                          (slice ((before ++ [byte_of op]) ++ field ++ data ++ after)
                             (length before + 1) (length before + 1 + width))
                        = Ok (Z.of_N (N.of_nat (length data)))).
        { rewrite slice_middle by (rewrite ?length_app, ?Hfield; reflexivity).
          unfold unpack_le_uint_from. rewrite Hfield, Nat.leb_refl.
          rewrite (take_ge field) by lia. rewrite Hvalue. reflexivity. }
        assert (Hdata : slice ((before ++ [byte_of op]) ++ field ++ data ++ after)
                          (length before + 1 + width)
                          (length before + 1 + width + length data) = data).
        { replace ((before ++ [byte_of op]) ++ field ++ data ++ after)
            with ((before ++ [byte_of op] ++ field) ++ data ++ after)
            by reassoc.
          apply slice_middle; rewrite ?length_app, ?Hfield; cbn [length]; lia. }
        assert (Hfits : (length ((before ++ [byte_of op]) ++ field ++ data ++ after)
                         <? length before + 1 + width + length data)%nat = false).
        { apply Nat.ltb_ge. rewrite !length_app, Hfield. cbn [length]. lia. }
        unfold parse_push_data.
        destruct Hcase as [(-> & -> & _) | (-> & ->)].
        - change (OpCodes.OP_PUSHDATA2 <=? OpCodes.OP_PUSHDATA4)%N with true.
          change (OpCodes.OP_PUSHDATA2 <? OpCodes.OP_PUSHDATA1)%N with false.
          change (OpCodes.OP_PUSHDATA2 =? OpCodes.OP_PUSHDATA1)%N with false.
          change (OpCodes.OP_PUSHDATA2 =? OpCodes.OP_PUSHDATA2)%N with true.
          cbv iota. unfold unpack_le_uint16_from. rewrite Hread. cbn [rbind].
          replace (Z.to_nat (Z.of_N (N.of_nat (length data)))) with (length data) by lia.
          rewrite Hfits, Hdata.
          rewrite !length_cons, !length_app, Hfield. do 3 f_equal. lia.
        - change (OpCodes.OP_PUSHDATA4 <=? OpCodes.OP_PUSHDATA4)%N with true.
          change (OpCodes.OP_PUSHDATA4 <? OpCodes.OP_PUSHDATA1)%N with false.
          change (OpCodes.OP_PUSHDATA4 =? OpCodes.OP_PUSHDATA1)%N with false.
          change (OpCodes.OP_PUSHDATA4 =? OpCodes.OP_PUSHDATA2)%N with false.
          cbv iota. unfold unpack_le_uint32_from. rewrite Hread. cbn [rbind].
          replace (Z.to_nat (Z.of_N (N.of_nat (length data)))) with (length data) by lia.
          rewrite Hfits, Hdata.
          rewrite !length_cons, !length_app, Hfield. do 3 f_equal. lia. }
      destruct (N.ltb_spec (N.of_nat (length data)) 65536) as [H3 | H3].
      * exists OpCodes.OP_PUSHDATA2, (length data). apply Hwide. left. auto.
      * exists OpCodes.OP_PUSHDATA4, (length data). apply Hwide. right. auto.
Qed.

Lemma push_data_length data : (1 <= length (push_data data))%nat.
Proof.
  unfold push_data.
  repeat match goal with |- context [if ?c then _ else _] => destruct c end;
    cbn [length]; lia.
Qed.

Lemma payload_script_cons chunk chunks :
  payload_script (chunk :: chunks) = push_data chunk ++ payload_script chunks.
Proof. unfold payload_script. cbn [map concat]. rewrite <- app_assoc. reflexivity. Qed.

(** The accumulating loop reads the written chunks one after the other and
    stops at the closing [OP_ENDIF]. *)
Lemma data_definition_loop_reads chunks : forall before after acc fuel,
  Forall (fun chunk => (N.of_nat (length chunk) < 2 ^ 32)%N) chunks ->
  (length (payload_script chunks ++ after) <= fuel)%nat ->
  data_definition_loop fuel (before ++ payload_script chunks ++ after) (length before) acc
  = Ok (acc ++ concat chunks).
Proof.
  induction chunks as [| chunk chunks IH]; intros before after acc fuel Hsmall Hfuel.
  - unfold payload_script in *. cbn [map concat app] in *.
    destruct fuel as [| fuel]; [cbn [length] in Hfuel; lia |].
    cbn [data_definition_loop].
    destruct (Nat.ltb_spec (length before) (length (before ++ byte_of OpCodes.OP_ENDIF :: after)))
      as [_ | Hshort]; [| rewrite length_app in Hshort; cbn [length] in Hshort; lia].
    rewrite byte_at_middle by reflexivity. cbn [rbind].
    change (byte_val (byte_of OpCodes.OP_ENDIF) =? OpCodes.OP_ENDIF)%N with true.
    cbv iota. rewrite app_nil_r. reflexivity.
  - inversion Hsmall as [| ? ? Hchunk Hrest]; subst.
    rewrite payload_script_cons in *. rewrite <- app_assoc in *.
    pose proof (push_data_length chunk) as Hpush.
    destruct fuel as [| fuel]; [rewrite length_app in Hfuel; lia |].
    cbn [data_definition_loop].
    destruct (Nat.ltb_spec (length before)
                (length (before ++ push_data chunk ++ payload_script chunks ++ after)))
      as [_ | Hshort]; [| rewrite !length_app in Hshort; lia].
    destruct (parse_push_data_reads before chunk (payload_script chunks ++ after) Hchunk)
      as (op & dlen & Hop & Hpushop & Hparse).
    rewrite Hop. cbn [rbind].
    assert (Hendif : (op =? OpCodes.OP_ENDIF)%N = false).
    { apply N.eqb_neq. apply N.leb_le in Hpushop.
      unfold OpCodes.OP_PUSHDATA4, OpCodes.OP_ENDIF in *. lia. }
    rewrite Hendif, Hpushop, Hparse. cbn [rbind].
    replace (before ++ push_data chunk ++ payload_script chunks ++ after)
      with ((before ++ push_data chunk) ++ payload_script chunks ++ after)
      by (rewrite <- app_assoc; reflexivity).
    rewrite <- length_app.
    rewrite (IH (before ++ push_data chunk) after (acc ++ chunk) fuel Hrest).
    + cbn [concat]. rewrite <- app_assoc. reflexivity.
    + rewrite length_app in Hfuel. lia.
Qed.

Lemma tokenizer_reads before after chunks :
  Forall (fun chunk => (N.of_nat (length chunk) < 2 ^ 32)%N) chunks ->
  parse_atomicals_data_definition_operation (before ++ payload_script chunks ++ after)
    (length before)
  = Ok (concat chunks).
Proof.
  intros Hsmall. unfold parse_atomicals_data_definition_operation.
  rewrite (data_definition_loop_reads chunks before after [] _ Hsmall).
  - reflexivity.
  - rewrite !length_app. lia.
Qed.

End Pushes.

(** X12: a payload written in pushes is read back whole.  For chunks of
    less than 2^32 bytes, each written as one push, followed by [OP_ENDIF]
    and by anything, the tokenizer started at the first push returns the
    chunks joined in order: a payload may be split over any number of
    pushes, and what follows [OP_ENDIF] is not read. *)
Theorem written_payload_is_read_back (before after : list byte) (chunks : list (list byte)) :
  Forall (fun chunk => (N.of_nat (length chunk) < 2 ^ 32)%N) chunks ->
  parse_atomicals_data_definition_operation (before ++ payload_script chunks ++ after)
    (length before)
  = Ok (concat chunks).
Proof. exact (tokenizer_reads before after chunks). Qed.

(** X12 on a payload in two pushes, after the opcode bytes and before a
    byte that is not a push. *)
Lemma written_payload_is_read_back_witness :
  parse_atomicals_data_definition_operation
    (unhex "036e6674" ++ payload_script [unhex "a16161"; unhex "01"] ++ unhex "ff") 4
  = Ok (unhex "a1616101").
Proof.
  apply (written_payload_is_read_back (unhex "036e6674") (unhex "ff")
           [unhex "a16161"; unhex "01"]).
  repeat constructor.
Defined.

(** ** Finding the operation of a reveal script *)

Section Envelope.

Lemma try_op_len_tail (pre tail : list byte) op_len table :
  try_op_len (pre ++ tail) (length pre) op_len table
  = match try_op_len tail 0 op_len table with
    | Some (name, start) => Some (name, (length pre + start)%nat)
    | None => None
    end.
Proof.
  unfold try_op_len, slice. rewrite length_app, drop_app_length.
  replace (length pre + op_len - length pre)%nat with op_len by lia.
  cbn [drop Nat.add]. rewrite Nat.sub_0_r.
  destruct (Nat.ltb_spec (length pre + op_len) (length pre + length tail));
    destruct (Nat.ltb_spec op_len (length tail)); try lia; [| reflexivity].
  destruct (table _); reflexivity.
Qed.

Lemma locate_operation_tail (pre tail : list byte) :
  locate_operation (pre ++ tail) (length pre)
  = match locate_operation tail 0 with
    | Some (name, start) => Some (name, (length pre + start)%nat)
    | None => None
    end.
Proof.
  unfold locate_operation. rewrite !try_op_len_tail.
  destruct (try_op_len tail 0 4 three_letter_op) as [[] |]; [reflexivity |].
  destruct (try_op_len tail 0 3 two_letter_op) as [[] |]; [reflexivity |].
  reflexivity.
Qed.

(** The bytes of an operation, followed by at least one byte, are decoded
    as that operation. *)
Lemma locate_operation_code name code x rest :
  (name, code) ∈ operation_codes ->
  locate_operation (unhex code ++ x :: rest) 0 = Some (name, length (unhex code)).
Proof.
  unfold operation_codes. rewrite !elem_of_cons, elem_of_nil.
  intros Hin.
  do 10 (destruct Hin as [[= -> ->] | Hin];
         [destruct rest as [| y [| z rest]]; vm_compute; reflexivity |]).
  destruct Hin.
Qed.

Lemma envelope_prefix_length key :
  length key = 32%nat ->
  length (Byte.x20 :: key ++ Byte.x63 :: unhex ATOMICALS_ENVELOPE_MARKER_BYTES) = 39%nat.
Proof. intros Hkey. cbn [length]. rewrite length_app, Hkey. reflexivity. Qed.

(** The scan of one witness element that holds an envelope comes to the
    decoding of the operation behind the marker. *)
Lemma envelope_script_scan key rest later :
  length key = 32%nat ->
  (1 <= length rest)%nat ->
  parse_protocols_operations_from_witness_for_input (envelope_script key rest :: later)
  = let* r := parse_operation_from_script (envelope_script key rest) 39 in
    match r with
    | Some found => Ok (Some found)
    | None => parse_protocols_operations_from_witness_for_input later
    end.
Proof.
  intros Hkey Hrest.
  set (script := envelope_script key rest) in *.
  assert (Hscript : script = (Byte.x20 :: key) ++ Byte.x63 :: unhex ATOMICALS_ENVELOPE_MARKER_BYTES ++ rest)
    by reflexivity.
  assert (Hlen : length script = (39 + length rest)%nat).
  { rewrite Hscript, length_app. cbn [length]. rewrite length_app, Hkey. reflexivity. }
  assert (Hif : byte_at script 33 = Ok OpCodes.OP_IF).
  { unfold byte_at. rewrite Hscript, lookup_app_r by (simpl; lia).
    simpl. rewrite Hkey. reflexivity. }
  assert (Hmarker : bytes_hex (slice script (33 + 1) (33 + 1 + 5)) = ATOMICALS_ENVELOPE_MARKER_BYTES).
  { unfold slice. rewrite Hscript.
    replace (33 + 1)%nat with (length (Byte.x20 :: key) + 1)%nat by (simpl; lia).
    rewrite <- drop_drop, drop_app_length.
    replace (length (Byte.x20 :: key) + 1 + 5 - (length (Byte.x20 :: key) + 1))%nat
      with 5%nat by lia.
    replace (unhex ATOMICALS_ENVELOPE_MARKER_BYTES)
      with [Byte.x04; Byte.x61; Byte.x74; Byte.x6f; Byte.x6d] by reflexivity.
    reflexivity. }
  cbn [parse_protocols_operations_from_witness_for_input].
  destruct (Nat.ltb_spec (length script) 39) as [| _]; [lia |].
  replace (match script with b :: _ => (byte_val b =? 32)%N | [] => false end) with true
    by reflexivity.
  simpl negb. simpl orb. cbv iota.
  destruct (length script) as [| fuel] eqn:Hfuel; [lia |].
  rewrite pubkey_loop_at_key; [| lia | reflexivity | lia].
  change (0 + 1 + 32)%nat with 33%nat.
  rewrite Hfuel, envelope_loop_at_marker; [| lia | exact Hif | exact Hmarker].
  change (33 + 1 + 5)%nat with 39%nat.
  destruct (parse_operation_from_script script 39) as [[[operation_type payload] |] | e];
    reflexivity.
Qed.

Lemma written_operation_found key after name code chunks later :
  length key = 32%nat ->
  (name, code) ∈ operation_codes ->
  Forall (fun chunk => (N.of_nat (length chunk) < 2 ^ 32)%N) chunks ->
  parse_protocols_operations_from_witness_for_input
    (envelope_script key (unhex code ++ payload_script chunks ++ after) :: later)
  = Ok (Some (name, concat chunks)).
Proof.
  intros Hkey Hcode Hsmall.
  assert (Hfollow : exists x rest, payload_script chunks ++ after = x :: rest).
  { unfold payload_script.
    destruct ((concat (map push_data chunks) ++ [byte_of OpCodes.OP_ENDIF]) ++ after)
      as [| x rest] eqn:Hnil; [| eauto].
    apply (f_equal length) in Hnil. rewrite !length_app in Hnil. cbn [length] in Hnil. lia. }
  destruct Hfollow as (x & rest & Hfollow).
  rewrite envelope_script_scan; [| exact Hkey | rewrite Hfollow, length_app; cbn [length]; lia].
  unfold parse_operation_from_script, envelope_script.
  set (pre := Byte.x20 :: key ++ Byte.x63 :: unhex ATOMICALS_ENVELOPE_MARKER_BYTES).
  assert (Hpre : length pre = 39%nat) by exact (envelope_prefix_length key Hkey).
  replace (Byte.x20 :: key ++ Byte.x63 :: unhex ATOMICALS_ENVELOPE_MARKER_BYTES
             ++ unhex code ++ payload_script chunks ++ after)
    with (pre ++ unhex code ++ payload_script chunks ++ after)
    by (unfold pre; cbn [app]; rewrite <- app_assoc; reflexivity).
  rewrite <- Hpre at 1. rewrite locate_operation_tail, Hfollow.
  rewrite (locate_operation_code name code x rest Hcode), <- Hfollow.
  replace (pre ++ unhex code ++ payload_script chunks ++ after)
    with ((pre ++ unhex code) ++ payload_script chunks ++ after)
    by (rewrite <- app_assoc; reflexivity).
  rewrite <- length_app, (tokenizer_reads _ _ _ Hsmall). reflexivity.
Qed.

Lemma witness_for_input_first before : forall later,
  parse_protocols_operations_from_witness_for_input (before ++ later)
  = match parse_protocols_operations_from_witness_for_input before with
    | Ok None => parse_protocols_operations_from_witness_for_input later
    | found => found
    end.
Proof.
  induction before as [| script before IH]; intros later; [reflexivity |].
  cbn [app parse_protocols_operations_from_witness_for_input].
  destruct (_ || _); [apply IH |].
  destruct (pubkey_loop _ script 0) as [[found |] | e]; cbn [rbind];
    [reflexivity | apply IH | reflexivity].
Qed.

End Envelope.



(** X14: the first operation of a witness wins.  The scan of a witness
    returns what the scan of its first elements returns, an operation or an
    error, and goes on to the later elements only when the first ones yield
    nothing. *)
Theorem first_operation_wins (before later : list (list byte)) :
  parse_protocols_operations_from_witness_for_input (before ++ later)
  = match parse_protocols_operations_from_witness_for_input before with
    | Ok None => parse_protocols_operations_from_witness_for_input later
    | found => found
    end.
Proof. exact (witness_for_input_first before later). Qed.

(** ** The operation struct *)

Section OperationStruct.

Variable loads : list byte -> option pyval.

Lemma try_op_len_name script n op_len table name start :
  try_op_len script n op_len table = Some (name, start) ->
  exists code, table code = Some name.
Proof.
  unfold try_op_len. destruct (_ <? _)%nat; [| discriminate].
  destruct (table _) as [decoded |] eqn:Hcode; [| discriminate].
  intros [= <- _]. eauto.
Qed.

Lemma locate_operation_name script n name start :
  locate_operation script n = Some (name, start) ->
  name ∈ map fst operation_codes.
Proof.
  unfold locate_operation.
  destruct (try_op_len script n 4 three_letter_op) as [[name3 start3] |] eqn:H3.
  { intros [= <- _]. destruct (try_op_len_name _ _ _ _ _ _ H3) as [code Hcode].
    revert Hcode. unfold three_letter_op.
    repeat (destruct (String.eqb code _);
            [intros [= <-]; cbn; rewrite !elem_of_cons; tauto |]).
    discriminate. }
  destruct (try_op_len script n 3 two_letter_op) as [[name2 start2] |] eqn:H2.
  { intros [= <- _]. destruct (try_op_len_name _ _ _ _ _ _ H2) as [code Hcode].
    revert Hcode. unfold two_letter_op.
    repeat (destruct (String.eqb code _);
            [intros [= <-]; cbn; rewrite !elem_of_cons; tauto |]).
    discriminate. }
  intros H1. destruct (try_op_len_name _ _ _ _ _ _ H1) as [code Hcode].
  revert Hcode. unfold one_letter_op.
  repeat (destruct (String.eqb code _);
          [intros [= <-]; cbn; rewrite !elem_of_cons; tauto |]).
  discriminate.
Qed.

Lemma parse_operation_name script n name payload :
  parse_operation_from_script script n = Ok (Some (name, payload)) ->
  name ∈ map fst operation_codes.
Proof.
  unfold parse_operation_from_script.
  destruct (locate_operation script n) as [[decoded start] |] eqn:Hlocate;
    [| discriminate].
  destruct (parse_atomicals_data_definition_operation script start); cbn [rbind];
    [| discriminate].
  intros [= <- _]. exact (locate_operation_name _ _ _ _ Hlocate).
Qed.

Lemma envelope_loop_name fuel script : forall n name payload,
  envelope_loop fuel script n = Ok (Return name payload) ->
  name ∈ map fst operation_codes.
Proof.
  induction fuel as [| fuel IH]; intros n name payload; cbn [envelope_loop];
    [discriminate |].
  destruct (_ <? _)%nat; [| discriminate].
  destruct (byte_at script n) as [op |]; cbn [rbind]; [| discriminate].
  destruct (op =? OpCodes.OP_IF)%N; [| apply IH].
  destruct (String.eqb _ _); [| discriminate].
  destruct (parse_operation_from_script script (n + 1 + 5))
    as [[[decoded bytes] |] | e] eqn:Hparse; cbn [rbind]; try discriminate.
  intros [= <- _]. exact (parse_operation_name _ _ _ _ Hparse).
Qed.

Lemma pubkey_loop_name fuel script : forall n name payload,
  pubkey_loop fuel script n = Ok (Some (name, payload)) ->
  name ∈ map fst operation_codes.
Proof.
  induction fuel as [| fuel IH]; intros n name payload; cbn [pubkey_loop];
    [discriminate |].
  destruct (_ <? _)%nat; [| discriminate].
  destruct (byte_at script n) as [op |]; cbn [rbind]; [| discriminate].
  destruct (_ && _); [| discriminate].
  destruct (envelope_loop (length script) script (n + 1 + 32))
    as [[decoded bytes | n' found] | e] eqn:Hscan; cbn [rbind]; try discriminate.
  - intros [= <- _]. exact (envelope_loop_name _ _ _ _ _ Hscan).
  - destruct found; [discriminate | apply IH].
Qed.

Lemma witness_for_input_name txinwitness : forall name payload,
  parse_protocols_operations_from_witness_for_input txinwitness = Ok (Some (name, payload)) ->
  name ∈ map fst operation_codes.
Proof.
  induction txinwitness as [| script rest IH]; intros name payload;
    cbn [parse_protocols_operations_from_witness_for_input]; [discriminate |].
  destruct (_ || _); [apply IH |].
  destruct (pubkey_loop (length script) script 0) as [[[decoded bytes] |] | e] eqn:Hscan;
    cbn [rbind]; try discriminate; [| apply IH].
  intros [= <- _]. exact (pubkey_loop_name _ _ _ _ _ Hscan).
Qed.

(** What holds of a struct that the loop over the witnesses returns. *)
Lemma witness_array_loop_struct tx tx_hash ws : forall txin_idx s,
  witness_array_loop loads tx tx_hash ws txin_idx = Ok (Operation s) ->
  op s ∈ map fst operation_codes
  /\ payload_bytes s <> []
  /\ loads (payload_bytes s) = Some (VDict (payload s))
  /\ payload_not_permitted (payload s) = false
  /\ (txin_idx <= input_index s < txin_idx + length ws)%nat
  /\ (exists txin,
        inputs tx !! input_index s = Some txin
        /\ commit_txid s = prev_hash txin /\ commit_index s = prev_idx txin)
  /\ (0 <= commit_index s < 2 ^ 32)%Z
  /\ commit_location s = commit_txid s ++ le_bytes 4 (Z.to_N (commit_index s))
  /\ reveal_location_txid s = tx_hash
  /\ reveal_location_index s = 0%Z.
Proof.
  induction ws as [| txinwitness ws IH]; intros txin_idx s; cbn [witness_array_loop];
    [discriminate |].
  assert (Hlater : forall idx,
    (txin_idx <= idx <= txin_idx + 1)%nat ->
    witness_array_loop loads tx tx_hash ws idx = Ok (Operation s) ->
    op s ∈ map fst operation_codes
    /\ payload_bytes s <> []
    /\ loads (payload_bytes s) = Some (VDict (payload s))
    /\ payload_not_permitted (payload s) = false
    /\ (txin_idx <= input_index s < txin_idx + length (txinwitness :: ws))%nat
    /\ (exists txin,
          inputs tx !! input_index s = Some txin
          /\ commit_txid s = prev_hash txin /\ commit_index s = prev_idx txin)
    /\ (0 <= commit_index s < 2 ^ 32)%Z
    /\ commit_location s = commit_txid s ++ le_bytes 4 (Z.to_N (commit_index s))
    /\ reveal_location_txid s = tx_hash
    /\ reveal_location_index s = 0%Z).
  { intros idx Hidx Hloop.
    destruct (IH idx s Hloop) as (H1 & H2 & H3 & H4 & H5 & H6 & H7 & H8 & H9 & H10).
    cbn [length]. repeat split; try assumption; lia. }
  destruct (parse_protocols_operations_from_witness_for_input txinwitness)
    as [[[op_name bytes] |] | e] eqn:Hfound; cbn [rbind]; try discriminate;
    [| apply Hlater; lia].
  destruct bytes as [| b bytes]; [apply Hlater; lia |].
  destruct (loads (b :: bytes)) as [[| | | | | | | decoded |] |] eqn:Hloads;
    try (apply Hlater; lia).
  destruct (payload_not_permitted decoded) eqn:Hpermitted; [apply Hlater; lia |].
  destruct (inputs tx !! txin_idx) as [txin |] eqn:Htxin; [| discriminate].
  unfold pack_le_uint32.
  destruct (Z.leb_spec 0 (prev_idx txin)); cbn [andb]; [| discriminate].
  destruct (Z.ltb_spec (prev_idx txin) (2 ^ 32)); cbn [rbind]; [| discriminate].
  intros [= <-]. cbn.
  split; [exact (witness_for_input_name _ _ _ Hfound) |].
  split; [discriminate |].
  split; [exact Hloads |]. split; [exact Hpermitted |].
  split; [lia |]. split; [exists txin; auto |]. split; [lia |]. auto.
Qed.

End OperationStruct.

(** X15: the struct of a found operation.  When the parser of a
    transaction returns an operation, its name is one of the ten operations,
    its payload bytes are not empty and decode to the returned dict, whose
    [meta], [args], [ctx] and [init] passed the sanitizer; its input index
    is below the number of witnesses, the transaction has an input at that
    index, and the commit fields are the previous output of that input with
    an index that fits 32 bits; the reveal location is output 0 of the given
    transaction hash.  Without a [witness] attribute the parser returns the
    empty dict. *)
Theorem found_operation_struct (loads : list byte -> option pyval) (tx : Tx) (tx_hash : list byte) :
  match parse_protocols_operations_from_witness_array loads tx tx_hash with
  | Ok (Operation s) =>
      op s ∈ map fst operation_codes
      /\ payload_bytes s <> []
      /\ loads (payload_bytes s) = Some (VDict (payload s))
      /\ payload_not_permitted (payload s) = false
      /\ (exists ws, witness tx = Some ws /\ (input_index s < length ws)%nat)
      /\ (exists txin,
            inputs tx !! input_index s = Some txin
            /\ commit_txid s = prev_hash txin /\ commit_index s = prev_idx txin)
      /\ (0 <= commit_index s < 2 ^ 32)%Z
      /\ commit_location s = commit_txid s ++ le_bytes 4 (Z.to_N (commit_index s))
      /\ reveal_location_txid s = tx_hash
      /\ reveal_location_index s = 0%Z
  | Ok EmptyDict => witness tx = None
  | Ok NoOperation => witness tx <> None
  | Raise e => witness tx <> None
  end.
Proof.
  unfold parse_protocols_operations_from_witness_array.
  destruct (witness tx) as [ws |]; [| reflexivity].
  destruct (witness_array_loop loads tx tx_hash ws 0) as [[| | s] | e] eqn:Hloop;
    try discriminate.
  - exfalso. revert Hloop. generalize 0%nat.
    induction ws as [| txinwitness ws IH]; intros idx; cbn [witness_array_loop];
      [discriminate |].
    destruct (parse_protocols_operations_from_witness_for_input txinwitness)
      as [[[op_name bytes] |] | e]; cbn [rbind]; try discriminate; [| apply IH].
    destruct bytes as [| b bytes]; [apply IH |].
    destruct (loads (b :: bytes)) as [[| | | | | | | decoded |] |]; try apply IH.
    destruct (payload_not_permitted decoded); [apply IH |].
    destruct (inputs tx !! idx); [| discriminate].
    destruct (pack_le_uint32 _); discriminate.
  - destruct (witness_array_loop_struct loads tx tx_hash ws 0 s Hloop)
      as (H1 & H2 & H3 & H4 & H5 & H6 & H7 & H8 & H9 & H10).
    repeat split; try assumption; try lia.
    exists ws. split; [reflexivity | lia].
Qed.

(** ** Payment markers *)

(** X16: a written payment marker is read back.  From an output script made
    of [OP_RETURN], alone or after a zero byte, the envelope marker, the
    push of [p] and a push of a 36-byte atomical id, followed by anything,
    the function returns that id.  After a zero byte the length test lets a
    script pass that is one byte short: an id of 35 bytes at the end of the
    script is returned as it is. *)
Theorem payment_marker_is_read_back (zero_first : bool) (atomical_id short_id after : list byte) :
  length atomical_id = 36%nat ->
  length short_id = 35%nat ->
  is_op_return_payment_marker_atomical_id
    (payment_marker_script zero_first atomical_id ++ after) = Some atomical_id
  /\ is_op_return_payment_marker_atomical_id (payment_marker_script true short_id)
     = Some short_id
  /\ is_op_return_payment_marker_atomical_id (payment_marker_script false short_id)
     = None.
Proof.
  intros Hid Hshort.
  assert (Hread : forall zero id rest,
    (36 <= length (id ++ rest) \/ (zero = true /\ 35 <= length (id ++ rest)))%nat ->
    is_op_return_payment_marker_atomical_id (payment_marker_script zero id ++ rest)
    = Some (take 36 (id ++ rest))).
  { intros zero id rest Hlen.
    unfold payment_marker_script.
    replace (unhex ATOMICALS_ENVELOPE_MARKER_BYTES)
      with [Byte.x04; Byte.x61; Byte.x74; Byte.x6f; Byte.x6d] by reflexivity.
    replace (unhex "0170") with [Byte.x01; Byte.x70] by reflexivity.
    unfold is_op_return_payment_marker_atomical_id.
    destruct zero; cbn [app]; rewrite <- ?app_assoc; cbn [app length].
    - destruct (Nat.ltb_spec (S (S (S (S (S (S (S (S (S (S (length (id ++ rest))))))))))))
                  (1 + 5 + 2 + 1 + 36)) as [Hlt | _]; [cbn in Hlt; lia |].
      reflexivity.
    - destruct (Nat.ltb_spec (S (S (S (S (S (S (S (S (S (length (id ++ rest)))))))))))
                  (1 + 5 + 2 + 1 + 36)) as [Hlt | _]; [cbn in Hlt; lia |].
      reflexivity. }
  split; [| split].
  - rewrite Hread by (left; rewrite length_app; lia).
    rewrite take_app_length' by (symmetry; exact Hid). reflexivity.
  - rewrite <- (app_nil_r (payment_marker_script true short_id)).
    rewrite Hread by (right; rewrite app_nil_r; split; [reflexivity | lia]).
    rewrite app_nil_r, take_ge by lia. reflexivity.
  - unfold payment_marker_script, is_op_return_payment_marker_atomical_id.
    replace (unhex ATOMICALS_ENVELOPE_MARKER_BYTES)
      with [Byte.x04; Byte.x61; Byte.x74; Byte.x6f; Byte.x6d] by reflexivity.
    replace (unhex "0170") with [Byte.x01; Byte.x70] by reflexivity.
    cbn [app length]. rewrite Hshort. reflexivity.
Qed.

(** X16 on the sample atomical id. *)
Lemma payment_marker_is_read_back_witness :
  is_op_return_payment_marker_atomical_id
    (payment_marker_script false sample_atomical_id ++ unhex "ff") = Some sample_atomical_id
  /\ is_op_return_payment_marker_atomical_id
       (payment_marker_script true (take 35 sample_atomical_id))
     = Some (take 35 sample_atomical_id)
  /\ is_op_return_payment_marker_atomical_id
       (payment_marker_script false (take 35 sample_atomical_id))
     = None.
Proof.
  apply (payment_marker_is_read_back false sample_atomical_id (take 35 sample_atomical_id)
           (unhex "ff")).
  - reflexivity.
  - reflexivity.
Defined.

(** ** Decoding a compact id *)

Section CompactIds.

Lemma fromhex_raises_within n : forall s e,
  (String.length s <= n)%nat -> bytes_fromhex s = Raise e -> e = ValueError.
Proof.
  induction n as [| n IH]; intros [| c s] e Hlen; cbn [String.length] in Hlen;
    try discriminate; try lia.
  cbn [bytes_fromhex].
  destruct (is_ascii_space c); [apply IH; lia |].
  destruct (hex_val c) as [hi |]; [| intros [= <-]; reflexivity].
  destruct s as [| d s]; [intros [= <-]; reflexivity |].
  destruct (hex_val d) as [lo |]; [| intros [= <-]; reflexivity].
  destruct (bytes_fromhex s) as [rest | e'] eqn:Hrest; cbn [rbind]; [discriminate |].
  intros [= <-]. apply (IH s); [cbn [String.length] in Hlen; lia | exact Hrest].
Qed.

Lemma fromhex_raises s e : bytes_fromhex s = Raise e -> e = ValueError.
Proof. apply (fromhex_raises_within (String.length s)). lia. Qed.

Lemma py_int_raises s e : py_int s = Raise e -> e = ValueError.
Proof.
  unfold py_int.
  destruct (match rstrip (lstrip s) with
            | String "-" r => ((-1)%Z, r)
            | String "+" r => (1%Z, r)
            | _ => (1%Z, rstrip (lstrip s))
            end) as [sign body].
  destruct (unsigned_int body); [discriminate | intros [= <-]; reflexivity].
Qed.

Lemma index_field_value num :
  (0 <= num <= 100000)%Z ->
  le_value (le_bytes 4 (Z.to_N num)) = Z.to_N num.
Proof.
  intros Hnum. rewrite le_value_bytes. apply N.mod_small.
  change (256 ^ N.of_nat 4)%N with 4294967296%N. lia.
Qed.

End CompactIds.

(** X17: what a compact id converts to.  When the conversion of a compact
    id returns, the result has 36 bytes, the string is a compact atomical
    id, and the 36 bytes split into the 32-byte hash that the first 64
    characters decode to and the index that the text after the [i] parses
    to, which is between 0 and 100000; the way back prints the hash and that
    index.  When the conversion raises, it raises [ValueError] or
    [TypeError]. *)
Theorem compact_id_converts (value : string) :
  match compact_to_location_id_bytes value with
  | Ok location_id =>
      length location_id = 36%nat
      /\ is_compact_atomical_id (VStr value) = Ok true
      /\ exists tx_hash index,
           get_tx_hash_index_from_location_id location_id = Ok (tx_hash, index)
           /\ length tx_hash = 32%nat
           /\ hex_str_to_hash (Str.take 64 value) = Ok tx_hash
           /\ py_int (Str.drop 65 value) = Ok index
           /\ (0 <= index <= 100000)%Z
           /\ location_id_bytes_to_compact location_id
              = Ok (hash_to_hex_str tx_hash +:+ "i" +:+ py_str index)
  | Raise e => e = ValueError \/ e = TypeError
  end.
Proof.
  destruct (compact_to_location_id_bytes value) as [location_id | e] eqn:Hconvert.
  - pose proof (is_compact_of_converted _ _ Hconvert) as Hcompact.
    revert Hconvert. unfold compact_to_location_id_bytes.
    destruct (Str.find "i" value) as [index_of_i |]; [| discriminate].
    destruct (negb (index_of_i =? 64)%nat); [discriminate |].
    destruct (hex_str_to_hash (Str.take 64 value)) as [raw_hash |] eqn:Hraw;
      cbn [rbind]; [| discriminate].
    destruct (Nat.eqb_spec (length raw_hash) 32) as [Hlen |]; cbn [negb];
      [| discriminate].
    destruct (py_int (Str.drop 65 value)) as [num |] eqn:Hnum; cbn [rbind];
      [| discriminate].
    destruct (Z.ltb_spec num 0); [discriminate |].
    destruct (Z.gtb_spec num 100000); [discriminate |]. cbn [orb].
    unfold pack_le_uint32.
    destruct (Z.leb_spec 0 num); [| lia].
    destruct (Z.ltb_spec num (2 ^ 32)); [| lia]. cbn [andb rbind].
    intros [= <-].
    change (raw_hash ++ _) with (raw_hash ++ le_bytes 4 (Z.to_N num)).
    assert (Hfield : length (le_bytes 4 (Z.to_N num)) = 4%nat) by apply le_bytes_length.
    assert (Htotal : length (raw_hash ++ le_bytes 4 (Z.to_N num)) = 36%nat)
      by (rewrite length_app, Hlen, Hfield; reflexivity).
    split; [exact Htotal |]. split; [exact Hcompact |].
    exists raw_hash, num.
    assert (Htake : take 32 (raw_hash ++ le_bytes 4 (Z.to_N num)) = raw_hash)
      by (apply take_app_length'; symmetry; exact Hlen).
    assert (Hdrop : drop 32 (raw_hash ++ le_bytes 4 (Z.to_N num)) = le_bytes 4 (Z.to_N num))
      by (apply drop_app_length'; symmetry; exact Hlen).
    split.
    { unfold get_tx_hash_index_from_location_id, slice.
      rewrite Hdrop. unfold unpack_le_uint32_from, unpack_le_uint_from.
      rewrite !take_ge by (rewrite ?length_take, Hfield; cbn; lia).
      rewrite Hfield. cbn [Nat.leb rbind].
      rewrite Htake, index_field_value by lia. rewrite Z2N.id by lia. reflexivity. }
    split; [exact Hlen |]. split; [reflexivity |]. split; [reflexivity |].
    split; [lia |].
    rewrite (location_id_bytes_to_compact_36 _ Htotal), Htake, Hdrop.
    rewrite index_field_value by lia. rewrite Z2N.id by lia. reflexivity.
  - revert Hconvert. unfold compact_to_location_id_bytes.
    destruct (Str.find "i" value) as [index_of_i |]; [| intros [= <-]; auto].
    destruct (negb (index_of_i =? 64)%nat); [intros [= <-]; auto |].
    destruct (hex_str_to_hash (Str.take 64 value)) as [raw_hash | e'] eqn:Hraw;
      cbn [rbind]; [| intros [= <-]; left; exact (fromhex_raises _ _ Hraw)].
    destruct (negb (length raw_hash =? 32)%nat); [intros [= <-]; auto |].
    destruct (py_int (Str.drop 65 value)) as [num | e'] eqn:Hnum; cbn [rbind];
      [| intros [= <-]; left; exact (py_int_raises _ _ Hnum)].
    destruct (Z.ltb_spec num 0); [intros [= <-]; auto |].
    destruct (Z.gtb_spec num 100000); [intros [= <-]; auto |]. cbn [orb].
    unfold pack_le_uint32.
    destruct (Z.leb_spec 0 num); [| lia].
    destruct (Z.ltb_spec num (2 ^ 32)); [| lia]. discriminate.
Qed.

(** ** Candidate status *)

Section Status.

Lemma location_id_to_compact_raises location_id e :
  location_id_bytes_to_compact location_id = Raise e -> e = StructError.
Proof.
  unfold location_id_bytes_to_compact, unpack_le_uint32_from, unpack_le_uint_from.
  destruct (_ <=? _)%nat; cbn [rbind]; [discriminate | intros [= <-]; reflexivity].
Qed.

Lemma compact_of_candidate_raises candidate_id e :
  compact_of_candidate candidate_id = Raise e -> e = StructError.
Proof.
  unfold compact_of_candidate.
  destruct candidate_id as [[| b bs] |]; try discriminate.
  destruct (location_id_bytes_to_compact (b :: bs)) eqn:Hcompact; cbn [rbind];
    [discriminate |].
  intros [= <-]. exact (location_id_to_compact_raises _ _ Hcompact).
Qed.

Lemma status_is_of status rest s :
  status_is (("status", VStr status) :: rest) s = String.eqb status s.
Proof. reflexivity. Qed.

End Status.



(** ** Conservation of the coloured value *)

Section Conservation.

Lemma spec_color_sound values : forall before remaining,
  let d := spec_color remaining values (length before) in
  fst d = seq (length before) (length (fst d))
  /\ (length (fst d) <= length values)%nat
  /\ (coloured_value (before ++ values) (fst d) + snd d = remaining)%Z
  /\ (Z.min 0 remaining <= snd d)%Z.
Proof.
  induction values as [| v rest IH]; intros before remaining; cbn [spec_color].
  - cbn. repeat split; lia.
  - destruct (Z.leb_spec v remaining) as [Hfits | Hover]; [| cbn; repeat split; lia].
    specialize (IH (before ++ [v]) (remaining - v)%Z).
    rewrite length_app in IH. cbn [length] in IH.
    replace (length before + 1)%nat with (S (length before)) in IH by lia.
    destruct (spec_color (remaining - v) rest (S (length before))) as [colored amount_left].
    cbn [fst snd length] in *. destruct IH as (Hseq & Hlen & Hsum & Hleft).
    rewrite <- app_assoc in Hsum. cbn [app] in Hsum.
    split; [cbn [seq]; f_equal; exact Hseq |].
    split; [lia |].
    split; [| lia].
    cbn [coloured_value foldr]. rewrite list_lookup_middle by reflexivity.
    fold (coloured_value (before ++ v :: rest) colored). lia.
Qed.

Lemma spec_skip_sound skip values : forall before accumulated remaining,
  let d := spec_skip_then_color skip accumulated remaining values (length before) in
  exists first,
    fst d = seq first (length (fst d))
    /\ (length before <= first)%nat
    /\ (first + length (fst d) <= length before + length values)%nat
    /\ (coloured_value (before ++ values) (fst d) + snd d = remaining)%Z
    /\ (Z.min 0 remaining <= snd d)%Z.
Proof.
  induction values as [| v rest IH]; intros before accumulated remaining;
    cbn [spec_skip_then_color].
  - exists (length before). cbn. repeat split; lia.
  - destruct (accumulated <? skip)%Z.
    + specialize (IH (before ++ [v]) (accumulated + v)%Z remaining).
      rewrite length_app in IH. cbn [length] in IH.
      replace (length before + 1)%nat with (S (length before)) in IH by lia.
      destruct IH as (first & Hseq & Hfirst & Hlen & Hsum & Hleft).
      rewrite <- app_assoc in Hsum. cbn [app] in Hsum.
      exists first. cbn [length]. repeat split; try assumption; lia.
    + destruct (spec_color_sound (v :: rest) before remaining) as (Hseq & Hlen & Hsum & Hleft).
      exists (length before). repeat split; try assumption; lia.
Qed.

End Conservation.

(** X19: colouring conserves the value of a token.  When the distributor
    returns, the coloured outputs are consecutive outputs of the
    transaction, the sum of their values and the remaining value is the
    value of the atomical, and the remaining value is not negative unless
    the value of the atomical was: the coloured outputs never carry more
    than the atomical has.  The distributor raises [AssertionError] for a
    record that is not of type [FT], and the [struct] error for an id of
    less than 36 bytes. *)
Theorem ft_colouring_conserves_value (mint_info : ft_mint_info) (tx : Tx) (atomical_id : list byte) (atomicals_operations_found : option op_found) :
  match ft_final_state mint_info tx atomical_id atomicals_operations_found with
  | Ok st =>
      get_expected_output_indexes_of_atomical_ft mint_info tx atomical_id
        atomicals_operations_found = Ok (expected_output_indexes st)
      /\ (exists first,
            expected_output_indexes st = seq first (length (expected_output_indexes st))
            /\ (first + length (expected_output_indexes st) <= length (outputs tx))%nat)
      /\ (coloured_value (map value (outputs tx)) (expected_output_indexes st)
          + remaining_value st = mi_value mint_info)%Z
      /\ (Z.min 0 (mi_value mint_info) <= remaining_value st)%Z
  | Raise e =>
      get_expected_output_indexes_of_atomical_ft mint_info tx atomical_id
        atomicals_operations_found = Raise e
      /\ ((e = AssertionError /\ mi_type mint_info <> "FT")
          \/ (e = StructError /\ (length atomical_id < 36)%nat))
  end.
Proof.
  unfold get_expected_output_indexes_of_atomical_ft, ft_final_state.
  destruct (String.eqb_spec (mi_type mint_info) "FT") as [Htype | Htype]; cbn [negb rbind];
    [| split; [reflexivity | left; split; [reflexivity | exact Htype]]].
  unfold location_id_bytes_to_compact, unpack_le_uint32_from, unpack_le_uint_from.
  destruct (Nat.leb_spec 4 (length (drop 32 atomical_id))) as [Hlen | Hlen];
    cbn [rbind];
    [| split; [reflexivity |]; right; split; [reflexivity |];
       rewrite length_drop in Hlen; lia].
  set (to_skip := ft_total_amount_to_skip _ _).
  destruct (ft_output_loop_spec to_skip (mi_value mint_info) (outputs tx)) as [Hidx Hleft].
  cbv zeta in Hidx, Hleft. rewrite Hidx, Hleft.
  split; [reflexivity |].
  destruct (spec_skip_sound to_skip (map value (outputs tx)) [] 0%Z (mi_value mint_info))
    as (first & Hseq & _ & Hbound & Hsum & Hmin).
  cbn [app length] in *. rewrite length_map in Hbound.
  unfold spec_distribution.
  split; [exists first; split; [exact Hseq | lia] |].
  split; [exact Hsum | exact Hmin].
Qed.

(** ** The grammar of names *)

Section Grammar.

Lemma re_match_fail s : re_match RFail s = false.
Proof.
  induction s as [| c s IH]; [reflexivity |].
  cbn [re_match deriv nullable]. rewrite IH, andb_false_r. reflexivity.
Qed.

Lemma re_match_cat_fail r s : re_match (RCat RFail r) s = false.
Proof.
  induction s as [| c s IH]; [reflexivity |].
  cbn [re_match deriv nullable andb]. rewrite IH, andb_false_r. reflexivity.
Qed.

Lemma re_match_alt r1 r2 s :
  re_match (RAlt r1 r2) s = re_match r1 s || re_match r2 s.
Proof.
  revert r1 r2. induction s as [| c s IH]; intros r1 r2; [reflexivity |].
  cbn [re_match deriv nullable]. rewrite IH.
  destruct (Ascii.eqb c "010" && String.eqb s EmptyString);
    destruct (nullable r1); destruct (nullable r2);
    destruct (re_match (deriv c r1) s); destruct (re_match (deriv c r2) s); reflexivity.
Qed.

Lemma re_match_cat_eps r s : re_match (RCat REps r) s = re_match r s.
Proof.
  destruct s as [| c s]; [reflexivity |].
  cbn [re_match deriv nullable andb].
  rewrite re_match_alt, re_match_cat_fail. reflexivity.
Qed.

Variable p : ascii -> bool.
Hypothesis p_line_feed : p "010" = false.

(** A bounded repetition of a class matches the strings that are, up to a
    closing line feed, made of [lo] to [hi] characters of the class. *)
Lemma re_match_rep s : forall lo hi,
  re_match (RRep p lo hi) s
  = chars_in p (chomp s) && (lo <=? Str.len (chomp s))%nat && (Str.len (chomp s) <=? hi)%nat.
Proof.
  induction s as [| c s IH]; intros lo hi.
  - cbn. destruct lo; reflexivity.
  - cbn [re_match chomp]. destruct s as [| d s].
    + cbn [String.eqb re_match]. rewrite andb_true_r.
      destruct (Ascii.eqb_spec c "010") as [-> | Hc].
      * cbn [andb deriv]. rewrite p_line_feed.
        replace (nullable match hi with 0%nat => RFail | S _ => RFail end) with false
          by (destruct hi; reflexivity).
        cbn. destruct lo; reflexivity.
      * cbn [andb orb deriv chars_in]. unfold Str.len. cbn [String.length].
        destruct hi as [| hi]; [cbn; rewrite !andb_false_r; reflexivity |].
        destruct (p c); [| reflexivity].
        cbn. destruct lo as [| [| lo]]; reflexivity.
    + replace (Ascii.eqb c "010" && String.eqb (String d s) EmptyString) with false
        by (rewrite andb_false_r; reflexivity).
      cbn [andb orb deriv chars_in]. unfold Str.len in *. cbn [String.length].
      destruct hi as [| hi]; [rewrite re_match_fail, !andb_false_r; reflexivity |].
      destruct (p c); [| rewrite re_match_fail; reflexivity].
      rewrite IH. cbn [andb].
      destruct lo as [| lo]; reflexivity.
Qed.

(** A class followed by a bounded repetition. *)
Lemma re_match_class_rep (first : ascii -> bool) s hi :
  re_match (RCat (RClass first) (RRep p 0 hi)) s
  = match s with
    | EmptyString => false
    | String c rest =>
        first c && chars_in p (chomp rest) && (Str.len (chomp rest) <=? hi)%nat
    end.
Proof.
  destruct s as [| c rest]; [reflexivity |].
  cbn [re_match deriv nullable andb]. rewrite andb_false_r. cbn [orb].
  destruct (first c).
  - rewrite re_match_cat_eps, re_match_rep. cbn [andb].
    destruct (chars_in p (chomp rest)); reflexivity.
  - apply re_match_cat_fail.
Qed.

End Grammar.

Lemma chomp_length s : (Str.len (chomp s) <= Str.len s)%nat.
Proof.
  unfold Str.len. induction s as [| c s IH]; [reflexivity |].
  cbn [chomp]. destruct s as [| d s].
  - destruct (Ascii.eqb c "010"); cbn; lia.
  - cbn [String.length] in *. lia.
Qed.

Lemma name_validator_shape (first : ascii -> bool) (s : string) :
  first "-"%char = false ->
  (if negb (is_valid_namebase_string_name (VStr s)) then false
   else re_match (RCat (RClass first) (RRep cls_az09dash 0 63)) s)
  = name_shape first s.
Proof.
  intros Hfirst.
  rewrite (re_match_class_rep cls_az09dash eq_refl).
  unfold name_shape, is_valid_namebase_string_name.
  destruct s as [| c rest]; [reflexivity |].
  cbn [truthy String.eqb negb Str.head].
  change (Str.len (String c rest)) with (S (Str.len rest)).
  change (S (Str.len rest) <=? 0)%nat with false. rewrite orb_false_r.
  change (64 <? S (Str.len rest))%nat with (63 <? Str.len rest)%nat.
  destruct (Nat.ltb_spec 63 (Str.len rest)) as [Hlong | Hlen]; cbn [negb].
  - destruct (Nat.leb_spec (Str.len rest) 63); [lia |].
    rewrite andb_false_r. reflexivity.
  - destruct (Nat.leb_spec (Str.len rest) 63) as [_ |]; [| lia]. rewrite andb_true_r.
    destruct (bool_decide_reflect (Some c = Some "-"%char)) as [[= ->] | _]; cbn [negb].
    + rewrite Hfirst. reflexivity.
    + destruct (bool_decide (Str.last (String c rest) = Some "-"%char)); cbn [negb].
      * rewrite andb_false_r. reflexivity.
      * rewrite andb_true_r.
        destruct (Nat.leb_spec (Str.len (chomp rest)) 63) as [_ | Hchomp];
          [rewrite andb_true_r; reflexivity |].
        pose proof (chomp_length rest). lia.
Qed.

(** X20: what the name validators accept.  A realm name is a string of at
    most 64 characters that starts with a lower-case letter, goes on with
    lower-case letters, digits and hyphens, and does not end with a hyphen;
    subrealm and container names may start with a digit as well; a ticker is
    made of 1 to 21 lower-case letters and digits.  In each case one line
    feed may close the string: it counts for the length and for the last
    character, not for the characters, so that a name may end with a hyphen
    and a line feed. *)
Theorem names_accepted (s : string) :
  is_valid_realm_string_name (VStr s) = name_shape cls_az s
  /\ is_valid_subrealm_string_name (VStr s) = name_shape cls_az09 s
  /\ is_valid_container_string_name (VStr s) = name_shape cls_az09 s
  /\ is_valid_ticker_string (VStr s)
     = (if String.eqb s EmptyString then Ok None else Ok (Some (ticker_shape s)))
  /\ is_valid_realm_string_name (VStr (String "a" (String "-" (String "010" EmptyString))))
     = true.
Proof.
  split; [exact (name_validator_shape cls_az s eq_refl) |].
  split; [exact (name_validator_shape cls_az09 s eq_refl) |].
  split; [exact (name_validator_shape cls_az09 s eq_refl) |].
  split; [| reflexivity].
  unfold is_valid_ticker_string, ticker_shape. cbn [truthy].
  destruct (String.eqb s EmptyString); cbn [negb]; [reflexivity |].
  unfold re_ticker. rewrite (re_match_rep cls_az09 eq_refl). reflexivity.
Qed.

(** ** Distributed mint operations *)


(** ** Hexadecimal text *)

Section HexText.

Lemma lower_hex_digit c k :
  char_map c = Some k ->
  is_space c = false /\ is_hex_char c = true
  /\ Ascii.eqb c "-" = false /\ Ascii.eqb c "+" = false
  /\ Ascii.eqb c "x" = false /\ Ascii.eqb c "X" = false.
Proof.
  destruct c as [[] [] [] [] [] [] [] []]; vm_compute; intros H;
    first [discriminate | repeat split].
Qed.

Lemma lower_hex_lstrip s : lower_hex s = true -> lstrip s = s.
Proof.
  destruct s as [| c s]; [reflexivity |]. cbn [lower_hex lstrip].
  destruct (char_map c) as [k |] eqn:Hc; [| discriminate].
  destruct (lower_hex_digit c k Hc) as (-> & _). reflexivity.
Qed.

Lemma lower_hex_rstrip s : lower_hex s = true -> rstrip s = s.
Proof.
  induction s as [| c s IH]; [reflexivity |]. cbn [lower_hex rstrip].
  destruct (char_map c) as [k |] eqn:Hc; [| discriminate].
  intros Hs. rewrite (IH Hs).
  destruct (lower_hex_digit c k Hc) as (-> & _). destruct s; reflexivity.
Qed.

Lemma lower_hex_digits_ok s : lower_hex s = true -> hex_digits_ok s = true.
Proof.
  induction s as [| c s IH]; [reflexivity |]. cbn [lower_hex hex_digits_ok].
  destruct (char_map c) as [k |] eqn:Hc; [| discriminate].
  destruct (lower_hex_digit c k Hc) as (_ & -> & _). exact IH.
Qed.

Lemma lower_hex_int16 s :
  lower_hex s = true -> py_int16_ok s = negb (String.eqb s EmptyString).
Proof.
  intros Hs. unfold py_int16_ok.
  rewrite (lower_hex_lstrip s Hs), (lower_hex_rstrip s Hs).
  destruct s as [| c s]; [reflexivity |].
  cbn [lower_hex] in Hs.
  destruct (char_map c) as [k |] eqn:Hc; [| discriminate].
  destruct (lower_hex_digit c k Hc) as (_ & Hhex & Hminus & Hplus & _).
  assert (Hbody : match String c s with
                  | String "-" r => r
                  | String "+" r => r
                  | _ => String c s
                  end = String c s).
  { destruct (Ascii.eqb_spec c "-") as [-> |]; [discriminate |].
    destruct (Ascii.eqb_spec c "+") as [-> |]; [discriminate |].
    destruct c as [[] [] [] [] [] [] [] []]; try reflexivity; congruence. }
  rewrite Hbody.
  assert (Hprefix : match String c s with
                    | String "0" (String x r) =>
                        if Ascii.eqb x "x" || Ascii.eqb x "X"
                        then match r with
                             | String "_" r' => r'
                             | _ => r
                             end
                        else String c s
                    | _ => String c s
                    end = String c s).
  { destruct s as [| x r]; [destruct c as [[] [] [] [] [] [] [] []]; reflexivity |].
    cbn [lower_hex] in Hs.
    destruct (char_map x) as [kx |] eqn:Hx; [| discriminate].
    destruct (lower_hex_digit x kx Hx) as (_ & _ & _ & _ & -> & ->).
    destruct c as [[] [] [] [] [] [] [] []]; reflexivity. }
  rewrite Hprefix. cbn [unsigned_hex_ok String.eqb negb].
  rewrite Hhex, (lower_hex_digits_ok s Hs). reflexivity.
Qed.

End HexText.

(** X22: what counts as hexadecimal text.  Every non-empty text of
    lower-case hexadecimal digits is a hex string and a long-form id string,
    whatever its length, odd lengths included: the long-form string check
    has no test of the length.  The long-form bytes check accepts the
    hexadecimal text of a byte string exactly when it has 36 bytes. *)
Theorem hex_text_checks (h : string) (b : list byte) :
  lower_hex h = true ->
  is_hex_string (VStr h) = negb (String.eqb h EmptyString)
  /\ is_atomical_id_long_form_string (VStr h) = negb (String.eqb h EmptyString)
  /\ is_atomical_id_long_form_bytes (VStr (hash_to_hex_str b)) = (length b =? 36)%nat.
Proof.
  intros Hh. split; [exact (lower_hex_int16 h Hh) |]. split.
  - unfold is_atomical_id_long_form_string. cbn [truthy].
    rewrite (lower_hex_int16 h Hh). destruct (String.eqb h EmptyString); reflexivity.
  - unfold is_atomical_id_long_form_bytes, hex_str_to_hash, hash_to_hex_str.
    rewrite fromhex_hex. reflexivity.
Qed.

(** X22 on a text of three digits and on the sample atomical id. *)
Lemma hex_text_checks_witness :
  is_hex_string (VStr "abc") = true
  /\ is_atomical_id_long_form_string (VStr "abc") = true
  /\ is_atomical_id_long_form_bytes (VStr (hash_to_hex_str sample_atomical_id)) = true.
Proof.
  apply (hex_text_checks "abc" sample_atomical_id). reflexivity.
Defined.

(** ** Subrealm rules in force *)

Section SortedItems.

Context {A : Type}.

Lemma elem_of_insert_reverse (x y : Z * A) l :
  y ∈ insert_reverse x l <-> y = x \/ y ∈ l.
Proof.
  induction l as [| z l IH]; cbn [insert_reverse].
  - rewrite list_elem_of_singleton, elem_of_nil. tauto.
  - destruct (fst z <=? fst x)%Z.
    + rewrite elem_of_cons. tauto.
    + rewrite !elem_of_cons, IH. tauto.
Qed.

Lemma elem_of_sorted_reverse (y : Z * A) l : y ∈ sorted_reverse l <-> y ∈ l.
Proof.
  induction l as [| x l IH]; [reflexivity |].
  cbn [sorted_reverse foldr]. fold (sorted_reverse l).
  rewrite elem_of_insert_reverse, elem_of_cons, IH. tauto.
Qed.

Lemma insert_reverse_decreasing (x : Z * A) l :
  decreasing_keys l ->
  (forall y, y ∈ l -> fst y <> fst x) ->
  decreasing_keys (insert_reverse x l).
Proof.
  induction l as [| z l IH]; intros Hl Hfresh; cbn [insert_reverse].
  - cbn. split; [intros y Hy; inversion Hy | exact I].
  - destruct Hl as [Hz Hl].
    destruct (Z.leb_spec (fst z) (fst x)) as [Hle | Hgt].
    + assert (Hzx : (fst z < fst x)%Z).
      { pose proof (Hfresh z ltac:(left)). lia. }
      split; [| split; assumption].
      intros y [-> | Hy]%elem_of_cons; [exact Hzx |].
      specialize (Hz y Hy). lia.
    + split.
      * intros y [-> | Hy]%elem_of_insert_reverse; [lia | exact (Hz y Hy)].
      * apply IH; [exact Hl |]. intros y Hy. apply Hfresh. right. exact Hy.
Qed.

Lemma sorted_reverse_decreasing (l : list (Z * A)) :
  NoDup (l.*1) -> decreasing_keys (sorted_reverse l).
Proof.
  induction l as [| x l IH]; intros Hnodup; [exact I |].
  cbn [sorted_reverse foldr]. fold (sorted_reverse l).
  cbn [fmap list_fmap] in Hnodup. apply NoDup_cons in Hnodup as [Hx Hnodup].
  apply insert_reverse_decreasing; [exact (IH Hnodup) |].
  intros y Hy Heq. apply (proj1 (elem_of_sorted_reverse y l)) in Hy.
  apply Hx. rewrite <- Heq.
  apply list_elem_of_fmap. exists y. split; [reflexivity | exact Hy].
Qed.

End SortedItems.

Section RulesInForce.

Variable getsizeof : list pyval -> Z.
Variable re_compiles : pyval -> bool.
Variable height_asked : Z.

Local Abbreviation old_enough :=
  (fun item : modpath_item =>
     (height item + MINT_SUBREALM_RULES_BECOME_EFFECTIVE_IN_BLOCKS <=? height_asked)%Z).

Lemma history_ordered_heights history : forall ph pt,
  history_ordered ph pt history = true ->
  forall item, item ∈ history -> (height item <= ph)%Z.
Proof.
  induction history as [| first rest IH]; intros ph pt Hordered item Hin;
    [inversion Hin |].
  cbn [history_ordered] in Hordered.
  apply andb_prop in Hordered as [Hfirst Hrest].
  apply andb_prop in Hfirst as [Hheight _]. apply Z.leb_le in Hheight.
  apply elem_of_cons in Hin as [-> | Hin]; [exact Hheight |].
  specialize (IH _ _ Hrest item Hin). lia.
Qed.

Lemma history_ordered_pair history : forall ph pt,
  history_ordered ph pt history = true ->
  forall a b, a ∈ history -> b ∈ history ->
              (height b < height a)%Z -> (tx_num b < tx_num a)%Z.
Proof.
  induction history as [| first rest IH]; intros ph pt Hordered a b Ha Hb Hlt;
    [inversion Ha |].
  cbn [history_ordered] in Hordered.
  apply andb_prop in Hordered as [_ Hrest].
  apply elem_of_cons in Ha as [-> | Ha]; apply elem_of_cons in Hb as [-> | Hb].
  - lia.
  - exact (history_ordered_bound _ _ _ Hrest b Hb).
  - pose proof (history_ordered_heights _ _ _ Hrest a Ha). lia.
  - exact (IH _ _ Hrest a b Ha Hb Hlt).
Qed.

Lemma first_at_elem h history item :
  first_at h history = Some item -> item ∈ history /\ height item = h.
Proof.
  induction history as [| first rest IH]; cbn [first_at]; [discriminate |].
  destruct (Z.eqb_spec (height first) h) as [Hh | _].
  - intros [= <-]. split; [left | exact Hh].
  - intros Hrest. destruct (IH Hrest) as [Hin Hheight]. split; [right |]; assumption.
Qed.

Lemma update_in_force_first history item :
  update_in_force height_asked history = Some item ->
  first_at (height item) history = Some item /\ old_enough item = true /\ item ∈ history.
Proof.
  unfold update_in_force.
  induction history as [| first rest IH]; cbn [List.find first_at]; [discriminate |].
  destruct (old_enough first) eqn:Hfirst.
  - intros [= <-]. rewrite Z.eqb_refl. repeat split; [exact Hfirst | left].
  - intros Hrest. destruct (IH Hrest) as (Hat & Hold & Hin).
    destruct (Z.eqb_spec (height first) (height item)) as [Heq | _].
    + rewrite Heq in Hfirst. congruence.
    + repeat split; [exact Hat | exact Hold | right; exact Hin].
Qed.

Lemma update_in_force_highest history : forall ph pt item,
  history_ordered ph pt history = true ->
  update_in_force height_asked history = Some item ->
  forall other, other ∈ history -> old_enough other = true ->
                (height other <= height item)%Z.
Proof.
  unfold update_in_force.
  induction history as [| first rest IH]; intros ph pt item Hordered;
    cbn [List.find]; [discriminate |].
  cbn [history_ordered] in Hordered.
  apply andb_prop in Hordered as [_ Hrest].
  destruct (old_enough first) eqn:Hfirst.
  - intros [= <-] other [-> | Hin]%elem_of_cons _; [lia |].
    exact (history_ordered_heights _ _ _ Hrest other Hin).
  - intros Hfind other [-> | Hin]%elem_of_cons Hold; [congruence |].
    exact (IH _ _ item Hrest Hfind other Hin Hold).
Qed.

Lemma update_in_force_none history :
  update_in_force height_asked history = None ->
  forall other, other ∈ history -> old_enough other = false.
Proof.
  unfold update_in_force.
  induction history as [| first rest IH]; cbn [List.find];
    [intros _ other Hin; inversion Hin |].
  destruct (old_enough first) eqn:Hfirst; [discriminate |].
  intros Hrest other [-> | Hin]%elem_of_cons; [exact Hfirst | exact (IH Hrest other Hin)].
Qed.

(** The scan of the collapsed updates, latest first, stops at the first one
    that is old enough, and none of its assertions fails. *)
Lemma rules_scan_first history items : forall prev,
  history_sorted history = true ->
  decreasing_keys items ->
  (forall k item, (k, item) ∈ items -> first_at k history = Some item) ->
  (forall k item, (k, item) ∈ items -> (tx_num item < prev)%Z) ->
  rules_scan getsizeof re_compiles height_asked items 99999999999 prev
  = Ok (match List.find (fun entry => old_enough (snd entry)) items with
        | Some (k, item) =>
            rule_set_of getsizeof re_compiles item
              (height item + MINT_SUBREALM_RULES_BECOME_EFFECTIVE_IN_BLOCKS)
        | None => None
        end).
Proof.
  intros prev Hsorted. revert prev.
  induction items as [| [k item] items IH]; intros prev Hkeys Hfirst Hprev;
    [reflexivity |].
  destruct Hkeys as [Hhead Hkeys].
  destruct (first_at_elem _ _ _ (Hfirst k item ltac:(left))) as [Hin Hk].
  cbn [rules_scan List.find snd].
  replace (height item =? k)%Z with true by (symmetry; apply Z.eqb_eq; exact Hk).
  cbn [negb].
  pose proof (history_ordered_heights _ _ _ Hsorted item Hin) as Hbound.
  destruct (Z.leb_spec (height item) 99999999999) as [_ |]; [| lia]. cbn [negb].
  pose proof (Hprev k item ltac:(left)) as Hnum.
  destruct (Z.ltb_spec (tx_num item) prev) as [_ |]; [| lia]. cbn [negb].
  destruct (Z.ltb_spec height_asked
              (height item + MINT_SUBREALM_RULES_BECOME_EFFECTIVE_IN_BLOCKS)) as [Hyoung | Hold].
  - destruct (Z.leb_spec (height item + MINT_SUBREALM_RULES_BECOME_EFFECTIVE_IN_BLOCKS)
                height_asked); [lia |].
    apply IH; [exact Hkeys | |].
    + intros k' item' Hin'. apply Hfirst. right. exact Hin'.
    + intros k' item' Hin'.
      destruct (first_at_elem _ _ _ (Hfirst k' item' ltac:(right; exact Hin')))
        as [Hin2 Hk'].
      apply (history_ordered_pair _ _ _ Hsorted item item' Hin Hin2).
      specialize (Hhead (k', item') Hin'). cbn [fst] in Hhead. lia.
  - destruct (Z.leb_spec (height item + MINT_SUBREALM_RULES_BECOME_EFFECTIVE_IN_BLOCKS)
                height_asked); [reflexivity | lia].
Qed.

Lemma find_first_entry history (items : list (Z * modpath_item)) :
  forall ph pt,
  history_ordered ph pt history = true ->
  decreasing_keys items ->
  (forall k item, (k, item) ∈ items <-> first_at k history = Some item) ->
  List.find (fun entry => old_enough (snd entry)) items
  = match update_in_force height_asked history with
    | Some item => Some (height item, item)
    | None => None
    end.
Proof.
  intros ph pt Hordered Hkeys Hitems.
  destruct (update_in_force height_asked history) as [item0 |] eqn:Hforce.
  - destruct (update_in_force_first _ _ Hforce) as (Hat & Hold & Hin0).
    pose proof (update_in_force_highest _ _ _ _ Hordered Hforce) as Hhighest.
    apply Hitems in Hat.
    assert (Hyounger : forall k item, (k, item) ∈ items -> (height item0 < k)%Z ->
                                      old_enough item = false).
    { intros k item Hin Hlt.
      destruct (first_at_elem _ _ _ (proj1 (Hitems k item) Hin)) as [Hin' Hk].
      destruct (old_enough item) eqn:Hitem; [| reflexivity].
      specialize (Hhighest item Hin' Hitem). lia. }
    clear Hitems Hhighest.
    induction items as [| [k item] items IH]; [inversion Hat |].
    destruct Hkeys as [Hhead Hkeys]. cbn [List.find snd].
    apply elem_of_cons in Hat as [[= <- <-] | Hat].
    + rewrite Hold. reflexivity.
    + rewrite (Hyounger k item ltac:(left)).
      * apply IH; [exact Hkeys | exact Hat |].
        intros k' item' Hin'. apply Hyounger. right. exact Hin'.
      * specialize (Hhead _ Hat). cbn [fst] in Hhead. exact Hhead.
  - pose proof (update_in_force_none _ Hforce) as Hnone.
    assert (Hall : forall k item, (k, item) ∈ items -> old_enough item = false).
    { intros k item Hin.
      destruct (first_at_elem _ _ _ (proj1 (Hitems k item) Hin)) as [Hin' _].
      exact (Hnone item Hin'). }
    clear Hitems Hkeys.
    induction items as [| [k item] items IH]; [reflexivity |].
    cbn [List.find snd]. rewrite (Hall k item ltac:(left)).
    apply IH. intros k' item' Hin'. apply (Hall k'). right. exact Hin'.
Qed.

Lemma collapse_loop_unsorted history : forall st,
  history_ordered (prev_height st) (prev_tx_num st) history = false ->
  collapse_loop history st = Raise AssertionError.
Proof.
  induction history as [| item rest IH]; intros st; cbn [history_ordered collapse_loop];
    [discriminate |].
  unfold collapse_step.
  destruct (height item <=? prev_height st)%Z; cbn [negb andb rbind]; [| reflexivity].
  destruct (tx_num item <? prev_tx_num st)%Z; cbn [negb andb rbind]; [| reflexivity].
  intros Hrest. apply IH. exact Hrest.
Qed.

Lemma rules_in_force_sorted history :
  calculate_subrealm_rules_list_as_of_height getsizeof re_compiles height_asked history
  = if history_sorted history
    then Ok (match update_in_force height_asked history with
             | Some item =>
                 rule_set_of getsizeof re_compiles item
                   (height item + MINT_SUBREALM_RULES_BECOME_EFFECTIVE_IN_BLOCKS)
             | None => None
             end)
    else Raise AssertionError.
Proof.
  unfold calculate_subrealm_rules_list_as_of_height,
    create_collapsed_height_to_mod_path_history_items_map.
  destruct (history_sorted history) eqn:Hsorted.
  - destruct (collapse_loop_first history
                {| collapsed := ∅; prev_height := 99999999999; prev_tx_num := 99999999999 |}
                Hsorted) as (st & -> & Hmap).
    cbn [rbind]. cbn [collapsed] in Hmap.
    assert (Hitems : forall k item,
      (k, item) ∈ sorted_reverse (map_to_list (collapsed st))
      <-> first_at k history = Some item).
    { intros k item. rewrite elem_of_sorted_reverse, elem_of_map_to_list, Hmap.
      rewrite lookup_empty. reflexivity. }
    assert (Hkeys : decreasing_keys (sorted_reverse (map_to_list (collapsed st))))
      by (apply sorted_reverse_decreasing, NoDup_fst_map_to_list).
    rewrite (rules_scan_first history _ _ Hsorted Hkeys).
    + rewrite (find_first_entry history _ _ _ Hsorted Hkeys Hitems).
      destruct (update_in_force height_asked history); reflexivity.
    + intros k item Hin. apply Hitems. exact Hin.
    + intros k item Hin.
      destruct (first_at_elem _ _ _ (proj1 (Hitems k item) Hin)) as [Hin' _].
      exact (history_ordered_bound _ _ _ Hsorted item Hin').
  - rewrite collapse_loop_unsorted by exact Hsorted. reflexivity.
Qed.

End RulesInForce.

Section RuleSets.

Variable getsizeof : list pyval -> Z.
Variable re_compiles : pyval -> bool.

(** A rule as the price list keeps it. *)
Local Abbreviation kept_as :=
  (fun (rule : pyval) (point : price_point) =>
     exists entries,
       rule = VDict entries
       /\ dict_get entries "p" = Some (pp_p point)
       /\ pp_p point <> VNone
       /\ dict_get entries "o" = Some (VDict (pp_o point))
       /\ pp_o point <> []
       /\ re_compiles (pp_p point) = true
       /\ Forall (fun output =>
                    is_hex_string (VStr (fst output)) = true
                    /\ exists v, as_int (snd output) = Some v /\ (0 <= v)%Z)
            (pp_o point)).

Lemma outputs_loop_all outputs :
  outputs_loop outputs = true ->
  Forall (fun output =>
            is_hex_string (VStr (fst output)) = true
            /\ exists v, as_int (snd output) = Some v /\ (0 <= v)%Z) outputs.
Proof.
  induction outputs as [| [script value] rest IH]; cbn [outputs_loop];
    [constructor |].
  destruct (as_int value) as [v |] eqn:Hint; [| discriminate].
  unfold SUBREALM_MINT_MIN_PAYMENT_DUST_LIMIT.
  destruct (Z.ltb_spec v 0); [discriminate |].
  destruct (is_hex_string (VStr script)) eqn:Hhex; cbn [negb]; [| discriminate].
  intros Hrest. constructor; [| exact (IH Hrest)].
  cbn [fst snd]. split; [exact Hhex |]. exists v. split; [exact Hint | lia].
Qed.

Lemma rules_loop_all rules : forall so_far price_list,
  rules_loop re_compiles rules so_far = Some price_list ->
  exists points, price_list = so_far ++ points /\ Forall2 kept_as rules points.
Proof.
  induction rules as [| rule rest IH]; intros so_far price_list; cbn [rules_loop].
  - intros [= <-]. exists []. rewrite app_nil_r. split; [reflexivity | constructor].
  - destruct rule as [| | | | | | | entries |]; try discriminate.
    destruct (dict_get entries "p") as [p |] eqn:Hp; [| discriminate].
    destruct (dict_get entries "o") as [o |] eqn:Ho;
      [| rewrite andb_false_r; discriminate].
    destruct (not_none (Some p)) eqn:Hpnone; cbn [andb]; [| discriminate].
    destruct (not_none (Some o)) eqn:Honone; [| discriminate].
    destruct o as [| | | | | | | outputs |]; try discriminate.
    destruct (Nat.ltb_spec (length outputs) 1) as [| Hlen]; [discriminate |].
    destruct (outputs_loop outputs) eqn:Houtputs; cbn [negb]; [| discriminate].
    destruct (re_compiles p) eqn:Hcompiles; [| discriminate].
    intros Hrest. destruct (IH _ _ Hrest) as (points & -> & Hpoints).
    exists ({| pp_p := p; pp_o := outputs |} :: points).
    split; [rewrite <- app_assoc; reflexivity |].
    constructor; [| exact Hpoints].
    exists entries. cbn [pp_p pp_o].
    repeat split; try assumption.
    + intros ->. discriminate.
    + intros ->. cbn [length] in Hlen. lia.
    + exact (outputs_loop_all outputs Houtputs).
Qed.

Lemma rule_set_of_kept modpath_item valid_from_height rule_set :
  rule_set_of getsizeof re_compiles modpath_item valid_from_height = Some rule_set ->
  rule_set_txid rule_set = txid modpath_item
  /\ rule_set_height rule_set = height modpath_item
  /\ rule_valid_from_height rule_set = valid_from_height
  /\ exists entries rules,
       data modpath_item = VDict entries
       /\ dict_get entries "$path" = Some (VStr SUBREALM_MINT_PATH)
       /\ dict_get entries "rules" = Some (VList rules)
       /\ rules <> []
       /\ (getsizeof rules <= MAX_SUBREALM_RULE_SIZE_BYTES)%Z
       /\ Forall2 kept_as rules (rs_rules rule_set).
Proof.
  unfold rule_set_of.
  destruct (negb (truthy (data modpath_item)) || negb (is_dict (data modpath_item)));
    [discriminate |].
  destruct (data modpath_item) as [| | | | | | | entries |]; try discriminate.
  destruct (dict_get entries "$path") as [[| | | | mod_path | | | |] |] eqn:Hpath;
    try discriminate.
  destruct (String.eqb_spec mod_path SUBREALM_MINT_PATH) as [-> |]; cbn [negb];
    [| discriminate].
  destruct (dict_get entries "rules") as [value |] eqn:Hrules; [| discriminate].
  destruct (negb (truthy value)); [discriminate |].
  destruct value as [| | | | | | rules | |]; try discriminate.
  destruct (Nat.leb_spec (length rules) 0) as [| Hlen]; [discriminate |].
  destruct (Z.gtb_spec (getsizeof rules) MAX_SUBREALM_RULE_SIZE_BYTES) as [| Hsize];
    [discriminate |].
  destruct (rules_loop re_compiles rules []) as [price_list |] eqn:Hloop;
    [| discriminate].
  intros [= <-]. cbn.
  destruct (rules_loop_all _ _ _ Hloop) as (points & -> & Hpoints).
  repeat split. exists entries, rules.
  repeat split; try assumption; try reflexivity.
  intros ->. cbn [length] in Hlen. lia.
Qed.

End RuleSets.

(** X23: the rules in force at a height.  On a history in the asserted
    order (heights never increase and [tx_num] strictly decreases) the
    function returns and none of its assertions fails: its result is the
    check of one update, the first of the history whose height is at most
    the asked height less 3, which is the update of the greatest such
    height and, at that height, of the greatest [tx_num].  When that update
    does not pass the checks the result is [None]: no older update is
    tried.  When no update is old enough the result is [None].  On a
    history that is not in that order the function raises
    [AssertionError]. *)
Theorem rules_in_force (getsizeof : list pyval -> Z) (re_compiles : pyval -> bool) (height_asked : Z) (history : list modpath_item) :
  if history_sorted history then
    match update_in_force height_asked history with
    | Some item =>
        calculate_subrealm_rules_list_as_of_height getsizeof re_compiles height_asked history
        = Ok (rule_set_of getsizeof re_compiles item (height item + 3))
        /\ item ∈ history
        /\ (height item + 3 <= height_asked)%Z
        /\ forall other,
             other ∈ history -> (height other + 3 <= height_asked)%Z ->
             (height other < height item)%Z
             \/ (height other = height item /\ (tx_num other <= tx_num item)%Z)
    | None =>
        calculate_subrealm_rules_list_as_of_height getsizeof re_compiles height_asked history
        = Ok None
        /\ forall other, other ∈ history -> (height_asked < height other + 3)%Z
    end
  else
    calculate_subrealm_rules_list_as_of_height getsizeof re_compiles height_asked history
    = Raise AssertionError.
Proof.
  rewrite rules_in_force_sorted.
  destruct (history_sorted history) eqn:Hsorted; [| reflexivity].
  destruct (update_in_force height_asked history) as [item |] eqn:Hforce.
  - destruct (update_in_force_first _ _ _ Hforce) as (Hat & Hold & Hin).
    apply Z.leb_le in Hold. unfold MINT_SUBREALM_RULES_BECOME_EFFECTIVE_IN_BLOCKS in *.
    split; [reflexivity |]. split; [exact Hin |]. split; [exact Hold |].
    intros other Hother Hotherold.
    assert (Hle : (height other <= height item)%Z).
    { apply (update_in_force_highest height_asked history _ _ item Hsorted Hforce other Hother).
      apply Z.leb_le. exact Hotherold. }
    destruct (Z.eq_dec (height other) (height item)) as [Heq | Hne]; [| left; lia].
    right. split; [exact Heq |].
    destruct (first_at_highest _ _ _ _ _ Hsorted Hat) as (_ & _ & Hhighest).
    exact (Hhighest other Hother Heq).
  - split; [reflexivity |]. intros other Hother.
    pose proof (update_in_force_none _ _ Hforce other Hother) as Hyoung.
    apply Z.leb_gt in Hyoung.
    unfold MINT_SUBREALM_RULES_BECOME_EFFECTIVE_IN_BLOCKS in *. exact Hyoung.
Qed.

(** X24: a returned rule set is well formed and complete.  When the checks
    of an update return a rule set, it carries the transaction id and the
    height of the update; the data of the update is a dict with the path
    [/subrealms] and a non-empty list of rules within the size limit; and
    the price list has one point for each rule, in order: each rule is a
    dict whose [p] is not [None] and compiles as a regular expression and
    whose [o] is a non-empty dict from hex strings to integers that are not
    negative.  One rule that fails a check leaves no rule set at all. *)
Theorem returned_rule_set_is_well_formed (getsizeof : list pyval -> Z) (re_compiles : pyval -> bool) (modpath_item : modpath_item) (valid_from_height : Z) (rule_set : rule_set) :
  rule_set_of getsizeof re_compiles modpath_item valid_from_height = Some rule_set ->
  rule_set_txid rule_set = txid modpath_item
  /\ rule_set_height rule_set = height modpath_item
  /\ rule_valid_from_height rule_set = valid_from_height
  /\ exists entries rules,
       data modpath_item = VDict entries
       /\ dict_get entries "$path" = Some (VStr "/subrealms")
       /\ dict_get entries "rules" = Some (VList rules)
       /\ rules <> []
       /\ (getsizeof rules <= 1000000)%Z
       /\ Forall2
            (fun (rule : pyval) (point : price_point) =>
               exists rule_entries,
                 rule = VDict rule_entries
                 /\ dict_get rule_entries "p" = Some (pp_p point)
                 /\ pp_p point <> VNone
                 /\ dict_get rule_entries "o" = Some (VDict (pp_o point))
                 /\ pp_o point <> []
                 /\ re_compiles (pp_p point) = true
                 /\ Forall (fun output =>
                              is_hex_string (VStr (fst output)) = true
                              /\ exists v, as_int (snd output) = Some v /\ (0 <= v)%Z)
                      (pp_o point))
            rules (rs_rules rule_set).
Proof. exact (rule_set_of_kept getsizeof re_compiles modpath_item valid_from_height rule_set). Qed.

(** X23 on the sample history at height 115: the update at height 110 is in
    force, it has no rules, and the older update at height 100 is not
    tried. *)
Lemma rules_in_force_witness :
  calculate_subrealm_rules_list_as_of_height
    (fun rules => 56 + 8 * Z.of_nat (length rules))%Z (fun _ => true) 115 sample_rules_history
  = Ok None
  /\ update_in_force 115 sample_rules_history
     = Some {| height := 110; tx_num := 40; txid := unhex "02";
               data := sample_rules_data [] |}.
Proof.
  pose proof (rules_in_force (fun rules => 56 + 8 * Z.of_nat (length rules))%Z
                (fun _ => true) 115 sample_rules_history) as Hforce.
  change (history_sorted sample_rules_history) with true in Hforce.
  change (update_in_force 115 sample_rules_history)
    with (Some {| height := 110; tx_num := 40; txid := unhex "02";
                  data := sample_rules_data [] |}) in Hforce.
  cbv iota in Hforce. destruct Hforce as [Hresult _].
  split; [rewrite Hresult; reflexivity | reflexivity].
Defined.

(** X24 on the latest update of the sample history. *)
Lemma returned_rule_set_is_well_formed_witness :
  exists rule_set,
    rule_set_of (fun rules => 56 + 8 * Z.of_nat (length rules))%Z (fun _ => true)
      {| height := 120; tx_num := 57; txid := unhex "04";
         data := sample_rules_data [sample_rule] |} 123
    = Some rule_set
    /\ rule_set_txid rule_set = unhex "04"
    /\ rule_set_height rule_set = 120%Z
    /\ rule_valid_from_height rule_set = 123%Z
    /\ length (rs_rules rule_set) = 1%nat.
Proof.
  eexists. split; [vm_compute; reflexivity |].
  destruct (returned_rule_set_is_well_formed
              (fun rules => 56 + 8 * Z.of_nat (length rules))%Z (fun _ => true)
              {| height := 120; tx_num := 57; txid := unhex "04";
                 data := sample_rules_data [sample_rule] |} 123 _
              ltac:(vm_compute; reflexivity))
    as (Htxid & Hheight & Hvalid & _).
  repeat split; assumption || reflexivity.
Defined.
